(** * Digest authentication for axios: a shallow embedding

    The repository ships two near-identical copies of [digest-auth.ts].
    The first copy (lines 1-228 of the source file) always hashes with MD5,
    logs the intermediate hashes and rolls the nonce count over at 99; the
    second copy (lines 229-446) takes the algorithm from the challenge and
    rolls over at 9999.  Code that is textually the same in both copies is
    embedded once; code that differs lives in [Module Copy1] and
    [Module Copy2].

    Modelling conventions.
    - A JavaScript string is a [string] of 8-bit code units (Latin-1), which
      is what an HTTP header carries.
    - A JavaScript [number] holding a counter is an integer [Z].
    - An optional field [f?: string] is an [option string]; truthiness of
      such a field is written out ([truthy]).
    - [crypto.createHash], [new URL], [crypto.randomBytes] and the HTTP
      transport are not part of the repository: they are parameters.
    - The headers of a request are a map from names to values, read and
      written without regard to the capitals of a name, as the header store
      of axios does. *)

From Stdlib Require Import ZArith String Ascii List Bool Lia.
From stdpp Require Import gmap strings.
Import ListNotations.

Local Open Scope string_scope.
Local Open Scope Z_scope.

(** ** JavaScript string primitives used by the code *)

Module Js.

(** Code unit of a character. *)
Definition code (c : ascii) : Z := Z.of_N (N_of_ascii c).

Definition chr (z : Z) : ascii := ascii_of_N (Z.to_N z).

(** [String.prototype.toLowerCase] on one Latin-1 code unit: A-Z and the
    accented capitals U+00C0..U+00DE (without the multiplication sign
    U+00D7) move up by 32. *)
Definition toLowerCaseChar (c : ascii) : ascii :=
  let n := code c in
  if ((65 <=? n) && (n <=? 90)) || ((192 <=? n) && (n <=? 222) && negb (n =? 215))
  then chr (n + 32) else c.

Fixpoint toLowerCase (s : string) : string :=
  match s with
  | EmptyString => EmptyString
  | String c r => String (toLowerCaseChar c) (toLowerCase r)
  end.

(** [String.prototype.toUpperCase], same range the other way; the two
    Latin-1 letters whose capital lies outside Latin-1 (U+00DF, U+00FF) and
    the micro sign are left alone: the model keeps 8-bit strings. *)
Definition toUpperCaseChar (c : ascii) : ascii :=
  let n := code c in
  if ((97 <=? n) && (n <=? 122)) || ((224 <=? n) && (n <=? 254) && negb (n =? 247))
  then chr (n - 32) else c.

Fixpoint toUpperCase (s : string) : string :=
  match s with
  | EmptyString => EmptyString
  | String c r => String (toUpperCaseChar c) (toUpperCase r)
  end.

(** [s.startsWith(p)] *)
Fixpoint startsWith (s p : string) : bool :=
  match p, s with
  | EmptyString, _ => true
  | String _ _, EmptyString => false
  | String a p', String b s' => if Ascii.eqb a b then startsWith s' p' else false
  end.

(** [s.indexOf(p)]: the first position at which [p] occurs, [None] for -1. *)
Fixpoint indexOf (s p : string) : option nat :=
  if startsWith s p then Some O
  else match s with
       | EmptyString => None
       | String _ r => option_map S (indexOf r p)
       end.

(** [s.includes(p)] *)
Definition includes (s p : string) : bool :=
  match indexOf s p with Some _ => true | None => false end.

(** [s.substring(n)] for [n] within the string or past its end. *)
Fixpoint substring (n : nat) (s : string) : string :=
  match n, s with
  | O, _ => s
  | S n', String _ r => substring n' r
  | S _, EmptyString => EmptyString
  end.

Fixpoint repeat (c : ascii) (n : nat) : string :=
  match n with O => EmptyString | S n' => String c (repeat c n') end.

(** [s.padStart(width, c)] with a one-character filler. *)
Definition padStart (width : nat) (c : ascii) (s : string) : string :=
  repeat c (width - String.length s) ++ s.

(** Digit of value [d] in radix 16, lowercase as [Number.prototype.toString]
    prints it. *)
Definition hexDigit (d : Z) : ascii :=
  if d <? 10 then chr (48 + d) else chr (87 + d).

(** Most significant digit first; [fuel] bounds the number of digits. *)
Fixpoint hexDigits (fuel : nat) (n : Z) (acc : string) : string :=
  match fuel with
  | O => acc
  | S f =>
      let acc' := String (hexDigit (n mod 16)) acc in
      if n / 16 =? 0 then acc' else hexDigits f (n / 16) acc'
  end.

(** A non-negative [n] has at most [log2 n / 4 + 1] hexadecimal digits. *)
Definition hexOfNonneg (n : Z) : string :=
  hexDigits (S (Z.to_nat (Z.log2 n / 4))) n EmptyString.

(** [n.toString(16)] for an integer-valued number. *)
Definition toString16 (n : Z) : string :=
  if n <? 0 then String "-" (hexOfNonneg (- n)) else hexOfNonneg n.

(** The double quote, and a text between double quotes. *)
Definition DQ : string := String "034" EmptyString.
Definition quoted (s : string) : string := DQ ++ s ++ DQ.

(** Truthiness of a string: only the empty string is falsy. *)
Definition truthyStr (s : string) : bool :=
  match s with EmptyString => false | _ => true end.

(** Truthiness of an optional string field: [undefined] and [""] are falsy. *)
Definition truthy (o : option string) : bool :=
  match o with Some s => truthyStr s | None => false end.

(** [o || d] on an optional string. *)
Definition orElse (o : option string) (d : string) : string :=
  match o with
  | Some s => if truthyStr s then s else d
  | None => d
  end.

End Js.

(** ** Data model (identical in both copies) *)

Record DigestAuthConfig := {
  username : string;
  password : string
}.

Record DigestChallenge := {
  realm : string;
  nonce : string;
  qop : option string;
  opaque : option string;
  algorithm : option string
}.

(** [formatNonceCount], lines 48-50 and 279-281. *)
Definition formatNonceCount (nc : Z) : string :=
  Js.padStart 8 "0" (Js.toString16 nc).

(** ** The challenge parser (lines 17-46 and 245-276, identical) *)

Module Regex.

(** A word character: ASCII letters, digits and the underscore. *)
Definition isWord (c : ascii) : bool :=
  let n := Js.code c in
  ((48 <=? n) && (n <=? 57)) || ((65 <=? n) && (n <=? 90))
  || ((97 <=? n) && (n <=? 122)) || (n =? 95).

Definition notQuote (c : ascii) : bool := negb (Ascii.eqb c "034").
Definition notComma (c : ascii) : bool := negb (Ascii.eqb c ",").

(** The longest prefix of [s] whose characters satisfy [p], and what
    follows it: a greedy [p*]. *)
Fixpoint span (p : ascii -> bool) (s : string) : string * string :=
  match s with
  | EmptyString => (EmptyString, EmptyString)
  | String c r =>
      if p c then let '(a, b) := span p r in (String c a, b)
      else (EmptyString, s)
  end.

(** One match of the regular expression: group 1, then the value (group 2
    when the quoted alternative matched, group 3 otherwise), then the text
    after the match, where the next search starts. *)
Record Match := { key : string; value : string; rest : string }.

(** The second alternative of the value, any run of characters other than a
    comma (possibly empty), on the text after the equals sign. *)
Definition unquoted (k after : string) : Match :=
  let '(v, r) := span notComma after in
  {| key := k; value := v; rest := r |}.

(** The regular expression of the parser anchored at the start of [s]: one
    or more word characters, an equals sign, then either a double-quoted
    value without quotes inside or an unquoted value.  The greedy run of word
    characters can only be followed by the equals sign at the end of the
    whole run; the quoted alternative needs its closing quote, and the
    unquoted one is tried from the same place when it is missing. *)
Definition matchHere (s : string) : option Match :=
  match span isWord s with
  | (String k0 k, String "=" after) =>
      match after with
      | String "034" inner =>
          match span notQuote inner with
          | (v, String "034" r) => Some {| key := String k0 k; value := v; rest := r |}
          | _ => Some (unquoted (String k0 k) after)
          end
      | _ => Some (unquoted (String k0 k) after)
      end
  | _ => None
  end.

(** [regex.exec] from [lastIndex]: the leftmost position with a match. *)
Fixpoint exec (s : string) : option Match :=
  match matchHere s with
  | Some m => Some m
  | None =>
      match s with
      | EmptyString => None
      | String _ r => exec r
      end
  end.

End Regex.

Definition emptyChallenge : DigestChallenge :=
  {| realm := ""; nonce := ""; qop := None; opaque := None; algorithm := None |}.

(** The [switch (key)] of the parse loop. *)
Definition assignDirective (key value : string) (c : DigestChallenge) : DigestChallenge :=
  if String.eqb key "realm" then
    {| realm := value; nonce := nonce c; qop := qop c; opaque := opaque c;
       algorithm := algorithm c |}
  else if String.eqb key "nonce" then
    {| realm := realm c; nonce := value; qop := qop c; opaque := opaque c;
       algorithm := algorithm c |}
  else if String.eqb key "qop" then
    {| realm := realm c; nonce := nonce c; qop := Some value; opaque := opaque c;
       algorithm := algorithm c |}
  else if String.eqb key "opaque" then
    {| realm := realm c; nonce := nonce c; qop := qop c; opaque := Some value;
       algorithm := algorithm c |}
  else if String.eqb key "algorithm" then
    {| realm := realm c; nonce := nonce c; qop := qop c; opaque := opaque c;
       algorithm := Some value |}
  else c.

(** The [while] loop over [regex.exec(authHeader)].  Every
    match consumes at least two characters, so [fuel] equal to the length
    of the text never runs out ([parseLoop_fuel] below). *)
Fixpoint parseLoop (fuel : nat) (s : string) (c : DigestChallenge) : DigestChallenge :=
  match fuel with
  | O => c
  | S f =>
      match Regex.exec s with
      | None => c
      | Some m =>
          parseLoop f (Regex.rest m)
            (assignDirective (Js.toLowerCase (Regex.key m)) (Regex.value m) c)
      end
  end.

Definition parseDigestChallenge (authHeader : string) : DigestChallenge :=
  parseLoop (String.length authHeader) authHeader emptyChallenge.

(** ** MD5 (RFC 1321)

    [crypto.createHash] belongs to the Node runtime, and every definition of
    the engine takes it as a parameter.  MD5, the one algorithm the code
    names itself, is written out here so that the engine can be run on
    concrete inputs. *)

Module MD5.

Definition mask32 := 4294967295.
Definition add32 (a b : Z) : Z := (a + b) mod 4294967296.
Definition not32 (a : Z) : Z := Z.lxor a mask32.
Definition rotl32 (x : Z) (c : Z) : Z :=
  Z.lor (Z.land (Z.shiftl x c) mask32) (Z.shiftr x (32 - c)).

(** [floor(2^32 * abs(sin(i + 1)))] for [i] from 0 to 63. *)
Definition K : list Z :=
  [ 0xd76aa478; 0xe8c7b756; 0x242070db; 0xc1bdceee;
    0xf57c0faf; 0x4787c62a; 0xa8304613; 0xfd469501;
    0x698098d8; 0x8b44f7af; 0xffff5bb1; 0x895cd7be;
    0x6b901122; 0xfd987193; 0xa679438e; 0x49b40821;
    0xf61e2562; 0xc040b340; 0x265e5a51; 0xe9b6c7aa;
    0xd62f105d; 0x02441453; 0xd8a1e681; 0xe7d3fbc8;
    0x21e1cde6; 0xc33707d6; 0xf4d50d87; 0x455a14ed;
    0xa9e3e905; 0xfcefa3f8; 0x676f02d9; 0x8d2a4c8a;
    0xfffa3942; 0x8771f681; 0x6d9d6122; 0xfde5380c;
    0xa4beea44; 0x4bdecfa9; 0xf6bb4b60; 0xbebfbc70;
    0x289b7ec6; 0xeaa127fa; 0xd4ef3085; 0x04881d05;
    0xd9d4d039; 0xe6db99e5; 0x1fa27cf8; 0xc4ac5665;
    0xf4292244; 0x432aff97; 0xab9423a7; 0xfc93a039;
    0x655b59c3; 0x8f0ccc92; 0xffeff47d; 0x85845dd1;
    0x6fa87e4f; 0xfe2ce6e0; 0xa3014314; 0x4e0811a1;
    0xf7537e82; 0xbd3af235; 0x2ad7d2bb; 0xeb86d391 ].

Definition shifts : list Z :=
  [ 7; 12; 17; 22; 7; 12; 17; 22; 7; 12; 17; 22; 7; 12; 17; 22;
    5; 9; 14; 20; 5; 9; 14; 20; 5; 9; 14; 20; 5; 9; 14; 20;
    4; 11; 16; 23; 4; 11; 16; 23; 4; 11; 16; 23; 4; 11; 16; 23;
    6; 10; 15; 21; 6; 10; 15; 21; 6; 10; 15; 21; 6; 10; 15; 21 ].

(** UTF-8 bytes of a string of Latin-1 code units, as [hash.update(data)]
    encodes its argument. *)
Fixpoint utf8 (s : string) : list Z :=
  match s with
  | EmptyString => []
  | String c r =>
      let n := Js.code c in
      if n <? 128 then n :: utf8 r
      else Z.lor 192 (Z.shiftr n 6) :: Z.lor 128 (Z.land n 63) :: utf8 r
  end.

Definition le64 (n : Z) : list Z :=
  map (fun i => Z.land (Z.shiftr n (8 * Z.of_nat i)) 255) (seq 0 8).

(** Padding: a one bit, zero bits up to 56 modulo 64 bytes, the bit length. *)
Definition pad (msg : list Z) : list Z :=
  let len := Z.of_nat (List.length msg) in
  let zeros := Z.to_nat ((55 - len) mod 64) in
  (msg ++ 128 :: List.repeat 0 zeros) ++ le64 (8 * len).

Fixpoint words (fuel : nat) (bs : list Z) : list Z :=
  match fuel, bs with
  | S f, b0 :: b1 :: b2 :: b3 :: r =>
      (b0 + 256 * b1 + 65536 * b2 + 16777216 * b3) :: words f r
  | _, _ => []
  end.

Record State := { sa : Z; sb : Z; sc : Z; sd : Z }.

Definition init : State :=
  {| sa := 0x67452301; sb := 0xefcdab89; sc := 0x98badcfe; sd := 0x10325476 |}.

Definition step (M : list Z) (st : State) (i : nat) : State :=
  let zi := Z.of_nat i in
  let '(f, g) :=
    if zi <? 16 then
      (Z.lor (Z.land (sb st) (sc st)) (Z.land (not32 (sb st)) (sd st)), zi)
    else if zi <? 32 then
      (Z.lor (Z.land (sd st) (sb st)) (Z.land (not32 (sd st)) (sc st)), (5 * zi + 1) mod 16)
    else if zi <? 48 then
      (Z.lxor (sb st) (Z.lxor (sc st) (sd st)), (3 * zi + 5) mod 16)
    else
      (Z.lxor (sc st) (Z.lor (sb st) (not32 (sd st))), (7 * zi) mod 16) in
  let f' := add32 (add32 (add32 f (sa st)) (nth i K 0)) (nth (Z.to_nat g) M 0) in
  {| sa := sd st; sd := sc st; sc := sb st;
     sb := add32 (sb st) (rotl32 f' (nth i shifts 0)) |}.

Definition block (st : State) (M : list Z) : State :=
  let r := fold_left (step M) (seq 0 64) st in
  {| sa := add32 (sa st) (sa r); sb := add32 (sb st) (sb r);
     sc := add32 (sc st) (sc r); sd := add32 (sd st) (sd r) |}.

Fixpoint blocks (fuel : nat) (ws : list Z) (st : State) : State :=
  match fuel, ws with
  | S f, _ :: _ => blocks f (skipn 16 ws) (block st (firstn 16 ws))
  | _, _ => st
  end.

Definition hexByte (b : Z) : string :=
  String (Js.hexDigit (b / 16)) (String (Js.hexDigit (b mod 16)) EmptyString).

Definition hexWord (w : Z) : string :=
  hexByte (w mod 256) ++ hexByte ((w / 256) mod 256)
  ++ hexByte ((w / 65536) mod 256) ++ hexByte ((w / 16777216) mod 256).

(** [createHash("md5").update(data).digest("hex")] *)
Definition hex (data : string) : string :=
  let bs := pad (utf8 data) in
  let ws := words (List.length bs) bs in
  let st := blocks (List.length ws) ws init in
  hexWord (sa st) ++ hexWord (sb st) ++ hexWord (sc st) ++ hexWord (sd st).

End MD5.

(** ** What the engine runs on: runtime, transport, effects *)

(** The Node runtime as far as the engine uses it.
    - [createHash name] is [crypto.createHash(name)] followed by
      [.update(data).digest("hex")]; [None] when the digest name is unknown
      and the call throws.
    - [newURL url base] is [new URL(url, base)], giving [pathname] and
      [search]; [None] when it throws. *)
Record Runtime := {
  createHash : string -> option (string -> string);
  newURL : string -> option string -> option (string * string)
}.

(** An axios request configuration, with the fields the engine reads or
    writes.  [headers] maps a header name to its value. *)
Record AxiosRequestConfig := {
  method : option string;
  url : option string;
  baseURL : option string;
  headers : option (gmap string string);
  maxRedirects : option Z;
  validateStatus : option (Z -> bool);
  timeout : option Z
}.

(** What the device answers: nothing (the transport fails), or a status with
    an optional [WWW-Authenticate] header. *)
Inductive HttpOutcome :=
| NetworkError
| HttpResponse (status : Z) (wwwAuthenticate : option string).

Record AxiosResponse := {
  status : Z;
  www_authenticate : option string
}.

(** Everything the code throws or rejects with. *)
Inductive Error :=
| AxiosError (response : option AxiosResponse)
| Expected401 (got : Z)
| MissingWWWAuthenticate
| InvalidAuthenticationType (authHeader : string)
| InvalidDigestChallenge (c : DigestChallenge)
| NoValidDigestChallenge
| UnknownDigest (name : string).

(** Arguments handed to [console.log], [console.warn] and [console.error]. *)
Inductive LogArg :=
| LText (s : string)
| LObject (fields : list (string * string))
| LChallenge (c : DigestChallenge)
| LError (e : Error).

(** The observable effects of a run, in the order they happen. *)
Inductive Event :=
| ConsoleLog (args : list LogArg)
| ConsoleWarn (args : list LogArg)
| ConsoleError (args : list LogArg)
| Probe (cfg : AxiosRequestConfig)
| Dispatch (cfg : AxiosRequestConfig).

(** The variables [createDigestAuth] closes over and both interceptors
    share.  ([retryCount] and [MAX_RETRIES] of the first copy are never
    read.) *)
Record Cache := {
  nc : Z;
  cachedChallenge : option DigestChallenge
}.

(** A computation over the shared cache that emits events and may throw.
    Assignments made before a throw stay made. *)
Record Outcome (A : Type) := {
  trace : list Event;
  cache : Cache;
  result : Error + A
}.
Arguments trace {A} _.
Arguments cache {A} _.
Arguments result {A} _.

Definition M (A : Type) : Type := Cache -> Outcome A.

Definition ret {A} (a : A) : M A :=
  fun s => {| trace := []; cache := s; result := inr a |}.

Definition throw {A} (e : Error) : M A :=
  fun s => {| trace := []; cache := s; result := inl e |}.

Definition bind {A B} (m : M A) (k : A -> M B) : M B :=
  fun s =>
    match m s with
    | {| trace := t; cache := s1; result := inl e |} =>
        {| trace := t; cache := s1; result := inl e |}
    | {| trace := t; cache := s1; result := inr a |} =>
        match k a s1 with
        | {| trace := t'; cache := s2; result := r |} =>
            {| trace := t ++ t'; cache := s2; result := r |}
        end
    end.

(** [try { m } catch (error) { h error }] *)
Definition tryCatch {A} (m : M A) (h : Error -> M A) : M A :=
  fun s =>
    match m s with
    | {| trace := t; cache := s1; result := inl e |} =>
        match h e s1 with
        | {| trace := t'; cache := s2; result := r |} =>
            {| trace := t ++ t'; cache := s2; result := r |}
        end
    | {| trace := t; cache := s1; result := inr a |} =>
        {| trace := t; cache := s1; result := inr a |}
    end.

Definition emit (ev : Event) : M unit :=
  fun s => {| trace := [ev]; cache := s; result := inr tt |}.

Definition readCache : M Cache :=
  fun s => {| trace := []; cache := s; result := inr s |}.

Definition writeCache (s' : Cache) : M unit :=
  fun _ => {| trace := []; cache := s'; result := inr tt |}.

Definition when (b : bool) (m : M unit) : M unit := if b then m else ret tt.

Notation "'let*' x ':=' m 'in' k" := (bind m (fun x => k))
  (at level 10, x name, m at level 100, k at level 200).
Notation "m '>>' k" := (bind m (fun _ => k))
  (at level 90, right associativity).

(** Assignments to the two closure variables. *)
Definition set_nc (n : Z) : M unit :=
  let* s := readCache in
  writeCache {| nc := n; cachedChallenge := cachedChallenge s |}.

Definition set_cachedChallenge (c : option DigestChallenge) : M unit :=
  let* s := readCache in
  writeCache {| nc := nc s; cachedChallenge := c |}.

(** The default [validateStatus] of axios. *)
Definition defaultValidateStatus (st : Z) : bool := (200 <=? st) && (st <? 300).

(** A request through axios, once it is on the wire: the promise resolves
    with the response when [validateStatus] accepts the status and rejects
    with an [AxiosError] carrying the response otherwise; a transport failure
    rejects with an [AxiosError] without a response. *)
Definition settle (cfg : AxiosRequestConfig) (o : HttpOutcome) : M AxiosResponse :=
  match o with
  | NetworkError => throw (AxiosError None)
  | HttpResponse st h =>
      let r := {| status := st; www_authenticate := h |} in
      if default defaultValidateStatus (validateStatus cfg) st
      then ret r else throw (AxiosError (Some r))
  end.

(** The network as one call sees it: the answer to each request put on the
    wire. *)
Definition Network := AxiosRequestConfig -> HttpOutcome.

(** [axios.request(cfg)] of the challenge acquisition. *)
Definition axios_request (net : Network) (cfg : AxiosRequestConfig) : M AxiosResponse :=
  emit (Probe cfg) >> settle cfg (net cfg).

(** The adapter sending the intercepted request. *)
Definition dispatchRequest (net : Network) (cfg : AxiosRequestConfig) : M AxiosResponse :=
  emit (Dispatch cfg) >> settle cfg (net cfg).

(** [hashFunction] of [calculateDigestResponse]. *)
Definition hashFunction (rt : Runtime) (algorithm : string) (data : string) : M string :=
  match createHash rt (Js.toLowerCase algorithm) with
  | Some h => ret (h data)
  | None => throw (UnknownDigest (Js.toLowerCase algorithm))
  end.

(** The regular expression of the fallback in the first copy: [http], an
    optional [s], [://] and one or more characters other than a slash, all
    at the start and without regard to case.  [None] when it does not
    match, else what follows the match. *)
Definition stripOrigin (u : string) : option string :=
  let l := Js.toLowerCase u in
  let after :=
    if Js.startsWith l "https://" then Some (Js.substring 8 u)
    else if Js.startsWith l "http://" then Some (Js.substring 7 u)
    else None in
  match after with
  | Some r =>
      match Regex.span (fun c => negb (Ascii.eqb c "/")) r with
      | (String _ _, r') => Some r'
      | _ => None
      end
  | None => None
  end.

(** [u.replace(re, '')] with that expression. *)
Definition replaceOrigin (u : string) : string := default u (stripOrigin u).

(** [requestConfig.method?.toUpperCase() || "GET"] *)
Definition methodOf (requestConfig : AxiosRequestConfig) : string :=
  Js.orElse (option_map Js.toUpperCase (method requestConfig)) "GET".

(** The header store of axios compares names without regard to case:
    [findKey] gives the name under which the store holds a header already,
    [get] reads through that name, and [set] writes through it, or under the
    name it is given when the store has none.  A store filled through these
    methods holds a header under one name only; should it hold one under two
    names, axios takes the name added last and the model, whose maps keep no
    order, the first of the names in the order of the map. *)
Definition isAuthorization (name : string) : bool :=
  String.eqb (Js.toLowerCase name) "authorization".

Definition findAuthorization (h : gmap string string) : option string :=
  head (List.filter isAuthorization (elements (dom h))).

(** [headers.get('Authorization')] *)
Definition getAuthorization (h : gmap string string) : option string :=
  match findAuthorization h with
  | Some name => h !! name
  | None => None
  end.

(** The name [set] writes under. *)
Definition authorizationName (h : gmap string string) : string :=
  match findAuthorization h with
  | Some name => name
  | None => "Authorization"
  end.

(** [requestConfig.headers.set('Authorization', authValue)], on a fresh
    [AxiosHeaders] when the request has none. *)
Definition setAuthorization (requestConfig : AxiosRequestConfig) (authValue : string)
  : AxiosRequestConfig :=
  {| method := method requestConfig; url := url requestConfig;
     baseURL := baseURL requestConfig;
     headers :=
       Some (<[authorizationName (default ∅ (headers requestConfig)) := authValue]>
               (default ∅ (headers requestConfig)));
     maxRedirects := maxRedirects requestConfig;
     validateStatus := validateStatus requestConfig;
     timeout := timeout requestConfig |}.

(** The configuration of the unauthenticated probe (lines 110-117 and
    324-331). *)
Definition probeConfig (requestConfig : AxiosRequestConfig) : AxiosRequestConfig :=
  {| method := method requestConfig; url := url requestConfig;
     baseURL := baseURL requestConfig;
     headers := None;
     maxRedirects := Some 0;
     validateStatus := Some (fun st => st =? 401);
     timeout := Some 5000 |}.

(** The first five directives and the three optional groups of the
    [Authorization] value, as the template strings build them. *)
Definition authBase (username : string) (c : DigestChallenge) (uri digestResponse : string)
  : string :=
  "Digest username=" ++ Js.quoted username ++ ", realm=" ++ Js.quoted (realm c)
  ++ ", nonce=" ++ Js.quoted (nonce c) ++ ", uri=" ++ Js.quoted uri
  ++ ", response=" ++ Js.quoted digestResponse.

Definition authQop (c : DigestChallenge) (ncValue cnonce : string) : string :=
  if Js.truthy (qop c)
  then ", qop=" ++ default "" (qop c) ++ ", nc=" ++ ncValue ++ ", cnonce=" ++ Js.quoted cnonce
  else "".

Definition authOpaque (c : DigestChallenge) : string :=
  if Js.truthy (opaque c) then ", opaque=" ++ Js.quoted (default "" (opaque c)) else "".

Definition authAlgorithm (c : DigestChallenge) : string :=
  if Js.truthy (algorithm c) then ", algorithm=" ++ default "" (algorithm c) else "".

(** The response base of [calculateDigestResponse] (lines 84-89 and
    300-305). *)
Definition responseBase (c : DigestChallenge) (ha1 ha2 ncFormatted cnonce : string) : string :=
  if Js.truthy (qop c)
  then ha1 ++ ":" ++ nonce c ++ ":" ++ ncFormatted ++ ":" ++ cnonce ++ ":"
       ++ default "" (qop c) ++ ":" ++ ha2
  else ha1 ++ ":" ++ nonce c ++ ":" ++ ha2.

(** The error handler of the response interceptor (lines 214-225 and
    432-443, identical): [error.response && error.response.status === 401
    && cachedChallenge]. *)
Definition responseOf (error : Error) : option AxiosResponse :=
  match error with
  | AxiosError r => r
  | _ => None
  end.

Definition is401 (error : Error) : bool :=
  match responseOf error with
  | Some r => status r =? 401
  | None => false
  end.

Definition responseRejected {A} (error : Error) : M A :=
  let* s := readCache in
  when (is401 error && bool_decide (is_Some (cachedChallenge s)))
    (emit (ConsoleLog [LText "Auth failed with 401, clearing cached challenge"]) >>
     set_cachedChallenge None >>
     set_nc 0) >>
  throw error.

(** Challenge acquisition: the first branch of the request interceptor,
    lines 108-143 and 322-358.  The two copies differ in one place, the text
    they hand to the parser: [challengeText] of the header value. *)
Definition acquireWith (challengeText : string -> string)
    (net : Network) (requestConfig : AxiosRequestConfig) : M unit :=
  emit (ConsoleLog [LText "Requesting new digest challenge..."]) >>
  let* initialResponse := axios_request net (probeConfig requestConfig) in
  when (negb (status initialResponse =? 401))
    (throw (Expected401 (status initialResponse))) >>
  let authHeader := default "" (www_authenticate initialResponse) in
  when (negb (Js.truthy (www_authenticate initialResponse)))
    (throw MissingWWWAuthenticate) >>
  when (negb (Js.includes (Js.toLowerCase authHeader) "digest "))
    (throw (InvalidAuthenticationType authHeader)) >>
  let challenge := parseDigestChallenge (challengeText authHeader) in
  set_cachedChallenge (Some challenge) >>
  emit (ConsoleLog [LText "Desafio analisado:"; LChallenge challenge]) >>
  when (negb (Js.truthyStr (realm challenge)) || negb (Js.truthyStr (nonce challenge)))
    (throw (InvalidDigestChallenge challenge)) >>
  set_nc 1.

(** The [catch] of the request interceptor, lines 205-208 and 423-426. *)
Definition rethrow {A} (error : Error) : M A :=
  emit (ConsoleError [LText "Digest auth error:"; LError error]) >>
  throw error.

(** The state right after [createDigestAuth]. *)
Definition createDigestAuth : Cache := {| nc := 0; cachedChallenge := None |}.

(** ** First copy (lines 1-228): fixed MD5, debug log, ceiling 99 *)

Module Copy1.
Section Engine.

Variable rt : Runtime.

(** The nonce count above which a new challenge is requested (line 107). *)
Definition ceiling : Z := 99.

(** [calculateDigestResponse], lines 52-92. *)
Definition calculateDigestResponse
    (username password : string) (challenge : DigestChallenge) (nc : Z)
    (cnonce method uri : string) : M string :=
  let algorithm := "MD5" in
  let* ha1 := hashFunction rt algorithm
                (username ++ ":" ++ realm challenge ++ ":" ++ password) in
  let* ha2 := hashFunction rt algorithm (method ++ ":" ++ uri) in
  let ncFormatted := formatNonceCount nc in
  emit (ConsoleLog
          [ LText "Digest calculation values:";
            LObject [ ("username", username); ("realm", realm challenge);
                      ("method", method); ("uri", uri);
                      ("nonce", nonce challenge); ("nc", ncFormatted);
                      ("cnonce", cnonce); ("qop", Js.orElse (qop challenge) "none");
                      ("ha1", ha1); ("ha2", ha2) ] ]) >>
  hashFunction rt algorithm (responseBase challenge ha1 ha2 ncFormatted cnonce).

(** The request URI, lines 150-168. *)
Definition requestURI (requestConfig : AxiosRequestConfig) : string :=
  if match url requestConfig with Some u => Js.startsWith u "http" | None => false end then
    let u := default "" (url requestConfig) in
    match newURL rt u None with
    | Some (pathname, search) => pathname ++ search
    | None => replaceOrigin u
    end
  else if Js.truthy (baseURL requestConfig) && Js.truthy (url requestConfig) then
    let u := default "" (url requestConfig) in
    match newURL rt u (baseURL requestConfig) with
    | Some (pathname, search) => pathname ++ search
    | None => u
    end
  else Js.orElse (url requestConfig) "".

(** Line 135: the text after the first [digest ] of the header. *)
Definition digestPart (authHeader : string) : string :=
  Js.substring (default O (Js.indexOf (Js.toLowerCase authHeader) "digest ") + 7)
    authHeader.

(** Challenge acquisition, the first branch of lines 107-146. *)
Definition acquire : Network -> AxiosRequestConfig -> M unit :=
  acquireWith digestPart.

(** From the client nonce to the header, lines 148-204.  [cnonce] is the
    value of [crypto.randomBytes(8).toString("hex")] in this call. *)
Definition authorize
    (config : DigestAuthConfig) (cnonce : string)
    (requestConfig : AxiosRequestConfig) : M AxiosRequestConfig :=
  let uri := requestURI requestConfig in
  let* s := readCache in
  match cachedChallenge s with
  | None => throw NoValidDigestChallenge
  | Some challenge =>
      let ncValue := formatNonceCount (nc s) in
      let method := methodOf requestConfig in
      let* digestResponse :=
        calculateDigestResponse (username config) (password config)
          challenge (nc s) cnonce method uri in
      let authValue :=
        authBase (username config) challenge uri digestResponse
        ++ authQop challenge ncValue cnonce
        ++ authOpaque challenge in
      emit (ConsoleLog [LText "Using auth header:"; LText authValue]) >>
      ret (setAuthorization requestConfig authValue)
  end.

(** The request interceptor, lines 104-209. *)
Definition requestInterceptor
    (config : DigestAuthConfig) (net : Network) (cnonce : string)
    (requestConfig : AxiosRequestConfig) : M AxiosRequestConfig :=
  tryCatch
    (let* s := readCache in
     (if negb (bool_decide (is_Some (cachedChallenge s))) || (ceiling <? nc s)
      then acquire net requestConfig
      else set_nc (nc s + 1)) >>
     authorize config cnonce requestConfig)
    rethrow.

(** A call of the axios instance: the request interceptor, the adapter,
    then the response interceptor, whose error handler also sees what the
    request interceptor throws.  [probeNet] answers the probe and [net] the
    intercepted request. *)
Definition perform
    (config : DigestAuthConfig) (probeNet net : Network) (cnonce : string)
    (requestConfig : AxiosRequestConfig) : M AxiosResponse :=
  tryCatch
    (let* cfg := requestInterceptor config probeNet cnonce requestConfig in
     dispatchRequest net cfg)
    responseRejected.

End Engine.
End Copy1.

(** ** Second copy (lines 229-446): algorithm of the challenge, ceiling 9999 *)

Module Copy2.
Section Engine.

Variable rt : Runtime.

(** The nonce count above which a new challenge is requested (line 321). *)
Definition ceiling : Z := 9999.

(** [calculateDigestResponse], lines 283-308. *)
Definition calculateDigestResponse
    (username password : string) (challenge : DigestChallenge) (nc : Z)
    (cnonce method uri : string) : M string :=
  let algorithm := Js.orElse (algorithm challenge) "MD5" in
  let* ha1 := hashFunction rt algorithm
                (username ++ ":" ++ realm challenge ++ ":" ++ password) in
  let* ha2 := hashFunction rt algorithm (method ++ ":" ++ uri) in
  let ncFormatted := formatNonceCount nc in
  hashFunction rt algorithm (responseBase challenge ha1 ha2 ncFormatted cnonce).

(** The request URI, lines 366-377: the parsed path and query, or the
    caller's string and a warning when [new URL] throws. *)
Definition requestURI (requestConfig : AxiosRequestConfig) : M string :=
  let urlString := Js.orElse (url requestConfig) "" in
  match newURL rt urlString (baseURL requestConfig) with
  | Some (pathname, search) => ret (pathname ++ search)
  | None =>
      emit (ConsoleWarn [LText "Failed to parse URL, using original:"; LText urlString]) >>
      ret urlString
  end.

(** Challenge acquisition, the first branch of lines 321-361.  The whole
    header value goes to the parser (line 350). *)
Definition acquire : Network -> AxiosRequestConfig -> M unit :=
  acquireWith (fun authHeader => authHeader).

(** From the client nonce to the header, lines 363-422. *)
Definition authorize
    (config : DigestAuthConfig) (cnonce : string)
    (requestConfig : AxiosRequestConfig) : M AxiosRequestConfig :=
  let* uri := requestURI requestConfig in
  let* s := readCache in
  match cachedChallenge s with
  | None => throw NoValidDigestChallenge
  | Some challenge =>
      let ncValue := formatNonceCount (nc s) in
      let* digestResponse :=
        calculateDigestResponse (username config) (password config)
          challenge (nc s) cnonce (methodOf requestConfig) uri in
      let authValue :=
        authBase (username config) challenge uri digestResponse
        ++ authQop challenge ncValue cnonce
        ++ authOpaque challenge
        ++ authAlgorithm challenge in
      emit (ConsoleLog [LText "Using auth header:"; LText authValue]) >>
      ret (setAuthorization requestConfig authValue)
  end.

(** The request interceptor, lines 318-427. *)
Definition requestInterceptor
    (config : DigestAuthConfig) (net : Network) (cnonce : string)
    (requestConfig : AxiosRequestConfig) : M AxiosRequestConfig :=
  tryCatch
    (let* s := readCache in
     (if negb (bool_decide (is_Some (cachedChallenge s))) || (ceiling <? nc s)
      then acquire net requestConfig
      else set_nc (nc s + 1)) >>
     authorize config cnonce requestConfig)
    rethrow.

Definition perform
    (config : DigestAuthConfig) (probeNet net : Network) (cnonce : string)
    (requestConfig : AxiosRequestConfig) : M AxiosResponse :=
  tryCatch
    (let* cfg := requestInterceptor config probeNet cnonce requestConfig in
     dispatchRequest net cfg)
    responseRejected.

End Engine.
End Copy2.

(** ** Notions the statements below need *)

Module Spec.

(** A lowercase hexadecimal digit and its value. *)
Definition isLowerHex (c : ascii) : bool :=
  let n := Js.code c in
  ((48 <=? n) && (n <=? 57)) || ((97 <=? n) && (n <=? 102)).

Definition digitValue (c : ascii) : Z :=
  let n := Js.code c in
  if n <=? 57 then n - 48 else n - 87.

Fixpoint allLowerHex (s : string) : bool :=
  match s with
  | EmptyString => true
  | String c r => isLowerHex c && allLowerHex r
  end.

(** The number a string of hexadecimal digits denotes. *)
Fixpoint hexValue (s : string) : Z :=
  match s with
  | EmptyString => 0
  | String c r => digitValue c * 16 ^ Z.of_nat (String.length r) + hexValue r
  end.

(** The two forms of the response of section 4.2, over a hash function. *)
Definition HA1 (hash : string -> string) (username realm password : string) : string :=
  hash (username ++ ":" ++ realm ++ ":" ++ password).

Definition HA2 (hash : string -> string) (method uri : string) : string :=
  hash (method ++ ":" ++ uri).

Definition sixTerms (hash : string -> string)
    (ha1 nonce ncFormatted cnonce qop ha2 : string) : string :=
  hash (ha1 ++ ":" ++ nonce ++ ":" ++ ncFormatted ++ ":" ++ cnonce ++ ":" ++ qop
        ++ ":" ++ ha2).

Definition threeTerms (hash : string -> string) (ha1 nonce ha2 : string) : string :=
  hash (ha1 ++ ":" ++ nonce ++ ":" ++ ha2).

(** The algorithm section 4.2 selects when an empty field counts as absent. *)
Definition selectedAlgorithm (c : DigestChallenge) : string :=
  match algorithm c with
  | Some a => if String.eqb a "" then "MD5" else a
  | None => "MD5"
  end.

(** A directive of the [Authorization] value: its name, its value, and
    whether the value stands between double quotes. *)
Record Directive := { dname : string; dvalue : string; dquoted : bool }.

Definition quotedDirective (n v : string) : Directive :=
  {| dname := n; dvalue := v; dquoted := true |}.

Definition bareDirective (n v : string) : Directive :=
  {| dname := n; dvalue := v; dquoted := false |}.

Definition show (d : Directive) : string :=
  dname d ++ "=" ++ (if dquoted d then Js.quoted (dvalue d) else dvalue d).

Fixpoint join (sep : string) (l : list string) : string :=
  match l with
  | [] => ""
  | [x] => x
  | x :: r => x ++ sep ++ join sep r
  end.

(** The header value that lists [ds] in order. *)
Definition render (ds : list Directive) : string :=
  "Digest " ++ join ", " (map show ds).

(** The directives that go with an optional field: none when the field is
    absent or empty. *)
Definition whenSet (o : option string) (f : string -> list Directive) : list Directive :=
  match o with
  | Some v => if String.eqb v "" then [] else f v
  | None => []
  end.

(** The directives of section 4.4, step 6, in their order; [withAlgorithm]
    says whether the [algorithm] directive is part of the list. *)
Definition directives (withAlgorithm : bool) (username : string) (c : DigestChallenge)
    (uri response ncFormatted cnonce : string) : list Directive :=
  [ quotedDirective "username" username; quotedDirective "realm" (realm c);
    quotedDirective "nonce" (nonce c); quotedDirective "uri" uri;
    quotedDirective "response" response ]
  ++ whenSet (qop c)
       (fun v => [ bareDirective "qop" v; bareDirective "nc" ncFormatted;
                   quotedDirective "cnonce" cnonce ])
  ++ whenSet (opaque c) (fun v => [ quotedDirective "opaque" v ])
  ++ (if withAlgorithm
      then whenSet (algorithm c) (fun v => [ bareDirective "algorithm" v ])
      else []).

(** The scheme of section 4.1 of the specification: the header value leads
    with a token that matches [Digest ] without regard to case. *)
Definition identifiesDigest (authHeader : string) : bool :=
  Js.startsWith (Js.toLowerCase authHeader) "digest ".

(** A URI that starts with a scheme and an authority: a letter, then
    letters, digits, [+], [-] or [.], then [://]. *)
Definition isSchemeChar (c : ascii) : bool :=
  let n := Js.code c in
  Regex.isWord c && negb (n =? 95) || (n =? 43) || (n =? 45) || (n =? 46).

Definition hasScheme (uri : string) : bool :=
  match Regex.span isSchemeChar uri with
  | (String c _, r) =>
      negb ((48 <=? Js.code c) && (Js.code c <=? 57)) && Js.startsWith r "://"
  | _ => false
  end.

(** Non-empty and not made of white space only. *)
Definition isSpace (c : ascii) : bool :=
  let n := Js.code c in
  (n =? 32) || ((9 <=? n) && (n <=? 13)) || (n =? 160).

Fixpoint allSpace (s : string) : bool :=
  match s with
  | EmptyString => true
  | String c r => isSpace c && allSpace r
  end.

Definition nonBlank (s : string) : bool := negb (allSpace s).

(** The texts handed to the console in a run: every string argument, the
    values of a logged object and the fields of a logged challenge. *)
Definition textsOfArg (a : LogArg) : list string :=
  match a with
  | LText s => [s]
  | LObject fields => map snd fields
  | LChallenge c =>
      [realm c; nonce c] ++ option_list (qop c) ++ option_list (opaque c)
      ++ option_list (algorithm c)
  | LError _ => []
  end.

Definition textsOfEvent (ev : Event) : list string :=
  match ev with
  | ConsoleLog args | ConsoleWarn args | ConsoleError args => concat (map textsOfArg args)
  | _ => []
  end.

Definition logged (tr : list Event) : list string := concat (map textsOfEvent tr).

(** [v] reaches the console, alone or inside a longer text. *)
Definition emitted (v : string) (tr : list Event) : bool :=
  existsb (fun t => Js.includes t v) (logged tr).

Definition isProbe (ev : Event) : bool :=
  match ev with Probe _ => true | _ => false end.

Definition isDispatch (ev : Event) : bool :=
  match ev with Dispatch _ => true | _ => false end.

Definition probes (tr : list Event) : nat := List.length (List.filter isProbe tr).
Definition dispatches (tr : list Event) : nat := List.length (List.filter isDispatch tr).

(** The probe of [requestConfig] is answered with status 401 and a header
    that mentions [digest ] and from which [challengeText] and the parser
    get [c], with a realm and a nonce. *)
Definition offers (net : Network) (requestConfig : AxiosRequestConfig)
    (challengeText : string -> string) (c : DigestChallenge) : Prop :=
  exists h,
    net (probeConfig requestConfig) = HttpResponse 401 (Some h)
    /\ Js.includes (Js.toLowerCase h) "digest " = true
    /\ c = parseDigestChallenge (challengeText h)
    /\ realm c <> "" /\ nonce c <> "".

(** The [Authorization] value of every request put on the wire in a run:
    what the request holds under that name, in any capitals. *)
Definition authorizationOf (cfg : AxiosRequestConfig) : option string :=
  match headers cfg with
  | Some h => getAuthorization h
  | None => None
  end.

Definition sentAuthorization (ev : Event) : option string :=
  match ev with
  | Probe cfg | Dispatch cfg => authorizationOf cfg
  | _ => None
  end.

Definition authorizationsSent (tr : list Event) : list string :=
  omap sentAuthorization tr.

(** The [Authorization] value of the request a run returns. *)
Definition authorizationIn (o : Outcome AxiosRequestConfig) : option string :=
  match result o with
  | inr cfg => authorizationOf cfg
  | inl _ => None
  end.

End Spec.

(** ** A runtime to run the engine on

    MD5 only, and the part of the URL parser that covers [http] and [https]
    URLs without credentials, dot segments or characters that need
    escaping: enough for the examples below, which are the only users. *)

Module Sample.

Definition md5Only (name : string) : option (string -> string) :=
  if String.eqb name "md5" then Some MD5.hex else None.

Definition isDelim (c : ascii) : bool :=
  Ascii.eqb c "/" || Ascii.eqb c "?" || Ascii.eqb c "#".

(** Path and query of what follows the authority. *)
Definition pathAndSearch (r : string) : string * string :=
  let '(path, r1) := Regex.span (fun c => negb (Ascii.eqb c "?" || Ascii.eqb c "#")) r in
  let '(query, _) := Regex.span (fun c => negb (Ascii.eqb c "#")) r1 in
  (if Js.truthyStr path then path else "/",
   if String.eqb query "?" then "" else query).

(** The port of an authority, when it has one, is a decimal number up to
    65535; the parser throws on any other. *)
Fixpoint decimal (acc : Z) (s : string) : option Z :=
  match s with
  | EmptyString => Some acc
  | String c r =>
      if (48 <=? Js.code c) && (Js.code c <=? 57)
      then decimal (10 * acc + (Js.code c - 48)) r
      else None
  end.

Definition portInRange (authority : string) : bool :=
  match Regex.span (fun c => negb (Ascii.eqb c ":")) authority with
  | (_, String _ port) =>
      match decimal 0 port with
      | Some n => n <=? 65535
      | None => false
      end
  | _ => true
  end.

Definition absolute (u : string) : option (string * string) :=
  let l := Js.toLowerCase u in
  let after :=
    if Js.startsWith l "https://" then Some (Js.substring 8 u)
    else if Js.startsWith l "http://" then Some (Js.substring 7 u)
    else None in
  match after with
  | Some r =>
      match Regex.span (fun c => negb (isDelim c)) r with
      | (String a0 a, r') =>
          if portInRange (String a0 a) then Some (pathAndSearch r') else None
      | _ => None
      end
  | None => None
  end.

Definition parseURL (u : string) (base : option string) : option (string * string) :=
  match absolute u with
  | Some r => Some r
  | None =>
      match base with
      | Some b =>
          match absolute b with
          | Some _ => if Js.startsWith u "/" && negb (Js.startsWith u "//")
                      then Some (pathAndSearch u) else None
          | None => None
          end
      | None => None
      end
  end.

Definition runtime : Runtime := {| createHash := md5Only; newURL := parseURL |}.

Definition admin : DigestAuthConfig := {| username := "admin"; password := "secret" |}.

Definition request (m u : string) (base : option string) : AxiosRequestConfig :=
  {| method := Some m; url := Some u; baseURL := base; headers := None;
     maxRedirects := None; validateStatus := None; timeout := None |}.

(** The inputs of section 8 of the specification. *)
Definition doorURI : string := "/AccessControl/RemoteControl/door/1".

Definition challengeWith (q a : option string) : DigestChallenge :=
  {| realm := "example"; nonce := "abc123"; qop := q; opaque := None; algorithm := a |}.

Definition withAuth : DigestChallenge := challengeWith (Some "auth") None.
Definition emptyQop : DigestChallenge := challengeWith (Some "") None.
Definition emptyAlgorithm : DigestChallenge := challengeWith (Some "auth") (Some "").
Definition sha256 : DigestChallenge := challengeWith (Some "auth") (Some "SHA-256").

(** Challenge headers: every directive; an empty [qop]; a blank realm; a
    header of the Basic scheme that mentions [digest ] further on. *)
Definition fullHeader : string :=
  "Digest realm=" ++ Js.quoted "example" ++ ", nonce=" ++ Js.quoted "abc123"
  ++ ", qop=" ++ Js.quoted "auth" ++ ", opaque=" ++ Js.quoted "5ccc"
  ++ ", algorithm=MD5".

Definition fullChallenge : DigestChallenge :=
  {| realm := "example"; nonce := "abc123"; qop := Some "auth";
     opaque := Some "5ccc"; algorithm := Some "MD5" |}.

Definition emptyQopHeader : string :=
  "Digest realm=" ++ Js.quoted "example" ++ ", nonce=" ++ Js.quoted "abc123"
  ++ ", qop=" ++ Js.quoted "".

Definition blankRealmHeader : string :=
  "Digest realm=" ++ Js.quoted " " ++ ", nonce=" ++ Js.quoted "abc123".

Definition blankRealm : DigestChallenge :=
  {| realm := " "; nonce := "abc123"; qop := None; opaque := None; algorithm := None |}.

Definition noNonceHeader : string := "Digest realm=" ++ Js.quoted "example".

Definition noNonce : DigestChallenge :=
  {| realm := "example"; nonce := ""; qop := None; opaque := None; algorithm := None |}.

Definition basicHeader : string :=
  "Basic x=" ++ Js.quoted "digest " ++ ", realm=" ++ Js.quoted "example"
  ++ ", nonce=" ++ Js.quoted "abc123".

Definition basicChallenge : DigestChallenge :=
  {| realm := "example"; nonce := "abc123"; qop := None; opaque := None;
     algorithm := None |}.

(** The request of the door client, and the same request with the path
    relative to a base URL. *)
Definition doorRequest : AxiosRequestConfig :=
  request "PUT" "http://device/AccessControl/RemoteControl/door/1" None.

Definition relativeRequest : AxiosRequestConfig :=
  request "PUT" doorURI (Some "http://device").

(** An absolute URL whose scheme is written in capitals. *)
Definition capitalsRequest : AxiosRequestConfig :=
  request "PUT" "HTTP://device:8080/door/1" None.


(** The door request of a caller who takes every status for a success. *)
Definition lenientRequest : AxiosRequestConfig :=
  {| method := Some "PUT";
     url := Some "http://device/AccessControl/RemoteControl/door/1";
     baseURL := None; headers := None; maxRedirects := None;
     validateStatus := Some (fun _ => true); timeout := None |}.

(** A device that challenges every request without credentials and accepts
    every request with them. *)
Definition device (challengeHeader : string) : Network :=
  fun cfg =>
    match Spec.authorizationOf cfg with
    | Some _ => HttpResponse 200 None
    | None => HttpResponse 401 (Some challengeHeader)
    end.

(** A runtime whose digests tell nothing apart: every input hashes to the
    same text. *)
Definition flatRuntime : Runtime :=
  {| createHash := fun _ => Some (fun _ => "0"); newURL := parseURL |}.

(** An empty cache that has counted before, to tell it from a fresh one. *)
Definition emptied : Cache := {| nc := 7; cachedChallenge := None |}.

(** A device that answers every request with the same status and header. *)
Definition always (st : Z) (h : option string) : Network :=
  fun _ => HttpResponse st h.

End Sample.

(** ** Names for what a run yields *)

Definition requestingChallenge : Event :=
  ConsoleLog [LText "Requesting new digest challenge..."].

Definition digestAuthError (e : Error) : Event :=
  ConsoleError [LText "Digest auth error:"; LError e].

Definition usingAuthHeader (authValue : string) : Event :=
  ConsoleLog [LText "Using auth header:"; LText authValue].

(** The test that sends a request to the acquisition: no challenge, or a
    count above the ceiling. *)
Definition over (ceiling : Z) (s : Cache) : bool :=
  negb (bool_decide (is_Some (cachedChallenge s))) || (ceiling <? nc s).

Section CalculatorYield.

Variables (username password : string) (challenge : DigestChallenge) (nc : Z).
Variables (cnonce method uri : string).

(** What [calculateDigestResponse] returns when the digest is [hash]. *)
Definition digestWith (hash : string -> string) : string :=
  hash (responseBase challenge
          (hash (username ++ ":" ++ realm challenge ++ ":" ++ password))
          (hash (method ++ ":" ++ uri)) (formatNonceCount nc) cnonce).

(** The debug message of the first copy. *)
Definition calculationValues (hash : string -> string) : Event :=
  ConsoleLog
    [ LText "Digest calculation values:";
      LObject [ ("username", username); ("realm", realm challenge);
                ("method", method); ("uri", uri);
                ("nonce", nonce challenge); ("nc", formatNonceCount nc);
                ("cnonce", cnonce); ("qop", Js.orElse (qop challenge) "none");
                ("ha1", hash (username ++ ":" ++ realm challenge ++ ":" ++ password));
                ("ha2", hash (method ++ ":" ++ uri)) ] ].

End CalculatorYield.

Section HeaderYield.

Variable rt : Runtime.
Variable config : DigestAuthConfig.
Variable cnonce : string.
Variable requestConfig : AxiosRequestConfig.

(** The [Authorization] value each copy assembles from a response hash. *)
Definition authValue1 (c : DigestChallenge) (n : Z) (uri digestResponse : string) : string :=
  authBase (username config) c uri digestResponse
  ++ authQop c (formatNonceCount n) cnonce ++ authOpaque c.

Definition authValue2 (c : DigestChallenge) (n : Z) (uri digestResponse : string) : string :=
  authBase (username config) c uri digestResponse
  ++ authQop c (formatNonceCount n) cnonce ++ authOpaque c ++ authAlgorithm c.

(** The second copy's URI and the warning that comes with the fallback. *)
Definition uri2 : string :=
  match newURL rt (Js.orElse (url requestConfig) "") (baseURL requestConfig) with
  | Some (pathname, search) => pathname ++ search
  | None => Js.orElse (url requestConfig) ""
  end.

Definition uriWarning : list Event :=
  match newURL rt (Js.orElse (url requestConfig) "") (baseURL requestConfig) with
  | Some _ => []
  | None => [ConsoleWarn [LText "Failed to parse URL, using original:";
                          LText (Js.orElse (url requestConfig) "")]]
  end.

End HeaderYield.

Section AcquisitionYield.

Variable challengeText : string -> string.
Variable net : Network.
Variable requestConfig : AxiosRequestConfig.
Variable s : Cache.

(** The six ways an acquisition can go, and nothing else. *)
Inductive AcquireCase : Outcome unit -> Prop :=
| CaseNetworkError :
    net (probeConfig requestConfig) = NetworkError ->
    AcquireCase {| trace := [requestingChallenge; Probe (probeConfig requestConfig)];
                   cache := s;
                   result := inl (AxiosError None) |}
| CaseRefused st h :
    net (probeConfig requestConfig) = HttpResponse st h -> st <> 401 ->
    AcquireCase {| trace := [requestingChallenge; Probe (probeConfig requestConfig)];
                   cache := s;
                   result := inl (AxiosError (Some {| status := st; www_authenticate := h |})) |}
| CaseMissing h :
    net (probeConfig requestConfig) = HttpResponse 401 h -> Js.truthy h = false ->
    AcquireCase {| trace := [requestingChallenge; Probe (probeConfig requestConfig)];
                   cache := s;
                   result := inl MissingWWWAuthenticate |}
| CaseOtherScheme h :
    net (probeConfig requestConfig) = HttpResponse 401 (Some h) ->
    Js.truthyStr h = true ->
    Js.includes (Js.toLowerCase h) "digest " = false ->
    AcquireCase {| trace := [requestingChallenge; Probe (probeConfig requestConfig)];
                   cache := s;
                   result := inl (InvalidAuthenticationType h) |}
| CaseInvalid h :
    net (probeConfig requestConfig) = HttpResponse 401 (Some h) ->
    Js.includes (Js.toLowerCase h) "digest " = true ->
    Js.truthyStr (realm (parseDigestChallenge (challengeText h)))
    && Js.truthyStr (nonce (parseDigestChallenge (challengeText h))) = false ->
    AcquireCase
      {| trace := [requestingChallenge; Probe (probeConfig requestConfig);
                   ConsoleLog [LText "Desafio analisado:";
                               LChallenge (parseDigestChallenge (challengeText h))]];
         cache := {| nc := nc s;
                     cachedChallenge := Some (parseDigestChallenge (challengeText h)) |};
         result := inl (InvalidDigestChallenge (parseDigestChallenge (challengeText h))) |}
| CaseInstalled h :
    net (probeConfig requestConfig) = HttpResponse 401 (Some h) ->
    Js.includes (Js.toLowerCase h) "digest " = true ->
    Js.truthyStr (realm (parseDigestChallenge (challengeText h)))
    && Js.truthyStr (nonce (parseDigestChallenge (challengeText h))) = true ->
    AcquireCase
      {| trace := [requestingChallenge; Probe (probeConfig requestConfig);
                   ConsoleLog [LText "Desafio analisado:";
                               LChallenge (parseDigestChallenge (challengeText h))]];
         cache := {| nc := 1;
                     cachedChallenge := Some (parseDigestChallenge (challengeText h)) |};
         result := inr tt |}.

End AcquisitionYield.

(** ** Challenge headers as a device writes them *)

Module Wire.

Fixpoint allChars (p : ascii -> bool) (s : string) : bool :=
  match s with
  | EmptyString => true
  | String c r => p c && allChars p r
  end.

(** A character other than the equals sign, and other than the slash. *)
Definition notEquals (c : ascii) : bool := negb (Ascii.eqb c "=").
Definition notSlash (c : ascii) : bool := negb (Ascii.eqb c "/").

(** A directive the regular expression reads back whole: a name of word
    characters, and a value without a double quote inside when it is
    written between quotes, or without a comma and not opening with a double
    quote when it is written bare. *)
Definition wellFormed (d : Spec.Directive) : bool :=
  Js.truthyStr (Spec.dname d) && allChars Regex.isWord (Spec.dname d)
  && (if Spec.dquoted d then allChars Regex.notQuote (Spec.dvalue d)
      else allChars Regex.notComma (Spec.dvalue d)
           && negb (Js.startsWith (Spec.dvalue d) Js.DQ)).

(** Directives separated by a comma and a space. *)
Definition directiveList (ds : list Spec.Directive) : string :=
  Spec.join ", " (map Spec.show ds).

(** What the [switch] of the parse loop does with a directive. *)
Definition assign (c : DigestChallenge) (d : Spec.Directive) : DigestChallenge :=
  assignDirective (Js.toLowerCase (Spec.dname d)) (Spec.dvalue d) c.

(** The names the [switch] has a case for. *)
Definition known (k : string) : bool :=
  existsb (String.eqb (Js.toLowerCase k)) ["realm"; "nonce"; "qop"; "opaque"; "algorithm"].

Definition optional (f : string -> Spec.Directive) (o : option string)
  : list Spec.Directive :=
  match o with Some v => [f v] | None => [] end.

(** The challenge [c] as RFC 2617 writes a challenge: quoted strings, and
    the algorithm as a token. *)
Definition directivesOf (c : DigestChallenge) : list Spec.Directive :=
  ([Spec.quotedDirective "realm" (realm c); Spec.quotedDirective "nonce" (nonce c)]
   ++ optional (Spec.quotedDirective "qop") (qop c)
   ++ optional (Spec.quotedDirective "opaque") (opaque c)
   ++ optional (Spec.bareDirective "algorithm") (algorithm c))%list.

Definition challengeHeader (c : DigestChallenge) : string :=
  Spec.render (directivesOf c).

Definition writable (c : DigestChallenge) : bool := forallb wellFormed (directivesOf c).

End Wire.

(** ** Calls one after the other *)

(** What one call of the instance depends on besides the cache: the answers
    to its probe and to its request, the client nonce drawn in it, and the
    request itself. *)
Record Call := {
  callProbe : Network;
  callWire : Network;
  callNonce : string;
  callRequest : AxiosRequestConfig
}.

Definition runCall {A}
    (engine : Network -> Network -> string -> AxiosRequestConfig -> M A) (k : Call) : M A :=
  engine (callProbe k) (callWire k) (callNonce k) (callRequest k).

(** The calls of a list on one instance, each awaited before the next
    starts and whatever its outcome: the events of all of them, and the
    cache at the end. *)
Fixpoint runCalls {A} (m : Call -> M A) (calls : list Call) (s : Cache)
  : list Event * Cache :=
  match calls with
  | [] => ([], s)
  | k :: rest =>
      let o := m k s in
      let '(t, s') := runCalls m rest (cache o) in
      ((trace o ++ t)%list, s')
  end.

(** The count is between 0 and one above the ceiling, and 0 when there is
    no challenge. *)
Definition counted (ceiling : Z) (s : Cache) : Prop :=
  0 <= nc s <= ceiling + 1 /\ (cachedChallenge s = None -> nc s = 0).

(** The device never answers 401 to a request that carries credentials. *)
Definition acceptsCredentials (net : Network) : Prop :=
  forall cfg h, is_Some (Spec.authorizationOf cfg) -> net cfg <> HttpResponse 401 h.

(** The request holds the [Authorization] header under one name at most,
    as every header store filled through the methods of axios does. *)
Definition namedOnce (cfg : AxiosRequestConfig) : Prop :=
  forall k k',
    isAuthorization k = true -> isAuthorization k' = true ->
    is_Some (default ∅ (headers cfg) !! k) ->
    is_Some (default ∅ (headers cfg) !! k') ->
    k = k'.

(** The [console.error] calls of a run. *)
Definition isConsoleError (ev : Event) : bool :=
  match ev with ConsoleError _ => true | _ => false end.

Definition consoleErrors (tr : list Event) : nat :=
  length (List.filter isConsoleError tr).

(** ** The door service

    [DoorControlClient.controlDoor] of the Fastify service (lines 489-514 of
    the source file).  The service imports [createDigestAuth] from a module
    named [./digest-auth]; either copy can stand behind that name, so the
    client is written over the [perform] of a copy.  The XML body and
    [response.data] have no counterpart in the request and response records:
    the engine neither reads nor changes them. *)

Module Door.

Record DoorControlClient := {
  baseUrl : string;
  username : string;
  password : string
}.

Definition Engine : Type :=
  DigestAuthConfig -> Network -> Network -> string -> AxiosRequestConfig
  -> M AxiosResponse.

(** The two template literals of lines 490 and 491.  [doorId] is the text
    the template prints for the number. *)
Definition doorURL (client : DoorControlClient) (doorId : string) : string :=
  baseUrl client ++ "/AccessControl/RemoteControl/door/" ++ doorId.

Definition xmlData (command : string) : string :=
  "<RemoteControlDoor><cmd>" ++ command ++ "</cmd></RemoteControlDoor>".

(** The request of lines 500-507, without its body. *)
Definition doorRequest (client : DoorControlClient) (doorId : string)
  : AxiosRequestConfig :=
  {| method := Some "PUT"; url := Some (doorURL client doorId); baseURL := None;
     headers := Some {[ "Content-Type" := "application/xml" ]};
     maxRedirects := None; validateStatus := None; timeout := None |}.

Definition controllingDoorError (error : Error) : Event :=
  ConsoleError [LText "Error controlling door:"; LError error].

(** One door command: a new instance of the engine, whose cache starts
    empty and is dropped with the instance, one request through it, and the
    [catch] that logs and throws again. *)
Definition controlDoor (perform : Engine) (client : DoorControlClient)
    (probeNet net : Network) (cnonce : string) (doorId command : string)
  : Outcome AxiosResponse :=
  tryCatch
    (perform (Build_DigestAuthConfig (username client) (password client))
       probeNet net cnonce (doorRequest client doorId))
    (fun error => emit (controllingDoorError error) >> throw error)
    createDigestAuth.

End Door.

(** * Properties *)

(** ** The model on known values *)

Example formatNonceCount_1 : formatNonceCount 1 = "00000001".
Proof. reflexivity. Qed.

Example formatNonceCount_255 : formatNonceCount 255 = "000000ff".
Proof. reflexivity. Qed.

Example formatNonceCount_big : formatNonceCount 4294967296 = "100000000".
Proof. reflexivity. Qed.

Example formatNonceCount_neg : formatNonceCount (-1) = "000000-1".
Proof. reflexivity. Qed.

Example parse_mixed :
  parseDigestChallenge
    ("realm=" ++ Js.quoted "example" ++ ", NONCE=" ++ Js.quoted "abc123"
     ++ ", qop=auth, opaque=" ++ Js.quoted "5ccc" ++ ", algorithm=MD5, stale=false")
  = {| realm := "example"; nonce := "abc123"; qop := Some "auth";
       opaque := Some "5ccc"; algorithm := Some "MD5" |}.
Proof. reflexivity. Qed.

Example parse_last_wins :
  parseDigestChallenge
    ("realm=" ++ Js.quoted "a" ++ ", realm=" ++ Js.quoted "b" ++ ", nonce=n")
  = {| realm := "b"; nonce := "n"; qop := None; opaque := None; algorithm := None |}.
Proof. reflexivity. Qed.

Example parse_unclosed_quote :
  parseDigestChallenge ("realm=" ++ Js.DQ ++ "a, nonce=n")
  = {| realm := Js.DQ ++ "a"; nonce := "n"; qop := None; opaque := None;
       algorithm := None |}.
Proof. reflexivity. Qed.

Example parse_missing_nonce :
  parseDigestChallenge ("realm=" ++ Js.quoted "a")
  = {| realm := "a"; nonce := ""; qop := None; opaque := None; algorithm := None |}.
Proof. reflexivity. Qed.

Example md5_empty : MD5.hex "" = "d41d8cd98f00b204e9800998ecf8427e".
Proof. vm_compute. reflexivity. Qed.

Example md5_abc : MD5.hex "abc" = "900150983cd24fb0d6963f7d28e17f72".
Proof. vm_compute. reflexivity. Qed.

Example md5_two_blocks :
  MD5.hex "12345678901234567890123456789012345678901234567890123456789012345678901234567890"
  = "57edf4a22be3c955ac49da2e2107b67a".
Proof. vm_compute. reflexivity. Qed.


(** ** The nonce count in hexadecimal *)

Section HexFormat.

Lemma hexDigit_cases (d : Z) :
  0 <= d < 16 ->
  Spec.digitValue (Js.hexDigit d) = d /\ Spec.isLowerHex (Js.hexDigit d) = true.
Proof.
  intros Hd.
  assert (Hcases : d = 0 \/ d = 1 \/ d = 2 \/ d = 3 \/ d = 4 \/ d = 5 \/ d = 6 \/ d = 7
                   \/ d = 8 \/ d = 9 \/ d = 10 \/ d = 11 \/ d = 12 \/ d = 13
                   \/ d = 14 \/ d = 15) by lia.
  repeat (destruct Hcases as [-> | Hcases]; [split; reflexivity |]).
  subst d. split; reflexivity.
Qed.

Lemma hexDigits_length (fuel : nat) :
  forall (k : nat) (n : Z) (acc : string),
    (1 <= k)%nat -> 0 <= n < 16 ^ Z.of_nat k ->
    (String.length (Js.hexDigits fuel n acc) <= k + String.length acc)%nat.
Proof.
  induction fuel as [| f IH]; intros k n acc Hk Hn; simpl.
  - lia.
  - destruct (Z.eqb_spec (n / 16) 0) as [Hq | Hq]; simpl.
    + lia.
    + assert (Hpos : 0 < n / 16) by (pose proof (Z.div_pos n 16); lia).
      destruct k as [| [| k']]; [lia | |].
      * change (16 ^ Z.of_nat 1) with 16 in Hn.
        rewrite Z.div_small in Hpos by lia. lia.
      * specialize (IH (S k') (n / 16) (String (Js.hexDigit (n mod 16)) acc)).
        simpl in IH.
        assert (Hlt : 0 <= n / 16 < 16 ^ Z.of_nat (S k')).
        { split; [lia |]. apply Z.div_lt_upper_bound; [lia |].
          replace (Z.of_nat (S (S k'))) with (Z.succ (Z.of_nat (S k'))) in Hn by lia.
          rewrite Z.pow_succ_r in Hn by lia. lia. }
        specialize (IH ltac:(lia) Hlt). lia.
Qed.

Lemma hexDigits_value (fuel : nat) :
  forall (n : Z) (acc : string),
    0 <= n < 16 ^ Z.of_nat fuel ->
    Spec.hexValue (Js.hexDigits fuel n acc)
    = n * 16 ^ Z.of_nat (String.length acc) + Spec.hexValue acc.
Proof.
  induction fuel as [| f IH]; intros n acc Hn.
  - change (16 ^ Z.of_nat 0) with 1 in Hn. assert (n = 0) as -> by lia.
    simpl. lia.
  - cbn [Js.hexDigits].
    assert (Hmod : 0 <= n mod 16 < 16) by (apply Z.mod_pos_bound; lia).
    destruct (hexDigit_cases _ Hmod) as [Hv _].
    assert (Hdiv : n = 16 * (n / 16) + n mod 16) by (apply Z.div_mod; lia).
    destruct (Z.eqb_spec (n / 16) 0) as [Hq | Hq].
    + cbn [Spec.hexValue]. rewrite Hv. rewrite Hq in Hdiv. lia.
    + rewrite IH.
      * cbn [Spec.hexValue String.length]. rewrite Hv.
        rewrite Nat2Z.inj_succ, Z.pow_succ_r by lia. lia.
      * split; [apply Z.div_pos; lia |].
        apply Z.div_lt_upper_bound; [lia |].
        rewrite Nat2Z.inj_succ, Z.pow_succ_r in Hn by lia. lia.
Qed.

Lemma hexDigits_lower (fuel : nat) :
  forall (n : Z) (acc : string),
    0 <= n -> Spec.allLowerHex acc = true ->
    Spec.allLowerHex (Js.hexDigits fuel n acc) = true.
Proof.
  induction fuel as [| f IH]; intros n acc Hn Hacc; simpl; [assumption |].
  assert (Hmod : 0 <= n mod 16 < 16) by (apply Z.mod_pos_bound; lia).
  destruct (hexDigit_cases _ Hmod) as [_ Hl].
  destruct (n / 16 =? 0).
  - simpl. now rewrite Hl.
  - apply IH; [apply Z.div_pos; lia |]. simpl. now rewrite Hl.
Qed.

(** The fuel of [hexOfNonneg] covers every digit. *)
Lemma hexOfNonneg_fuel (n : Z) :
  0 <= n -> n < 16 ^ Z.of_nat (S (Z.to_nat (Z.log2 n / 4))).
Proof.
  intros Hn.
  assert (Hl : 0 <= Z.log2 n) by apply Z.log2_nonneg.
  assert (Hq : 0 <= Z.log2 n / 4) by (apply Z.div_pos; lia).
  rewrite Nat2Z.inj_succ, Z2Nat.id by lia.
  change 16 with (2 ^ 4). rewrite <- Z.pow_mul_r by lia.
  destruct (Z.eq_dec n 0) as [-> | Hnz].
  - apply Z.pow_pos_nonneg; lia.
  - apply Z.lt_le_trans with (2 ^ Z.succ (Z.log2 n)).
    + apply Z.log2_spec. lia.
    + apply Z.pow_le_mono_r; [lia |].
      pose proof (Z.div_mod (Z.log2 n) 4 ltac:(lia)).
      pose proof (Z.mod_pos_bound (Z.log2 n) 4 ltac:(lia)). lia.
Qed.

Lemma length_repeat (c : ascii) (k : nat) : String.length (Js.repeat c k) = k.
Proof. induction k as [| k IH]; simpl; [reflexivity | now rewrite IH]. Qed.

Lemma length_append (a b : string) :
  String.length (a ++ b) = (String.length a + String.length b)%nat.
Proof. induction a as [| c a IH]; simpl; [reflexivity | now rewrite IH]. Qed.

Lemma hexValue_zeros (k : nat) (s : string) :
  Spec.hexValue (Js.repeat "0" k ++ s) = Spec.hexValue s.
Proof. induction k; simpl; [reflexivity |]. rewrite IHk. reflexivity. Qed.

Lemma allLowerHex_zeros (k : nat) (s : string) :
  Spec.allLowerHex s = true -> Spec.allLowerHex (Js.repeat "0" k ++ s) = true.
Proof. intros H. induction k; simpl; assumption. Qed.

(** Within 32 bits the formatted count has exactly eight lowercase
    hexadecimal digits and denotes the count. *)
Lemma formatNonceCount_eight (nc : Z) :
  0 <= nc < 2 ^ 32 ->
  String.length (formatNonceCount nc) = 8%nat
  /\ Spec.allLowerHex (formatNonceCount nc) = true
  /\ Spec.hexValue (formatNonceCount nc) = nc.
Proof.
  intros Hnc. unfold formatNonceCount, Js.padStart, Js.toString16.
  destruct (Z.ltb_spec nc 0) as [Hneg | _]; [lia |].
  unfold Js.hexOfNonneg. set (fuel := S (Z.to_nat (Z.log2 nc / 4))).
  pose proof (hexDigits_length fuel 8 nc EmptyString ltac:(lia)) as Hlen.
  change (16 ^ Z.of_nat 8) with (2 ^ 32) in Hlen. specialize (Hlen Hnc).
  simpl String.length in Hlen at 2.
  split; [| split].
  - rewrite length_append, length_repeat. lia.
  - apply allLowerHex_zeros, hexDigits_lower; [lia | reflexivity].
  - rewrite hexValue_zeros, hexDigits_value.
    + simpl. lia.
    + split; [lia |]. apply hexOfNonneg_fuel. lia.
Qed.

(** Beyond 32 bits nothing is cut off: the digits are all there. *)
Lemma formatNonceCount_padded (nc : Z) :
  0 <= nc ->
  (8 <= String.length (formatNonceCount nc))%nat
  /\ Spec.allLowerHex (formatNonceCount nc) = true
  /\ Spec.hexValue (formatNonceCount nc) = nc.
Proof.
  intros Hnc. unfold formatNonceCount, Js.padStart, Js.toString16.
  destruct (Z.ltb_spec nc 0) as [Hneg | _]; [lia |].
  unfold Js.hexOfNonneg. split; [| split].
  - rewrite length_append, length_repeat. lia.
  - apply allLowerHex_zeros, hexDigits_lower; [lia | reflexivity].
  - rewrite hexValue_zeros, hexDigits_value.
    + simpl. lia.
    + split; [lia |]. apply hexOfNonneg_fuel. lia.
Qed.

End HexFormat.

(** ** The parser always finishes *)

Section ParserTotal.

Lemma span_length (p : ascii -> bool) (s : string) :
  String.length s
  = (String.length (fst (Regex.span p s)) + String.length (snd (Regex.span p s)))%nat.
Proof.
  induction s as [| c r IH]; simpl; [reflexivity |].
  destruct (p c); simpl; [| reflexivity].
  destruct (Regex.span p r) as [a b]. simpl in *. lia.
Qed.

Lemma unquoted_rest (k after : string) :
  (String.length (Regex.rest (Regex.unquoted k after)) <= String.length after)%nat.
Proof.
  unfold Regex.unquoted.
  pose proof (span_length Regex.notComma after) as H.
  destruct (Regex.span Regex.notComma after) as [v r]. simpl in *. lia.
Qed.

(** A match consumes at least a key character and the equals sign. *)
Lemma matchHere_consumes (s : string) (m : Regex.Match) :
  Regex.matchHere s = Some m ->
  (String.length (Regex.rest m) + 2 <= String.length s)%nat.
Proof.
  unfold Regex.matchHere.
  pose proof (span_length Regex.isWord s) as Hs.
  destruct (Regex.span Regex.isWord s) as [k after]. simpl in Hs.
  destruct k as [| k0 k]; [discriminate |].
  destruct after as [| e after]; [discriminate |].
  destruct (Ascii.eqb_spec e "=") as [-> | Hne].
  2:{ intros H. exfalso. revert H.
      destruct e as [[] [] [] [] [] [] [] []]; try discriminate.
      contradiction Hne; reflexivity. }
  simpl in Hs.
  assert (Hfall : forall m', Some (Regex.unquoted (String k0 k) after) = Some m' ->
                    (String.length (Regex.rest m') + 2 <= String.length s)%nat).
  { intros m' [= <-]. pose proof (unquoted_rest (String k0 k) after). lia. }
  destruct after as [| q inner]; [apply Hfall |].
  destruct (Ascii.eqb_spec q "034") as [-> | Hnq].
  2:{ intros H. apply Hfall. revert H.
      destruct q as [[] [] [] [] [] [] [] []]; try (intros H; exact H).
      contradiction Hnq; reflexivity. }
  pose proof (span_length Regex.notQuote inner) as Hi.
  destruct (Regex.span Regex.notQuote inner) as [v r]. simpl in Hi.
  destruct r as [| q' r]; [apply Hfall |].
  destruct (Ascii.eqb_spec q' "034") as [-> | Hnq'].
  - intros [= <-]. simpl in *. lia.
  - intros H. apply Hfall. revert H.
    destruct q' as [[] [] [] [] [] [] [] []]; try (intros H; exact H).
    contradiction Hnq'; reflexivity.
Qed.

Lemma exec_consumes (s : string) (m : Regex.Match) :
  Regex.exec s = Some m ->
  (String.length (Regex.rest m) + 2 <= String.length s)%nat.
Proof.
  induction s as [| c r IH]; simpl.
  - discriminate.
  - destruct (Regex.matchHere (String c r)) as [m' |] eqn:Hm.
    + intros [= <-]. apply matchHere_consumes in Hm. simpl in Hm. exact Hm.
    + intros H. specialize (IH H). lia.
Qed.

(** More fuel than the length of the text changes nothing: the loop of
    [parseDigestChallenge] ends because the text is exhausted. *)
Lemma parseLoop_fuel (f1 : nat) :
  forall (f2 : nat) (s : string) (c : DigestChallenge),
    (String.length s <= f1)%nat -> (String.length s <= f2)%nat ->
    parseLoop f1 s c = parseLoop f2 s c.
Proof.
  induction f1 as [| f1 IH]; intros f2 s c H1 H2.
  - destruct s; [| simpl in H1; lia]. destruct f2; reflexivity.
  - destruct f2 as [| f2].
    + destruct s; [reflexivity | simpl in H2; lia].
    + simpl. destruct (Regex.exec s) as [m |] eqn:Hm; [| reflexivity].
      apply exec_consumes in Hm. apply IH; lia.
Qed.

End ParserTotal.

(** ** What a run of each part yields *)

Ltac run :=
  unfold acquireWith, axios_request, dispatchRequest, settle, set_nc,
    set_cachedChallenge, when, emit, readCache, writeCache, throw, ret, bind,
    tryCatch;
  simpl.

Lemma includes_nonempty (h p0 : string) (c : ascii) :
  Js.includes (Js.toLowerCase h) (String c p0) = true -> Js.truthyStr h = true.
Proof. destruct h; [discriminate | reflexivity]. Qed.

Lemma truthyStr_false (s : string) : Js.truthyStr s = false <-> s = "".
Proof. destruct s; simpl; split; congruence. Qed.

Lemma truthyStr_true (s : string) : Js.truthyStr s = true <-> s <> "".
Proof. destruct s; simpl; split; congruence. Qed.

Section Acquisition.

Variable challengeText : string -> string.
Variable net : Network.
Variable requestConfig : AxiosRequestConfig.
Variable s : Cache.

Let announce : Event := requestingChallenge.
Let probe : Event := Probe (probeConfig requestConfig).

Lemma acquire_network_error :
  net (probeConfig requestConfig) = NetworkError ->
  acquireWith challengeText net requestConfig s
  = {| trace := [announce; probe]; cache := s; result := inl (AxiosError None) |}.
Proof. intros H. run. rewrite H. reflexivity. Qed.

Lemma acquire_refused (st : Z) (h : option string) :
  net (probeConfig requestConfig) = HttpResponse st h -> st <> 401 ->
  acquireWith challengeText net requestConfig s
  = {| trace := [announce; probe]; cache := s;
       result := inl (AxiosError (Some {| status := st; www_authenticate := h |})) |}.
Proof.
  intros H Hst. run. rewrite H. simpl.
  destruct (Z.eqb_spec st 401) as [-> | _]; [contradiction | reflexivity].
Qed.

Lemma acquire_missing (h : option string) :
  net (probeConfig requestConfig) = HttpResponse 401 h -> Js.truthy h = false ->
  acquireWith challengeText net requestConfig s
  = {| trace := [announce; probe]; cache := s; result := inl MissingWWWAuthenticate |}.
Proof. intros H Hh. run. rewrite H. simpl. rewrite Hh. reflexivity. Qed.

Lemma acquire_other_scheme (h : string) :
  net (probeConfig requestConfig) = HttpResponse 401 (Some h) ->
  Js.truthyStr h = true ->
  Js.includes (Js.toLowerCase h) "digest " = false ->
  acquireWith challengeText net requestConfig s
  = {| trace := [announce; probe]; cache := s;
       result := inl (InvalidAuthenticationType h) |}.
Proof. intros H Ht Hi. run. rewrite H. simpl. rewrite Ht, Hi. reflexivity. Qed.

Lemma acquire_invalid (h : string) :
  let challenge := parseDigestChallenge (challengeText h) in
  net (probeConfig requestConfig) = HttpResponse 401 (Some h) ->
  Js.includes (Js.toLowerCase h) "digest " = true ->
  Js.truthyStr (realm challenge) && Js.truthyStr (nonce challenge) = false ->
  acquireWith challengeText net requestConfig s
  = {| trace := [announce; probe;
                 ConsoleLog [LText "Desafio analisado:"; LChallenge challenge]];
       cache := {| nc := nc s; cachedChallenge := Some challenge |};
       result := inl (InvalidDigestChallenge challenge) |}.
Proof.
  intros challenge H Hi Hv. run. rewrite H. simpl.
  rewrite (includes_nonempty _ _ _ Hi), Hi. simpl.
  fold challenge. rewrite <- negb_andb, Hv. reflexivity.
Qed.

Lemma acquire_ok (h : string) :
  let challenge := parseDigestChallenge (challengeText h) in
  net (probeConfig requestConfig) = HttpResponse 401 (Some h) ->
  Js.includes (Js.toLowerCase h) "digest " = true ->
  Js.truthyStr (realm challenge) && Js.truthyStr (nonce challenge) = true ->
  acquireWith challengeText net requestConfig s
  = {| trace := [announce; probe;
                 ConsoleLog [LText "Desafio analisado:"; LChallenge challenge]];
       cache := {| nc := 1; cachedChallenge := Some challenge |};
       result := inr tt |}.
Proof.
  intros challenge H Hi Hv. run. rewrite H. simpl.
  rewrite (includes_nonempty _ _ _ Hi), Hi. simpl.
  fold challenge. rewrite <- negb_andb, Hv. reflexivity.
Qed.

Lemma acquire_cases :
  AcquireCase challengeText net requestConfig s
    (acquireWith challengeText net requestConfig s).
Proof.
  destruct (net (probeConfig requestConfig)) as [| st h] eqn:Hnet.
  - rewrite acquire_network_error by assumption. econstructor; eassumption.
  - destruct (Z.eq_dec st 401) as [-> | Hst].
    2:{ rewrite (acquire_refused st h) by assumption. econstructor; eassumption. }
    destruct (Js.truthy h) eqn:Ht.
    2:{ rewrite (acquire_missing h) by assumption. econstructor; eassumption. }
    destruct h as [h |]; [| discriminate]. simpl in Ht.
    destruct (Js.includes (Js.toLowerCase h) "digest ") eqn:Hi.
    2:{ rewrite (acquire_other_scheme h) by assumption. econstructor; eassumption. }
    destruct (Js.truthyStr (realm (parseDigestChallenge (challengeText h)))
              && Js.truthyStr (nonce (parseDigestChallenge (challengeText h)))) eqn:Hv.
    + rewrite (acquire_ok h) by assumption. econstructor; eassumption.
    + rewrite (acquire_invalid h) by assumption. econstructor; eassumption.
Qed.

End Acquisition.

Section Calculator.

Variable rt : Runtime.
Variables (username password : string) (challenge : DigestChallenge) (nc : Z).
Variables (cnonce method uri : string) (s : Cache).

Lemma calculate1_ok (hash : string -> string) :
  createHash rt "md5" = Some hash ->
  Copy1.calculateDigestResponse rt username password challenge nc cnonce method uri s
  = {| trace := [calculationValues username password challenge nc cnonce method uri
                   hash];
       cache := s;
       result := inr (digestWith username password challenge nc cnonce method uri
                        hash) |}.
Proof.
  intros H. unfold Copy1.calculateDigestResponse, hashFunction, bind, emit.
  change (Js.toLowerCase "MD5") with "md5". rewrite H. reflexivity.
Qed.

Lemma calculate1_unknown :
  createHash rt "md5" = None ->
  Copy1.calculateDigestResponse rt username password challenge nc cnonce method uri s
  = {| trace := []; cache := s; result := inl (UnknownDigest "md5") |}.
Proof.
  intros H. unfold Copy1.calculateDigestResponse, hashFunction, bind, emit.
  change (Js.toLowerCase "MD5") with "md5". rewrite H. reflexivity.
Qed.

Lemma calculate2_ok (hash : string -> string) :
  createHash rt (Js.toLowerCase (Js.orElse (algorithm challenge) "MD5")) = Some hash ->
  Copy2.calculateDigestResponse rt username password challenge nc cnonce method uri s
  = {| trace := []; cache := s;
       result := inr (digestWith username password challenge nc cnonce method uri
                        hash) |}.
Proof.
  intros H. unfold Copy2.calculateDigestResponse, hashFunction, bind.
  rewrite H. reflexivity.
Qed.

Lemma calculate2_unknown :
  createHash rt (Js.toLowerCase (Js.orElse (algorithm challenge) "MD5")) = None ->
  Copy2.calculateDigestResponse rt username password challenge nc cnonce method uri s
  = {| trace := []; cache := s;
       result := inl (UnknownDigest
                        (Js.toLowerCase (Js.orElse (algorithm challenge) "MD5"))) |}.
Proof.
  intros H. unfold Copy2.calculateDigestResponse, hashFunction, bind.
  rewrite H. reflexivity.
Qed.

Lemma digestWith_qop (hash : string -> string) (q : string) :
  qop challenge = Some q -> q <> "" ->
  digestWith username password challenge nc cnonce method uri hash
  = Spec.sixTerms hash (Spec.HA1 hash username (realm challenge) password)
      (nonce challenge) (formatNonceCount nc) cnonce q (Spec.HA2 hash method uri).
Proof.
  intros Hq Hne. unfold digestWith, responseBase. rewrite Hq. simpl.
  apply truthyStr_true in Hne. rewrite Hne. reflexivity.
Qed.

Lemma digestWith_no_qop (hash : string -> string) :
  qop challenge = None \/ qop challenge = Some "" ->
  digestWith username password challenge nc cnonce method uri hash
  = Spec.threeTerms hash (Spec.HA1 hash username (realm challenge) password)
      (nonce challenge) (Spec.HA2 hash method uri).
Proof.
  intros [Hq | Hq]; unfold digestWith, responseBase; rewrite Hq; reflexivity.
Qed.

Lemma orElse_selected :
  Js.orElse (algorithm challenge) "MD5" = Spec.selectedAlgorithm challenge.
Proof.
  unfold Js.orElse, Spec.selectedAlgorithm.
  destruct (algorithm challenge) as [[| c a] |]; reflexivity.
Qed.

End Calculator.

(** ** The response calculator *)

(** C1, as amended.  With [md5] the digest the runtime gives for [md5] and
    [h] the one it gives for the algorithm the second copy selects, both
    copies return the hash of the six terms when the challenge's [qop] is
    present and not empty, and the hash of [HA1:nonce:HA2] when it is absent
    or empty; [HA1] hashes [username:realm:password] and [HA2] hashes
    [method:uri].  A count that is not negative is printed in lowercase
    hexadecimal and padded with zeros to eight digits: 1 gives [00000001],
    255 gives [000000ff], the digits denote the count, and there are exactly
    eight of them below 2^32. *)
Theorem C1_response_formula
    (rt : Runtime) (u p : string) (c : DigestChallenge) (n : Z)
    (cn m uri : string) (s : Cache) (md5 h : string -> string) :
  createHash rt "md5" = Some md5 ->
  createHash rt (Js.toLowerCase (Spec.selectedAlgorithm c)) = Some h ->
  (forall q, qop c = Some q -> q <> "" ->
     result (Copy1.calculateDigestResponse rt u p c n cn m uri s)
     = inr (Spec.sixTerms md5 (Spec.HA1 md5 u (realm c) p) (nonce c)
              (formatNonceCount n) cn q (Spec.HA2 md5 m uri))
     /\ result (Copy2.calculateDigestResponse rt u p c n cn m uri s)
        = inr (Spec.sixTerms h (Spec.HA1 h u (realm c) p) (nonce c)
                 (formatNonceCount n) cn q (Spec.HA2 h m uri)))
  /\ (qop c = None \/ qop c = Some "" ->
      result (Copy1.calculateDigestResponse rt u p c n cn m uri s)
      = inr (Spec.threeTerms md5 (Spec.HA1 md5 u (realm c) p) (nonce c)
               (Spec.HA2 md5 m uri))
      /\ result (Copy2.calculateDigestResponse rt u p c n cn m uri s)
         = inr (Spec.threeTerms h (Spec.HA1 h u (realm c) p) (nonce c)
                  (Spec.HA2 h m uri)))
  /\ formatNonceCount 1 = "00000001"
  /\ formatNonceCount 255 = "000000ff"
  /\ (0 <= n ->
      (8 <= String.length (formatNonceCount n))%nat
      /\ Spec.allLowerHex (formatNonceCount n) = true
      /\ Spec.hexValue (formatNonceCount n) = n
      /\ (n < 2 ^ 32 -> String.length (formatNonceCount n) = 8%nat)).
Proof.
  intros Hmd5 Hh. rewrite <- orElse_selected in Hh.
  rewrite (calculate1_ok rt u p c n cn m uri s md5 Hmd5).
  rewrite (calculate2_ok rt u p c n cn m uri s h Hh). simpl.
  split; [| split; [| split; [| split]]].
  - intros q Hq Hne. split; f_equal; now apply digestWith_qop.
  - intros Hq. split; f_equal; now apply digestWith_no_qop.
  - reflexivity.
  - reflexivity.
  - intros Hn. destruct (formatNonceCount_padded n Hn) as (Hlen & Hhex & Hval).
    repeat split; try assumption.
    intros Hlt. now apply formatNonceCount_eight.
Qed.

(** The fixed inputs of section 8 of the specification, run through the
    theorem. *)
Lemma C1_response_formula_witness :
  createHash Sample.runtime "md5" = Some MD5.hex
  /\ result (Copy2.calculateDigestResponse Sample.runtime "admin" "secret"
               Sample.withAuth 1 "0a4f113b" "PUT" Sample.doorURI createDigestAuth)
     = inr (Spec.sixTerms MD5.hex (Spec.HA1 MD5.hex "admin" "example" "secret")
              "abc123" "00000001" "0a4f113b" "auth"
              (Spec.HA2 MD5.hex "PUT" Sample.doorURI)).
Proof.
  split; [reflexivity |].
  refine (proj2 (proj1 (C1_response_formula Sample.runtime "admin" "secret"
                          Sample.withAuth 1 "0a4f113b" "PUT" Sample.doorURI
                          createDigestAuth MD5.hex MD5.hex eq_refl eq_refl)
                   "auth" eq_refl _)).
  discriminate.
Defined.

(** The digest of those inputs. *)
Example fixed_inputs_digest :
  result (Copy2.calculateDigestResponse Sample.runtime "admin" "secret"
            Sample.withAuth 1 "0a4f113b" "PUT" Sample.doorURI createDigestAuth)
  = inr "4c014610cc2be72386d21a13bf606acf".
Proof. vm_compute. reflexivity. Qed.

(** C1 as stated fails on a challenge whose [qop] is present and empty, as
    the parser produces for a header with an empty [qop] value: the field is
    there, and both copies hash three terms, not six. *)
Lemma C1_counterexample :
  qop Sample.emptyQop = Some ""
  /\ qop (parseDigestChallenge
            ("realm=" ++ Js.quoted "example" ++ ", nonce=" ++ Js.quoted "abc123"
             ++ ", qop=" ++ Js.quoted "")) = Some ""
  /\ result (Copy1.calculateDigestResponse Sample.runtime "admin" "secret"
               Sample.emptyQop 1 "0a4f113b" "PUT" Sample.doorURI createDigestAuth)
     = inr "cdffc1f88694c5d3a7a21402c64f8158"
  /\ result (Copy2.calculateDigestResponse Sample.runtime "admin" "secret"
               Sample.emptyQop 1 "0a4f113b" "PUT" Sample.doorURI createDigestAuth)
     = inr "cdffc1f88694c5d3a7a21402c64f8158"
  /\ Spec.sixTerms MD5.hex (Spec.HA1 MD5.hex "admin" "example" "secret")
       "abc123" "00000001" "0a4f113b" "" (Spec.HA2 MD5.hex "PUT" Sample.doorURI)
     = "73a0a2afc5fc3c51d99ecd40c771f650"
  /\ Spec.threeTerms MD5.hex (Spec.HA1 MD5.hex "admin" "example" "secret")
       "abc123" (Spec.HA2 MD5.hex "PUT" Sample.doorURI)
     = "cdffc1f88694c5d3a7a21402c64f8158"
  /\ result (Copy2.calculateDigestResponse Sample.runtime "admin" "secret"
               Sample.emptyQop 1 "0a4f113b" "PUT" Sample.doorURI createDigestAuth)
     <> inr (Spec.sixTerms MD5.hex (Spec.HA1 MD5.hex "admin" "example" "secret")
               "abc123" (formatNonceCount 1) "0a4f113b" ""
               (Spec.HA2 MD5.hex "PUT" Sample.doorURI)).
Proof. vm_compute. repeat split; try reflexivity. discriminate. Qed.

(** C2, as amended, for the second copy.  The digest is the one the runtime
    gives for the challenge's [algorithm] when that field is present and not
    empty, and the one it gives for MD5 when the field is absent or empty;
    the name is looked up in lowercase, and the call throws when the runtime
    does not know it. *)
Theorem C2_algorithm_selection
    (rt : Runtime) (u p : string) (c : DigestChallenge) (n : Z)
    (cn m uri : string) (s : Cache) :
  (forall a, algorithm c = Some a -> a <> "" ->
     match createHash rt (Js.toLowerCase a) with
     | Some hash =>
         result (Copy2.calculateDigestResponse rt u p c n cn m uri s)
         = inr (digestWith u p c n cn m uri hash)
     | None =>
         result (Copy2.calculateDigestResponse rt u p c n cn m uri s)
         = inl (UnknownDigest (Js.toLowerCase a))
     end)
  /\ (algorithm c = None \/ algorithm c = Some "" ->
      match createHash rt "md5" with
      | Some hash =>
          result (Copy2.calculateDigestResponse rt u p c n cn m uri s)
          = inr (digestWith u p c n cn m uri hash)
      | None =>
          result (Copy2.calculateDigestResponse rt u p c n cn m uri s)
          = inl (UnknownDigest "md5")
      end).
Proof.
  split.
  - intros a Ha Hne.
    assert (Hsel : Js.orElse (algorithm c) "MD5" = a).
    { unfold Js.orElse. rewrite Ha. apply truthyStr_true in Hne. now rewrite Hne. }
    destruct (createHash rt (Js.toLowerCase a)) as [hash |] eqn:Hh.
    + rewrite (calculate2_ok rt u p c n cn m uri s hash); [reflexivity |].
      now rewrite Hsel.
    + rewrite calculate2_unknown by now rewrite Hsel.
      simpl. now rewrite Hsel.
  - intros Hnone.
    assert (Hsel : Js.orElse (algorithm c) "MD5" = "MD5").
    { unfold Js.orElse. destruct Hnone as [-> | ->]; reflexivity. }
    destruct (createHash rt "md5") as [hash |] eqn:Hh.
    + rewrite (calculate2_ok rt u p c n cn m uri s hash); [reflexivity |].
      now rewrite Hsel.
    + rewrite calculate2_unknown by now rewrite Hsel.
      simpl. now rewrite Hsel.
Qed.

(** A challenge that asks for SHA-256 and one that asks for MD5, through the
    theorem, on a runtime that knows MD5 only. *)
Lemma C2_algorithm_selection_witness :
  result (Copy2.calculateDigestResponse Sample.runtime "admin" "secret" Sample.sha256
            1 "0a4f113b" "PUT" Sample.doorURI createDigestAuth)
  = inl (UnknownDigest "sha-256")
  /\ result (Copy2.calculateDigestResponse Sample.runtime "admin" "secret"
               Sample.fullChallenge 1 "0a4f113b" "PUT" Sample.doorURI createDigestAuth)
     = inr (digestWith "admin" "secret" Sample.fullChallenge 1 "0a4f113b" "PUT"
              Sample.doorURI MD5.hex).
Proof.
  split.
  - refine (proj1 (C2_algorithm_selection Sample.runtime "admin" "secret" Sample.sha256
                     1 "0a4f113b" "PUT" Sample.doorURI createDigestAuth)
              "SHA-256" eq_refl _).
    discriminate.
  - refine (proj1 (C2_algorithm_selection Sample.runtime "admin" "secret"
                     Sample.fullChallenge 1 "0a4f113b" "PUT" Sample.doorURI
                     createDigestAuth)
              "MD5" eq_refl _).
    discriminate.
Defined.

(** C2 as stated fails twice.  In the second copy a challenge whose
    [algorithm] is present and empty is hashed with MD5, although the
    runtime knows no digest of that name.  In the first copy a challenge
    that asks for SHA-256 is hashed with MD5 as well, where the second copy
    looks SHA-256 up (and throws, this runtime knowing MD5 only). *)
Lemma C2_counterexample :
  (algorithm Sample.emptyAlgorithm = Some ""
   /\ createHash Sample.runtime (Js.toLowerCase "") = None
   /\ result (Copy2.calculateDigestResponse Sample.runtime "admin" "secret"
                Sample.emptyAlgorithm 1 "0a4f113b" "PUT" Sample.doorURI createDigestAuth)
      = inr "4c014610cc2be72386d21a13bf606acf")
  /\ (algorithm Sample.sha256 = Some "SHA-256"
      /\ result (Copy1.calculateDigestResponse Sample.runtime "admin" "secret"
                   Sample.sha256 1 "0a4f113b" "PUT" Sample.doorURI createDigestAuth)
         = inr "4c014610cc2be72386d21a13bf606acf"
      /\ result (Copy2.calculateDigestResponse Sample.runtime "admin" "secret"
                   Sample.sha256 1 "0a4f113b" "PUT" Sample.doorURI createDigestAuth)
         = inl (UnknownDigest "sha-256")).
Proof. vm_compute. repeat split; reflexivity. Qed.

(** C10.  On a challenge without [algorithm] the two copies of
    [calculateDigestResponse] return the same response, or throw the same
    error when the runtime has no MD5. *)
Theorem C10_copies_agree
    (rt : Runtime) (u p : string) (c : DigestChallenge) (n : Z)
    (cn m uri : string) (s : Cache) :
  algorithm c = None ->
  result (Copy1.calculateDigestResponse rt u p c n cn m uri s)
  = result (Copy2.calculateDigestResponse rt u p c n cn m uri s).
Proof.
  intros Ha.
  assert (Hsel : Js.toLowerCase (Js.orElse (algorithm c) "MD5") = "md5")
    by now rewrite Ha.
  destruct (createHash rt "md5") as [hash |] eqn:Hh.
  - rewrite (calculate1_ok rt u p c n cn m uri s hash Hh).
    rewrite (calculate2_ok rt u p c n cn m uri s hash); [reflexivity |].
    now rewrite Hsel.
  - rewrite (calculate1_unknown rt u p c n cn m uri s Hh).
    rewrite calculate2_unknown by now rewrite Hsel.
    simpl. now rewrite Hsel.
Qed.

Lemma C10_copies_agree_witness :
  algorithm Sample.withAuth = None
  /\ result (Copy1.calculateDigestResponse Sample.runtime "admin" "secret"
               Sample.withAuth 1 "0a4f113b" "PUT" Sample.doorURI createDigestAuth)
     = result (Copy2.calculateDigestResponse Sample.runtime "admin" "secret"
                 Sample.withAuth 1 "0a4f113b" "PUT" Sample.doorURI createDigestAuth).
Proof.
  split; [reflexivity |].
  apply (C10_copies_agree Sample.runtime "admin" "secret" Sample.withAuth 1
           "0a4f113b" "PUT" Sample.doorURI createDigestAuth).
  reflexivity.
Defined.

(** ** How the request interceptor composes *)

Section Composition.

Lemma outcome_eta {A} (o : Outcome A) :
  {| trace := trace o; cache := cache o; result := result o |} = o.
Proof. destruct o; reflexivity. Qed.

Lemma bind_readCache {A} (k : Cache -> M A) (s : Cache) :
  bind readCache k s = k s s.
Proof. unfold bind, readCache. simpl. destruct (k s s); reflexivity. Qed.

Lemma tryCatch_readCache {A} (k : Cache -> M A) (h : Error -> M A) (s : Cache) :
  tryCatch (bind readCache k) h s = tryCatch (k s) h s.
Proof. unfold tryCatch. rewrite bind_readCache. reflexivity. Qed.

(** A gate (acquire or count), then the header, inside the [try]. *)
Lemma intercept_shape (pre : M unit) (auth : M AxiosRequestConfig) (s : Cache) :
  tryCatch (pre >> auth) rethrow s
  = match result (pre s) with
    | inl e =>
        {| trace := trace (pre s) ++ [digestAuthError e]; cache := cache (pre s);
           result := inl e |}
    | inr _ =>
        let o := auth (cache (pre s)) in
        match result o with
        | inl e =>
            {| trace := (trace (pre s) ++ trace o) ++ [digestAuthError e];
               cache := cache o; result := inl e |}
        | inr cfg =>
            {| trace := trace (pre s) ++ trace o; cache := cache o;
               result := inr cfg |}
        end
    end.
Proof.
  unfold tryCatch, bind, rethrow, emit, throw.
  destruct (pre s) as [t c [e | []]]; simpl; [reflexivity |].
  destruct (auth c) as [t' c' [e' | cfg]]; reflexivity.
Qed.

Lemma over_empty (ceiling : Z) (s : Cache) :
  cachedChallenge s = None -> over ceiling s = true.
Proof. unfold over. intros ->. reflexivity. Qed.

Lemma over_above (ceiling : Z) (s : Cache) :
  ceiling < nc s -> over ceiling s = true.
Proof.
  unfold over. intros H. apply Z.ltb_lt in H. rewrite H. apply orb_true_r.
Qed.

Lemma over_active (ceiling : Z) (s : Cache) (c : DigestChallenge) :
  cachedChallenge s = Some c -> nc s <= ceiling -> over ceiling s = false.
Proof.
  unfold over. intros -> H. apply Z.ltb_ge in H. rewrite H. reflexivity.
Qed.

Lemma set_nc_run (n : Z) (s : Cache) :
  set_nc n s
  = {| trace := []; cache := {| nc := n; cachedChallenge := cachedChallenge s |};
       result := inr tt |}.
Proof. reflexivity. Qed.

Variable rt : Runtime.
Variable config : DigestAuthConfig.
Variable net : Network.
Variable cnonce : string.
Variable requestConfig : AxiosRequestConfig.

Lemma intercept1_unfold (s : Cache) :
  Copy1.requestInterceptor rt config net cnonce requestConfig s
  = tryCatch
      ((if over Copy1.ceiling s then Copy1.acquire net requestConfig
        else set_nc (nc s + 1)) >>
       Copy1.authorize rt config cnonce requestConfig) rethrow s.
Proof. unfold Copy1.requestInterceptor. now rewrite tryCatch_readCache. Qed.

Lemma intercept2_unfold (s : Cache) :
  Copy2.requestInterceptor rt config net cnonce requestConfig s
  = tryCatch
      ((if over Copy2.ceiling s then Copy2.acquire net requestConfig
        else set_nc (nc s + 1)) >>
       Copy2.authorize rt config cnonce requestConfig) rethrow s.
Proof. unfold Copy2.requestInterceptor. now rewrite tryCatch_readCache. Qed.

Lemma requestURI2_run (s : Cache) :
  Copy2.requestURI rt requestConfig s
  = {| trace := uriWarning rt requestConfig; cache := s; result := inr (uri2 rt requestConfig) |}.
Proof.
  unfold Copy2.requestURI, uri2, uriWarning.
  destruct (newURL rt _ _) as [[pathname search] |]; reflexivity.
Qed.

Lemma authorize1_none (s : Cache) :
  cachedChallenge s = None ->
  Copy1.authorize rt config cnonce requestConfig s
  = {| trace := []; cache := s; result := inl NoValidDigestChallenge |}.
Proof.
  intros H. unfold Copy1.authorize. rewrite bind_readCache, H. reflexivity.
Qed.

Lemma authorize1_ok (s : Cache) (c : DigestChallenge) (hash : string -> string) :
  cachedChallenge s = Some c ->
  createHash rt "md5" = Some hash ->
  let uri := Copy1.requestURI rt requestConfig in
  let digestResponse :=
    digestWith (username config) (password config) c (nc s) cnonce
      (methodOf requestConfig) uri hash in
  Copy1.authorize rt config cnonce requestConfig s
  = {| trace := [calculationValues (username config) (password config) c (nc s)
                   cnonce (methodOf requestConfig) uri hash;
                 usingAuthHeader (authValue1 config cnonce c (nc s) uri digestResponse)];
       cache := s;
       result := inr (setAuthorization requestConfig
                        (authValue1 config cnonce c (nc s) uri digestResponse)) |}.
Proof.
  intros Hc Hh uri digestResponse.
  unfold Copy1.authorize. rewrite bind_readCache, Hc.
  unfold bind. rewrite (calculate1_ok _ _ _ _ _ _ _ _ _ hash Hh). reflexivity.
Qed.

Lemma authorize1_unknown (s : Cache) (c : DigestChallenge) :
  cachedChallenge s = Some c ->
  createHash rt "md5" = None ->
  Copy1.authorize rt config cnonce requestConfig s
  = {| trace := []; cache := s; result := inl (UnknownDigest "md5") |}.
Proof.
  intros Hc Hh. unfold Copy1.authorize. rewrite bind_readCache, Hc.
  unfold bind. rewrite calculate1_unknown by assumption. reflexivity.
Qed.

Lemma authorize2_none (s : Cache) :
  cachedChallenge s = None ->
  Copy2.authorize rt config cnonce requestConfig s
  = {| trace := uriWarning rt requestConfig; cache := s; result := inl NoValidDigestChallenge |}.
Proof.
  intros H. unfold Copy2.authorize, bind at 1. rewrite requestURI2_run. simpl.
  rewrite bind_readCache, H. simpl. now rewrite app_nil_r.
Qed.

Lemma authorize2_ok (s : Cache) (c : DigestChallenge) (hash : string -> string) :
  cachedChallenge s = Some c ->
  createHash rt (Js.toLowerCase (Js.orElse (algorithm c) "MD5")) = Some hash ->
  let digestResponse :=
    digestWith (username config) (password config) c (nc s) cnonce
      (methodOf requestConfig) (uri2 rt requestConfig) hash in
  Copy2.authorize rt config cnonce requestConfig s
  = {| trace := uriWarning rt requestConfig
                ++ [usingAuthHeader
                      (authValue2 config cnonce c (nc s) (uri2 rt requestConfig)
                         digestResponse)];
       cache := s;
       result := inr (setAuthorization requestConfig
                        (authValue2 config cnonce c (nc s) (uri2 rt requestConfig)
                           digestResponse)) |}.
Proof.
  intros Hc Hh digestResponse.
  unfold Copy2.authorize, bind at 1. rewrite requestURI2_run. simpl.
  rewrite bind_readCache, Hc.
  unfold bind. rewrite (calculate2_ok _ _ _ _ _ _ _ _ _ hash Hh). reflexivity.
Qed.

Lemma authorize2_unknown (s : Cache) (c : DigestChallenge) :
  cachedChallenge s = Some c ->
  createHash rt (Js.toLowerCase (Js.orElse (algorithm c) "MD5")) = None ->
  Copy2.authorize rt config cnonce requestConfig s
  = {| trace := uriWarning rt requestConfig; cache := s;
       result := inl (UnknownDigest (Js.toLowerCase (Js.orElse (algorithm c) "MD5"))) |}.
Proof.
  intros Hc Hh.
  unfold Copy2.authorize, bind at 1. rewrite requestURI2_run. simpl.
  rewrite bind_readCache, Hc.
  unfold bind. rewrite calculate2_unknown by assumption. simpl.
  now rewrite app_nil_r.
Qed.

End Composition.

(** ** The [Authorization] value *)

Section Header.

Lemma append_assoc (a b c : string) : (a ++ b) ++ c = a ++ (b ++ c).
Proof.
  induction a as [| x a IH]; [reflexivity |].
  change (String x ((a ++ b) ++ c) = String x (a ++ (b ++ c))). now rewrite IH.
Qed.

Lemma append_empty (a : string) : a ++ "" = a.
Proof.
  induction a as [| x a IH]; [reflexivity |].
  change (String x (a ++ "") = String x a). now rewrite IH.
Qed.

Variable config : DigestAuthConfig.
Variables (cnonce : string) (c : DigestChallenge) (n : Z) (uri response : string).

Lemma authValue1_render :
  authValue1 config cnonce c n uri response
  = Spec.render (Spec.directives false (username config) c uri response
                   (formatNonceCount n) cnonce).
Proof.
  unfold authValue1, authBase, authQop, authOpaque, Spec.render,
    Spec.directives, Spec.whenSet, Js.truthy, Js.quoted, Spec.show.
  destruct (qop c) as [[| q0 q] |], (opaque c) as [[| o0 o] |]; simpl;
    unfold Js.quoted; rewrite ?append_assoc, ?append_empty; reflexivity.
Qed.

Lemma authValue2_render :
  authValue2 config cnonce c n uri response
  = Spec.render (Spec.directives true (username config) c uri response
                   (formatNonceCount n) cnonce).
Proof.
  unfold authValue2, authBase, authQop, authOpaque, authAlgorithm, Spec.render,
    Spec.directives, Spec.whenSet, Js.truthy, Js.quoted, Spec.show.
  destruct (qop c) as [[| q0 q] |], (opaque c) as [[| o0 o] |],
    (algorithm c) as [[| a0 a] |]; simpl;
    unfold Js.quoted; rewrite ?append_assoc, ?append_empty; reflexivity.
Qed.

Lemma head_filter {A} (p : A -> bool) (l : list A) (x : A) :
  head (List.filter p l) = Some x -> p x = true /\ In x l.
Proof.
  induction l as [| a l IH]; [discriminate |]. simpl.
  destruct (p a) eqn:Ha.
  - intros [= <-]. auto.
  - intros H. destruct (IH H). auto.
Qed.

Lemma head_filter_none {A} (p : A -> bool) (l : list A) (x : A) :
  head (List.filter p l) = None -> In x l -> p x = false.
Proof.
  induction l as [| a l IH]; [contradiction |]. simpl.
  destruct (p a) eqn:Ha; [discriminate |].
  intros H [<- | Hin]; auto.
Qed.

(** The name [findKey] gives is one the store holds, and it is
    [authorization] in some capitals; it gives none only when the store
    holds no such name. *)
Lemma findAuthorization_some (h : gmap string string) (name : string) :
  findAuthorization h = Some name ->
  isAuthorization name = true /\ is_Some (h !! name).
Proof.
  unfold findAuthorization. intros H. apply head_filter in H as [Hp Hin].
  split; [exact Hp |].
  apply list_elem_of_In, elem_of_elements, elem_of_dom in Hin. exact Hin.
Qed.

Lemma findAuthorization_none (h : gmap string string) (name : string) :
  findAuthorization h = None -> isAuthorization name = true -> h !! name = None.
Proof.
  unfold findAuthorization. intros H Hp.
  destruct (h !! name) as [v |] eqn:Hl; [| reflexivity].
  assert (Hin : In name (elements (dom h))).
  { apply list_elem_of_In, elem_of_elements, elem_of_dom. now exists v. }
  rewrite (head_filter_none _ _ _ H Hin) in Hp. discriminate.
Qed.

Lemma findAuthorization_overwrite (h : gmap string string) (name v : string) :
  findAuthorization h = Some name ->
  findAuthorization (<[name := v]> h) = Some name.
Proof.
  intros H. unfold findAuthorization in *.
  destruct (findAuthorization_some h name H) as [_ Hin].
  assert (Hdom : dom (<[name := v]> h) = dom h).
  { rewrite dom_insert_L. apply subseteq_union_1_L, singleton_subseteq_l.
    now apply elem_of_dom. }
  now rewrite Hdom.
Qed.

Lemma findAuthorization_add (h : gmap string string) (v : string) :
  findAuthorization h = None ->
  findAuthorization (<["Authorization" := v]> h) = Some "Authorization".
Proof.
  intros H.
  destruct (findAuthorization (<["Authorization" := v]> h)) as [name |] eqn:Hf.
  - destruct (findAuthorization_some _ name Hf) as [Hp [x Hx]].
    destruct (decide (name = "Authorization")) as [-> | Hne]; [reflexivity |].
    rewrite lookup_insert_ne in Hx by congruence.
    rewrite (findAuthorization_none h name H Hp) in Hx. discriminate.
  - assert (Hl : <["Authorization" := v]> h !! "Authorization" = None).
    { apply findAuthorization_none; [exact Hf | reflexivity]. }
    rewrite lookup_insert_eq in Hl. discriminate.
Qed.

Lemma authorizationName_is (h : gmap string string) :
  isAuthorization (authorizationName h) = true.
Proof.
  unfold authorizationName.
  destruct (findAuthorization h) as [name |] eqn:Hf; [| reflexivity].
  now destruct (findAuthorization_some h name Hf).
Qed.

Lemma getAuthorization_set (h : gmap string string) (v : string) :
  getAuthorization (<[authorizationName h := v]> h) = Some v.
Proof.
  unfold getAuthorization, authorizationName.
  destruct (findAuthorization h) as [name |] eqn:Hf.
  - rewrite (findAuthorization_overwrite _ name v Hf). apply lookup_insert_eq.
  - rewrite (findAuthorization_add _ v Hf). apply lookup_insert_eq.
Qed.

Lemma authorizationOf_set (requestConfig : AxiosRequestConfig) (authValue : string) :
  Spec.authorizationOf (setAuthorization requestConfig authValue) = Some authValue.
Proof.
  unfold Spec.authorizationOf, setAuthorization. cbn [headers].
  apply getAuthorization_set.
Qed.

End Header.

(** A run of the interceptor that returns went through the gate and the
    header assembly, and ends in the cache the gate left. *)
Lemma intercept_success (pre : M unit) (auth : M AxiosRequestConfig)
    (s : Cache) (cfg : AxiosRequestConfig) :
  result (tryCatch (pre >> auth) rethrow s) = inr cfg ->
  result (pre s) = inr tt
  /\ result (auth (cache (pre s))) = inr cfg
  /\ cache (tryCatch (pre >> auth) rethrow s) = cache (auth (cache (pre s)))
  /\ trace (tryCatch (pre >> auth) rethrow s)
     = (trace (pre s) ++ trace (auth (cache (pre s))))%list.
Proof.
  rewrite intercept_shape.
  destruct (result (pre s)) as [e | []] eqn:Hpre; simpl; [discriminate |].
  destruct (result (auth (cache (pre s)))) as [e | cfg'] eqn:Hauth; simpl;
    [discriminate |].
  intros [= ->]. auto.
Qed.

(** The header assembly never touches the cache. *)
Lemma authorize1_cache rt config cn req (s : Cache) :
  cache (Copy1.authorize rt config cn req s) = s.
Proof.
  destruct (cachedChallenge s) as [c |] eqn:Hc.
  - destruct (createHash rt "md5") as [hash |] eqn:Hh.
    + now rewrite (authorize1_ok rt config cn req s c hash Hc Hh).
    + now rewrite (authorize1_unknown rt config cn req s c Hc Hh).
  - now rewrite authorize1_none.
Qed.

Lemma authorize2_cache rt config cn req (s : Cache) :
  cache (Copy2.authorize rt config cn req s) = s.
Proof.
  destruct (cachedChallenge s) as [c |] eqn:Hc.
  - destruct (createHash rt (Js.toLowerCase (Js.orElse (algorithm c) "MD5")))
      as [hash |] eqn:Hh.
    + now rewrite (authorize2_ok rt config cn req s c hash Hc Hh).
    + now rewrite (authorize2_unknown rt config cn req s c Hc Hh).
  - now rewrite authorize2_none.
Qed.

(** The request a run of the first copy returns: its header is assembled
    from the cache the run ends in. *)
Lemma intercept1_header
    (rt : Runtime) (config : DigestAuthConfig) (net : Network) (cn : string)
    (req : AxiosRequestConfig) (s : Cache) (cfg : AxiosRequestConfig) :
  result (Copy1.requestInterceptor rt config net cn req s) = inr cfg ->
  let s' := cache (Copy1.requestInterceptor rt config net cn req s) in
  exists c response,
    cachedChallenge s' = Some c
    /\ result (Copy1.calculateDigestResponse rt (username config) (password config)
                 c (nc s') cn (methodOf req) (Copy1.requestURI rt req) s')
       = inr response
    /\ Spec.authorizationOf cfg
       = Some (Spec.render
                 (Spec.directives false (username config) c
                    (Copy1.requestURI rt req) response
                    (formatNonceCount (nc s')) cn)).
Proof.
  intros Hres s'; subst s'.
  rewrite intercept1_unfold in *.
  apply intercept_success in Hres as (_ & Hauth & -> & _).
  rewrite authorize1_cache.
  set (s1 := cache _) in *.
  destruct (cachedChallenge s1) as [c |] eqn:Hc.
  2:{ rewrite authorize1_none in Hauth by assumption. discriminate. }
  destruct (createHash rt "md5") as [hash |] eqn:Hh.
  2:{ rewrite (authorize1_unknown rt config cn req s1 c Hc Hh) in Hauth.
      discriminate. }
  rewrite (authorize1_ok rt config cn req s1 c hash Hc Hh) in Hauth.
  simpl in Hauth. injection Hauth as <-.
  exists c, (digestWith (username config) (password config) c (nc s1) cn
               (methodOf req) (Copy1.requestURI rt req) hash).
  split; [reflexivity |]. split.
  - now rewrite (calculate1_ok _ _ _ _ _ _ _ _ _ hash Hh).
  - now rewrite authorizationOf_set, authValue1_render.
Qed.

Lemma intercept2_header
    (rt : Runtime) (config : DigestAuthConfig) (net : Network) (cn : string)
    (req : AxiosRequestConfig) (s : Cache) (cfg : AxiosRequestConfig) :
  result (Copy2.requestInterceptor rt config net cn req s) = inr cfg ->
  let s' := cache (Copy2.requestInterceptor rt config net cn req s) in
  exists c response,
    cachedChallenge s' = Some c
    /\ result (Copy2.calculateDigestResponse rt (username config) (password config)
                 c (nc s') cn (methodOf req) (uri2 rt req) s')
       = inr response
    /\ Spec.authorizationOf cfg
       = Some (Spec.render
                 (Spec.directives true (username config) c
                    (uri2 rt req) response
                    (formatNonceCount (nc s')) cn)).
Proof.
  intros Hres s'; subst s'.
  rewrite intercept2_unfold in *.
  apply intercept_success in Hres as (_ & Hauth & -> & _).
  rewrite authorize2_cache.
  set (s1 := cache _) in *.
  destruct (cachedChallenge s1) as [c |] eqn:Hc.
  2:{ rewrite authorize2_none in Hauth by assumption. discriminate. }
  destruct (createHash rt (Js.toLowerCase (Js.orElse (algorithm c) "MD5")))
    as [hash |] eqn:Hh.
  2:{ rewrite (authorize2_unknown rt config cn req s1 c Hc Hh) in Hauth.
      discriminate. }
  rewrite (authorize2_ok rt config cn req s1 c hash Hc Hh) in Hauth.
  simpl in Hauth. injection Hauth as <-.
  exists c, (digestWith (username config) (password config) c (nc s1) cn
               (methodOf req) (uri2 rt req) hash).
  split; [reflexivity |]. split.
  - now rewrite (calculate2_ok _ _ _ _ _ _ _ _ _ hash Hh).
  - now rewrite authorizationOf_set, authValue2_render.
Qed.

(** C5, as amended.  Whenever the interceptor returns a request, its
    [Authorization] value lists, in this order, [username], [realm], [nonce],
    [uri] and [response]; then [qop], [nc] (formatted) and [cnonce] exactly
    when the challenge's [qop] is present and not empty; then [opaque]
    exactly when it is present and not empty; then, in the second copy,
    [algorithm] exactly when it is present and not empty.  Every value stands
    between double quotes except those of [qop], [nc] and [algorithm].  The
    challenge and the count are those of the cache after the call, and the
    response is the calculator's for them. *)
Theorem C5_authorization_directives
    (rt : Runtime) (config : DigestAuthConfig) (net : Network) (cn : string)
    (req : AxiosRequestConfig) (s : Cache) :
  (forall cfg,
     result (Copy1.requestInterceptor rt config net cn req s) = inr cfg ->
     let s' := cache (Copy1.requestInterceptor rt config net cn req s) in
     exists c response,
       cachedChallenge s' = Some c
       /\ result (Copy1.calculateDigestResponse rt (username config) (password config)
                    c (nc s') cn (methodOf req) (Copy1.requestURI rt req) s')
          = inr response
       /\ Spec.authorizationOf cfg
          = Some (Spec.render
                    (Spec.directives false (username config) c
                       (Copy1.requestURI rt req) response
                       (formatNonceCount (nc s')) cn)))
  /\ (forall cfg,
        result (Copy2.requestInterceptor rt config net cn req s) = inr cfg ->
        let s' := cache (Copy2.requestInterceptor rt config net cn req s) in
        exists c response,
          cachedChallenge s' = Some c
          /\ result (Copy2.calculateDigestResponse rt (username config) (password config)
                       c (nc s') cn (methodOf req) (uri2 rt req) s')
             = inr response
          /\ Spec.authorizationOf cfg
             = Some (Spec.render
                       (Spec.directives true (username config) c
                          (uri2 rt req) response
                          (formatNonceCount (nc s')) cn))).
Proof.
  split; intros cfg Hres.
  - now apply intercept1_header.
  - now apply intercept2_header.
Qed.

(** A first request to a device that sends every directive, through the
    theorem. *)
Lemma C5_authorization_directives_witness :
  match result (Copy2.requestInterceptor Sample.runtime Sample.admin
                  (Sample.device Sample.fullHeader) "0a4f113b" Sample.doorRequest
                  createDigestAuth) with
  | inr cfg =>
      exists c response,
        cachedChallenge
          (cache (Copy2.requestInterceptor Sample.runtime Sample.admin
                    (Sample.device Sample.fullHeader) "0a4f113b" Sample.doorRequest
                    createDigestAuth)) = Some c
        /\ result (Copy2.calculateDigestResponse Sample.runtime "admin" "secret" c 1
                     "0a4f113b" "PUT" Sample.doorURI
                     {| nc := 1; cachedChallenge := Some Sample.fullChallenge |})
           = inr response
        /\ Spec.authorizationOf cfg
           = Some (Spec.render
                     (Spec.directives true "admin" c Sample.doorURI response
                        "00000001" "0a4f113b"))
  | inl _ => False
  end.
Proof.
  destruct (result (Copy2.requestInterceptor Sample.runtime Sample.admin
                      (Sample.device Sample.fullHeader) "0a4f113b"
                      Sample.doorRequest createDigestAuth)) as [e | cfg] eqn:Hres.
  - vm_compute in Hres. discriminate.
  - exact (proj2 (C5_authorization_directives Sample.runtime Sample.admin
                    (Sample.device Sample.fullHeader) "0a4f113b"
                    Sample.doorRequest createDigestAuth) cfg Hres).
Defined.

(** C5 as stated fails in two places.  The first copy never lists
    [algorithm]: the challenge below carries [algorithm=MD5] and the header
    ends with [opaque].  And a [qop] that the challenge declares with an
    empty value is not listed, by either copy: the header stops after
    [response]. *)
Lemma C5_counterexample :
  (cachedChallenge
     (cache (Copy1.requestInterceptor Sample.runtime Sample.admin
               (Sample.device Sample.fullHeader) "0a4f113b" Sample.doorRequest
               createDigestAuth)) = Some Sample.fullChallenge
   /\ algorithm Sample.fullChallenge = Some "MD5"
   /\ Spec.authorizationIn
        (Copy1.requestInterceptor Sample.runtime Sample.admin
           (Sample.device Sample.fullHeader) "0a4f113b" Sample.doorRequest
           createDigestAuth)
      = Some (Spec.render
                [ Spec.quotedDirective "username" "admin";
                  Spec.quotedDirective "realm" "example";
                  Spec.quotedDirective "nonce" "abc123";
                  Spec.quotedDirective "uri" Sample.doorURI;
                  Spec.quotedDirective "response" "4c014610cc2be72386d21a13bf606acf";
                  Spec.bareDirective "qop" "auth";
                  Spec.bareDirective "nc" "00000001";
                  Spec.quotedDirective "cnonce" "0a4f113b";
                  Spec.quotedDirective "opaque" "5ccc" ]))
  /\ (cachedChallenge
        (cache (Copy2.requestInterceptor Sample.runtime Sample.admin
                  (Sample.device Sample.emptyQopHeader) "0a4f113b" Sample.doorRequest
                  createDigestAuth)) = Some Sample.emptyQop
      /\ qop Sample.emptyQop = Some ""
      /\ Spec.authorizationIn
           (Copy2.requestInterceptor Sample.runtime Sample.admin
              (Sample.device Sample.emptyQopHeader) "0a4f113b" Sample.doorRequest
              createDigestAuth)
         = Some (Spec.render
                   [ Spec.quotedDirective "username" "admin";
                     Spec.quotedDirective "realm" "example";
                     Spec.quotedDirective "nonce" "abc123";
                     Spec.quotedDirective "uri" Sample.doorURI;
                     Spec.quotedDirective "response" "cdffc1f88694c5d3a7a21402c64f8158" ])).
Proof. vm_compute. repeat split; reflexivity. Qed.

(** ** The cache as a state machine *)

Section Counting.

Lemma probes_app (a b : list Event) :
  Spec.probes (a ++ b) = (Spec.probes a + Spec.probes b)%nat.
Proof. unfold Spec.probes. now rewrite List.filter_app, List.length_app. Qed.

Lemma dispatches_app (a b : list Event) :
  Spec.dispatches (a ++ b) = (Spec.dispatches a + Spec.dispatches b)%nat.
Proof. unfold Spec.dispatches. now rewrite List.filter_app, List.length_app. Qed.

Lemma acquire_probes challengeText net req s :
  Spec.probes (trace (acquireWith challengeText net req s)) = 1%nat
  /\ Spec.dispatches (trace (acquireWith challengeText net req s)) = 0%nat.
Proof. destruct (acquire_cases challengeText net req s); split; reflexivity. Qed.

Lemma authorize1_quiet rt config cn req s :
  Spec.probes (trace (Copy1.authorize rt config cn req s)) = 0%nat
  /\ Spec.dispatches (trace (Copy1.authorize rt config cn req s)) = 0%nat.
Proof.
  destruct (cachedChallenge s) as [c |] eqn:Hc.
  - destruct (createHash rt "md5") as [hash |] eqn:Hh.
    + now rewrite (authorize1_ok rt config cn req s c hash Hc Hh).
    + now rewrite (authorize1_unknown rt config cn req s c Hc Hh).
  - now rewrite authorize1_none.
Qed.

Lemma uriWarning_quiet rt req :
  Spec.probes (uriWarning rt req) = 0%nat
  /\ Spec.dispatches (uriWarning rt req) = 0%nat.
Proof. unfold uriWarning. destruct (newURL rt _ _); split; reflexivity. Qed.

Lemma authorize2_quiet rt config cn req s :
  Spec.probes (trace (Copy2.authorize rt config cn req s)) = 0%nat
  /\ Spec.dispatches (trace (Copy2.authorize rt config cn req s)) = 0%nat.
Proof.
  destruct (uriWarning_quiet rt req) as [Hp Hd].
  destruct (cachedChallenge s) as [c |] eqn:Hc.
  - destruct (createHash rt (Js.toLowerCase (Js.orElse (algorithm c) "MD5")))
      as [hash |] eqn:Hh.
    + rewrite (authorize2_ok rt config cn req s c hash Hc Hh). simpl.
      rewrite probes_app, dispatches_app, Hp, Hd. split; reflexivity.
    + now rewrite (authorize2_unknown rt config cn req s c Hc Hh).
  - now rewrite authorize2_none.
Qed.

(** Cache, probes and dispatches of a gate followed by the header assembly,
    when the assembly neither moves the cache nor touches the network. *)
Lemma intercept_summary (pre : M unit) (auth : M AxiosRequestConfig) (s : Cache) :
  (forall s1, cache (auth s1) = s1) ->
  (forall s1, Spec.probes (trace (auth s1)) = 0%nat
              /\ Spec.dispatches (trace (auth s1)) = 0%nat) ->
  cache (tryCatch (pre >> auth) rethrow s) = cache (pre s)
  /\ Spec.probes (trace (tryCatch (pre >> auth) rethrow s)) = Spec.probes (trace (pre s))
  /\ Spec.dispatches (trace (tryCatch (pre >> auth) rethrow s))
     = Spec.dispatches (trace (pre s)).
Proof.
  intros Hcache Hquiet. rewrite intercept_shape.
  assert (Hlog : forall e, Spec.probes [digestAuthError e] = 0%nat
                           /\ Spec.dispatches [digestAuthError e] = 0%nat)
    by (intros e; split; reflexivity).
  destruct (result (pre s)) as [e | []]; simpl.
  - destruct (Hlog e) as [Hp Hd].
    rewrite probes_app, dispatches_app, Hp, Hd. repeat split; lia.
  - specialize (Hcache (cache (pre s))).
    destruct (Hquiet (cache (pre s))) as [Hp Hd].
    destruct (result (auth (cache (pre s)))) as [e | cfg]; simpl.
    + destruct (Hlog e) as [Hp' Hd'].
      rewrite !probes_app, !dispatches_app, Hp, Hd, Hp', Hd'.
      repeat split; try assumption; lia.
    + rewrite probes_app, dispatches_app, Hp, Hd.
      repeat split; try assumption; lia.
Qed.

Variable rt : Runtime.
Variable config : DigestAuthConfig.
Variable net : Network.
Variable cn : string.
Variable req : AxiosRequestConfig.
Variable s : Cache.

Lemma intercept1_summary :
  let pre := if over Copy1.ceiling s then Copy1.acquire net req else set_nc (nc s + 1) in
  cache (Copy1.requestInterceptor rt config net cn req s) = cache (pre s)
  /\ Spec.probes (trace (Copy1.requestInterceptor rt config net cn req s))
     = Spec.probes (trace (pre s))
  /\ Spec.dispatches (trace (Copy1.requestInterceptor rt config net cn req s))
     = Spec.dispatches (trace (pre s)).
Proof.
  intros pre. rewrite intercept1_unfold.
  apply intercept_summary; intros s1;
    [apply authorize1_cache | apply authorize1_quiet].
Qed.

Lemma intercept2_summary :
  let pre := if over Copy2.ceiling s then Copy2.acquire net req else set_nc (nc s + 1) in
  cache (Copy2.requestInterceptor rt config net cn req s) = cache (pre s)
  /\ Spec.probes (trace (Copy2.requestInterceptor rt config net cn req s))
     = Spec.probes (trace (pre s))
  /\ Spec.dispatches (trace (Copy2.requestInterceptor rt config net cn req s))
     = Spec.dispatches (trace (pre s)).
Proof.
  intros pre. rewrite intercept2_unfold.
  apply intercept_summary; intros s1;
    [apply authorize2_cache | apply authorize2_quiet].
Qed.

End Counting.

Lemma offers_installs net req challengeText c s :
  Spec.offers net req challengeText c ->
  acquireWith challengeText net req s
  = {| trace := [ConsoleLog [LText "Requesting new digest challenge..."];
                 Probe (probeConfig req);
                 ConsoleLog [LText "Desafio analisado:"; LChallenge c]];
       cache := {| nc := 1; cachedChallenge := Some c |};
       result := inr tt |}.
Proof.
  intros (h & Hnet & Hi & -> & Hr & Hn).
  apply acquire_ok; [assumption .. |].
  apply truthyStr_true in Hr, Hn. now rewrite Hr, Hn.
Qed.

(** C3.  From the empty cache a successful acquisition leaves the challenge
    of the probe with count 1; a request that finds a challenge and a count
    not above the ceiling (99 in the first copy, 9999 in the second) keeps
    the challenge, adds exactly one to the count and sends no probe; a
    request that finds the count above the ceiling sends one probe, and when
    that acquisition succeeds the cache holds the new challenge with count
    1, whatever challenge it held before. *)
Theorem C3_cache_state_machine
    (rt : Runtime) (config : DigestAuthConfig) (net : Network) (cn : string)
    (req : AxiosRequestConfig) (s : Cache) :
  (forall c,
     cachedChallenge s = None ->
     (Spec.offers net req Copy1.digestPart c ->
      cache (Copy1.requestInterceptor rt config net cn req s)
      = {| nc := 1; cachedChallenge := Some c |})
     /\ (Spec.offers net req (fun h => h) c ->
         cache (Copy2.requestInterceptor rt config net cn req s)
         = {| nc := 1; cachedChallenge := Some c |}))
  /\ (forall c,
        cachedChallenge s = Some c ->
        (nc s <= 99 ->
         cache (Copy1.requestInterceptor rt config net cn req s)
         = {| nc := nc s + 1; cachedChallenge := Some c |}
         /\ Spec.probes (trace (Copy1.requestInterceptor rt config net cn req s)) = 0%nat)
        /\ (nc s <= 9999 ->
            cache (Copy2.requestInterceptor rt config net cn req s)
            = {| nc := nc s + 1; cachedChallenge := Some c |}
            /\ Spec.probes (trace (Copy2.requestInterceptor rt config net cn req s))
               = 0%nat))
  /\ (forall c',
        (99 < nc s ->
         Spec.probes (trace (Copy1.requestInterceptor rt config net cn req s)) = 1%nat
         /\ (Spec.offers net req Copy1.digestPart c' ->
             cache (Copy1.requestInterceptor rt config net cn req s)
             = {| nc := 1; cachedChallenge := Some c' |}))
        /\ (9999 < nc s ->
            Spec.probes (trace (Copy2.requestInterceptor rt config net cn req s)) = 1%nat
            /\ (Spec.offers net req (fun h => h) c' ->
                cache (Copy2.requestInterceptor rt config net cn req s)
                = {| nc := 1; cachedChallenge := Some c' |}))).
Proof.
  destruct (intercept1_summary rt config net cn req s) as (Hc1 & Hp1 & _).
  destruct (intercept2_summary rt config net cn req s) as (Hc2 & Hp2 & _).
  simpl in *. rewrite Hc1, Hc2, Hp1, Hp2. clear Hc1 Hc2 Hp1 Hp2.
  split; [| split].
  - intros c Hnone. rewrite !(over_empty _ s Hnone).
    split; intros Hoff; unfold Copy1.acquire, Copy2.acquire;
      now rewrite (offers_installs _ _ _ c s Hoff).
  - intros c Hsome. split; intros Hle.
    + rewrite (over_active Copy1.ceiling s c Hsome Hle), set_nc_run. simpl.
      now rewrite Hsome.
    + rewrite (over_active Copy2.ceiling s c Hsome Hle), set_nc_run. simpl.
      now rewrite Hsome.
  - intros c'. split; intros Hgt.
    + rewrite (over_above Copy1.ceiling s Hgt). unfold Copy1.acquire. split.
      * apply acquire_probes.
      * intros Hoff. now rewrite (offers_installs _ _ _ c' s Hoff).
    + rewrite (over_above Copy2.ceiling s Hgt). unfold Copy2.acquire. split.
      * apply acquire_probes.
      * intros Hoff. now rewrite (offers_installs _ _ _ c' s Hoff).
Qed.

(** The count rises by one per request up to the ceiling; the request
    after that asks for a challenge again. *)
Lemma C3_cache_state_machine_witness :
  Spec.offers (Sample.device Sample.fullHeader) Sample.doorRequest Copy1.digestPart
    Sample.fullChallenge
  /\ cache (Copy1.requestInterceptor Sample.runtime Sample.admin
              (Sample.device Sample.fullHeader) "0a4f113b" Sample.doorRequest
              createDigestAuth)
     = {| nc := 1; cachedChallenge := Some Sample.fullChallenge |}
  /\ cache (Copy1.requestInterceptor Sample.runtime Sample.admin
              (Sample.device Sample.fullHeader) "0a4f113b" Sample.doorRequest
              {| nc := 99; cachedChallenge := Some Sample.withAuth |})
     = {| nc := 100; cachedChallenge := Some Sample.withAuth |}
  /\ cache (Copy1.requestInterceptor Sample.runtime Sample.admin
              (Sample.device Sample.fullHeader) "0a4f113b" Sample.doorRequest
              {| nc := 100; cachedChallenge := Some Sample.withAuth |})
     = {| nc := 1; cachedChallenge := Some Sample.fullChallenge |}.
Proof.
  assert (Hoff : Spec.offers (Sample.device Sample.fullHeader) Sample.doorRequest
                   Copy1.digestPart Sample.fullChallenge).
  { exists Sample.fullHeader. repeat split; discriminate. }
  split; [exact Hoff |]. split; [| split].
  - exact (proj1 (proj1 (C3_cache_state_machine Sample.runtime Sample.admin
                           (Sample.device Sample.fullHeader) "0a4f113b"
                           Sample.doorRequest createDigestAuth)
                    Sample.fullChallenge eq_refl) Hoff).
  - refine (proj1 (proj1 (proj1 (proj2 (C3_cache_state_machine Sample.runtime
                                          Sample.admin (Sample.device Sample.fullHeader)
                                          "0a4f113b" Sample.doorRequest
                                          {| nc := 99;
                                             cachedChallenge := Some Sample.withAuth |}))
                            Sample.withAuth eq_refl) _)).
    simpl. lia.
  - refine (proj2 (proj1 (proj2 (proj2 (C3_cache_state_machine Sample.runtime
                                          Sample.admin (Sample.device Sample.fullHeader)
                                          "0a4f113b" Sample.doorRequest
                                          {| nc := 100;
                                             cachedChallenge := Some Sample.withAuth |}))
                            Sample.fullChallenge) _) Hoff).
    simpl. lia.
Defined.

(** ** Acquisition failures *)

(** C6, as amended.  An acquisition throws the invalid-challenge error
    exactly when the probe is answered 401 with a header that mentions
    [digest ] and the parser finds an empty realm or an empty nonce in it;
    and an acquisition that returns leaves in the cache, with count 1, a
    challenge whose realm and nonce are not empty. *)
Theorem C6_invalid_challenge
    (net : Network) (req : AxiosRequestConfig) (s : Cache) :
  (forall c,
     (result (Copy1.acquire net req s) = inl (InvalidDigestChallenge c)
      <-> exists h,
            net (probeConfig req) = HttpResponse 401 (Some h)
            /\ Js.includes (Js.toLowerCase h) "digest " = true
            /\ c = parseDigestChallenge (Copy1.digestPart h)
            /\ (realm c = "" \/ nonce c = ""))
     /\ (result (Copy2.acquire net req s) = inl (InvalidDigestChallenge c)
         <-> exists h,
               net (probeConfig req) = HttpResponse 401 (Some h)
               /\ Js.includes (Js.toLowerCase h) "digest " = true
               /\ c = parseDigestChallenge h
               /\ (realm c = "" \/ nonce c = "")))
  /\ (result (Copy1.acquire net req s) = inr tt ->
      exists c,
        cache (Copy1.acquire net req s) = {| nc := 1; cachedChallenge := Some c |}
        /\ realm c <> "" /\ nonce c <> "")
  /\ (result (Copy2.acquire net req s) = inr tt ->
      exists c,
        cache (Copy2.acquire net req s) = {| nc := 1; cachedChallenge := Some c |}
        /\ realm c <> "" /\ nonce c <> "").
Proof.
  assert (Hiff : forall challengeText c,
            result (acquireWith challengeText net req s) = inl (InvalidDigestChallenge c)
            <-> exists h,
                  net (probeConfig req) = HttpResponse 401 (Some h)
                  /\ Js.includes (Js.toLowerCase h) "digest " = true
                  /\ c = parseDigestChallenge (challengeText h)
                  /\ (realm c = "" \/ nonce c = "")).
  { intros challengeText c. split.
    - destruct (acquire_cases challengeText net req s)
        as [| | | | h Hnet Hi Hv |]; simpl; try discriminate.
      intros [= <-]. exists h. repeat split; try assumption.
      apply andb_false_iff in Hv as [Hv | Hv]; apply truthyStr_false in Hv; auto.
    - intros (h & Hnet & Hi & -> & Hempty).
      rewrite (acquire_invalid challengeText net req s h Hnet Hi); [reflexivity |].
      apply andb_false_iff.
      destruct Hempty as [He | He]; [left | right]; now apply truthyStr_false. }
  assert (Hok : forall challengeText,
            result (acquireWith challengeText net req s) = inr tt ->
            exists c,
              cache (acquireWith challengeText net req s)
              = {| nc := 1; cachedChallenge := Some c |}
              /\ realm c <> "" /\ nonce c <> "").
  { intros challengeText.
    destruct (acquire_cases challengeText net req s)
      as [| | | | | h Hnet Hi Hv]; simpl; try discriminate.
    intros _. eexists. split; [reflexivity |].
    apply andb_true_iff in Hv as [Hr Hn]. split; now apply truthyStr_true. }
  split; [| split].
  - intros c. split; apply Hiff.
  - apply Hok.
  - apply Hok.
Qed.

(** A device that sends a realm and no nonce, and one that sends both,
    through the theorem. *)
Lemma C6_invalid_challenge_witness :
  result (Copy2.acquire (Sample.device Sample.noNonceHeader) Sample.doorRequest
            createDigestAuth)
  = inl (InvalidDigestChallenge Sample.noNonce)
  /\ exists c,
       cache (Copy2.acquire (Sample.device Sample.fullHeader) Sample.doorRequest
                createDigestAuth)
       = {| nc := 1; cachedChallenge := Some c |}
       /\ realm c <> "" /\ nonce c <> "".
Proof.
  split.
  - apply (proj2 (proj1 (C6_invalid_challenge (Sample.device Sample.noNonceHeader)
                           Sample.doorRequest createDigestAuth) Sample.noNonce)).
    exists Sample.noNonceHeader. repeat split. now right.
  - apply (proj2 (proj2 (C6_invalid_challenge (Sample.device Sample.fullHeader)
                           Sample.doorRequest createDigestAuth))).
    reflexivity.
Defined.

(** C6 as stated fails on a realm made of white space: the check is for the
    empty string only, so the acquisition returns and the challenge is
    cached. *)
Lemma C6_counterexample :
  result (Copy1.acquire (Sample.device Sample.blankRealmHeader) Sample.doorRequest
            createDigestAuth) = inr tt
  /\ cache (Copy1.acquire (Sample.device Sample.blankRealmHeader) Sample.doorRequest
              createDigestAuth)
     = {| nc := 1; cachedChallenge := Some Sample.blankRealm |}
  /\ result (Copy2.acquire (Sample.device Sample.blankRealmHeader) Sample.doorRequest
               createDigestAuth) = inr tt
  /\ cache (Copy2.acquire (Sample.device Sample.blankRealmHeader) Sample.doorRequest
              createDigestAuth)
     = {| nc := 1; cachedChallenge := Some Sample.blankRealm |}
  /\ realm Sample.blankRealm = " "
  /\ Spec.nonBlank (realm Sample.blankRealm) = false.
Proof. vm_compute. repeat split; reflexivity. Qed.

(** The challenge is assigned to the cache before it is checked (lines 136
    and 350 come before lines 139 and 354), so a rejected challenge stays
    there: the next request finds a challenge, sends no probe and builds its
    header from the empty nonce. *)
Example rejected_challenge_stays_cached :
  result (Copy2.requestInterceptor Sample.runtime Sample.admin
            (Sample.device Sample.noNonceHeader) "0a4f113b" Sample.doorRequest
            createDigestAuth)
  = inl (InvalidDigestChallenge Sample.noNonce)
  /\ cache (Copy2.requestInterceptor Sample.runtime Sample.admin
              (Sample.device Sample.noNonceHeader) "0a4f113b" Sample.doorRequest
              createDigestAuth)
     = {| nc := 0; cachedChallenge := Some Sample.noNonce |}
  /\ Spec.probes
       (trace (Copy2.requestInterceptor Sample.runtime Sample.admin
                 (Sample.device Sample.fullHeader) "0a4f113b" Sample.doorRequest
                 {| nc := 0; cachedChallenge := Some Sample.noNonce |})) = 0%nat
  /\ Spec.authorizationIn
       (Copy2.requestInterceptor Sample.runtime Sample.admin
          (Sample.device Sample.fullHeader) "0a4f113b" Sample.doorRequest
          {| nc := 0; cachedChallenge := Some Sample.noNonce |})
     = Some (Spec.render
               [ Spec.quotedDirective "username" "admin";
                 Spec.quotedDirective "realm" "example";
                 Spec.quotedDirective "nonce" "";
                 Spec.quotedDirective "uri" Sample.doorURI;
                 Spec.quotedDirective "response"
                   (MD5.hex (MD5.hex "admin:example:secret" ++ "::"
                             ++ MD5.hex ("PUT:" ++ Sample.doorURI))) ]).
Proof. vm_compute. repeat split; reflexivity. Qed.

(** ** A whole call *)

Section Perform.

Lemma responseRejected_run {A} (e : Error) (s : Cache) :
  @responseRejected A e s
  = if is401 e && bool_decide (is_Some (cachedChallenge s))
    then {| trace := [ConsoleLog [LText "Auth failed with 401, clearing cached challenge"]];
            cache := {| nc := 0; cachedChallenge := None |};
            result := inl e |}
    else {| trace := []; cache := s; result := inl e |}.
Proof.
  unfold responseRejected. rewrite bind_readCache.
  destruct (is401 e && bool_decide (is_Some (cachedChallenge s))); reflexivity.
Qed.

Lemma dispatchRequest_run (net : Network) (cfg : AxiosRequestConfig) (s : Cache) :
  dispatchRequest net cfg s
  = {| trace := [Dispatch cfg]; cache := s;
       result :=
         match net cfg with
         | NetworkError => inl (AxiosError None)
         | HttpResponse st h =>
             if default defaultValidateStatus (validateStatus cfg) st
             then inr {| status := st; www_authenticate := h |}
             else inl (AxiosError (Some {| status := st; www_authenticate := h |}))
         end |}.
Proof.
  unfold dispatchRequest, settle, bind, emit. simpl.
  destruct (net cfg) as [| st h]; [reflexivity |].
  destruct (default defaultValidateStatus (validateStatus cfg) st); reflexivity.
Qed.

(** A call whose request interceptor throws: the error reaches the error
    handler of the response interceptor and then the caller; nothing is
    dispatched. *)
Lemma perform_intercept_error (intercept : M AxiosRequestConfig) (net : Network)
    (s : Cache) (e : Error) :
  result (intercept s) = inl e ->
  tryCatch (let* cfg := intercept in dispatchRequest net cfg) responseRejected s
  = {| trace := trace (intercept s)
                ++ trace (@responseRejected AxiosResponse e (cache (intercept s)));
       cache := cache (@responseRejected AxiosResponse e (cache (intercept s)));
       result := inl e |}.
Proof.
  intros He. unfold tryCatch, bind.
  destruct (intercept s) as [t s1 r]. simpl in He. subst r.
  cbn [trace cache result]. rewrite !responseRejected_run.
  destruct (is401 e && bool_decide (is_Some (cachedChallenge s1))); reflexivity.
Qed.

(** A call whose request interceptor returns [cfg] and whose request axios
    rejects with [e]. *)
Lemma perform_rejected (intercept : M AxiosRequestConfig) (net : Network)
    (s : Cache) (cfg : AxiosRequestConfig) (e : Error) :
  result (intercept s) = inr cfg ->
  result (dispatchRequest net cfg (cache (intercept s))) = inl e ->
  tryCatch (let* cfg := intercept in dispatchRequest net cfg) responseRejected s
  = {| trace := (trace (intercept s) ++ [Dispatch cfg])
                ++ trace (@responseRejected AxiosResponse e (cache (intercept s)));
       cache := cache (@responseRejected AxiosResponse e (cache (intercept s)));
       result := inl e |}.
Proof.
  intros Hcfg He. unfold tryCatch, bind.
  destruct (intercept s) as [t s1 r]. cbn [trace cache result] in *. subst r.
  rewrite dispatchRequest_run in *. cbn [trace cache result] in *. rewrite He.
  rewrite !responseRejected_run.
  destruct (is401 e && bool_decide (is_Some (cachedChallenge s1))); reflexivity.
Qed.

(** A call whose request axios resolves. *)
Lemma perform_resolved (intercept : M AxiosRequestConfig) (net : Network)
    (s : Cache) (cfg : AxiosRequestConfig) (r : AxiosResponse) :
  result (intercept s) = inr cfg ->
  result (dispatchRequest net cfg (cache (intercept s))) = inr r ->
  tryCatch (let* cfg := intercept in dispatchRequest net cfg) responseRejected s
  = {| trace := trace (intercept s) ++ [Dispatch cfg];
       cache := cache (intercept s);
       result := inr r |}.
Proof.
  intros Hcfg Hr. unfold tryCatch, bind.
  destruct (intercept s) as [t s1 r0]. cbn [trace cache result] in *. subst r0.
  rewrite dispatchRequest_run in *. cbn [trace cache result] in *. rewrite Hr.
  reflexivity.
Qed.

Lemma responseRejected_quiet {A} (e : Error) (s : Cache) :
  Spec.probes (trace (@responseRejected A e s)) = 0%nat
  /\ Spec.dispatches (trace (@responseRejected A e s)) = 0%nat.
Proof.
  rewrite responseRejected_run.
  destruct (is401 e && bool_decide (is_Some (cachedChallenge s))); split; reflexivity.
Qed.

(** The probes of a call are those of its request interceptor. *)
Lemma perform_probes (intercept : M AxiosRequestConfig) (net : Network) (s : Cache) :
  Spec.probes
    (trace (tryCatch (let* cfg := intercept in dispatchRequest net cfg)
              responseRejected s))
  = Spec.probes (trace (intercept s)).
Proof.
  destruct (result (intercept s)) as [e | cfg] eqn:Hi.
  - rewrite (perform_intercept_error intercept net s e Hi). simpl.
    rewrite probes_app.
    destruct (@responseRejected_quiet AxiosResponse e (cache (intercept s))) as [-> _].
    lia.
  - destruct (result (dispatchRequest net cfg (cache (intercept s)))) as [e | r] eqn:Hd.
    + rewrite (perform_rejected intercept net s cfg e Hi Hd). simpl.
      rewrite !probes_app.
      destruct (@responseRejected_quiet AxiosResponse e (cache (intercept s))) as [-> _].
      change (Spec.probes [Dispatch cfg]) with 0%nat. lia.
    + rewrite (perform_resolved intercept net s cfg r Hi Hd). simpl.
      rewrite probes_app. change (Spec.probes [Dispatch cfg]) with 0%nat. lia.
Qed.

End Perform.

Section FailedAcquisition.

Variable rt : Runtime.
Variable config : DigestAuthConfig.
Variables probeNet net : Network.
Variable cn : string.
Variable req : AxiosRequestConfig.
Variable s : Cache.

Lemma intercept1_acquire_error (e : Error) :
  over Copy1.ceiling s = true ->
  result (Copy1.acquire probeNet req s) = inl e ->
  Copy1.requestInterceptor rt config probeNet cn req s
  = {| trace := trace (Copy1.acquire probeNet req s) ++ [digestAuthError e];
       cache := cache (Copy1.acquire probeNet req s);
       result := inl e |}.
Proof.
  intros Ho He. rewrite intercept1_unfold, intercept_shape, Ho, He. reflexivity.
Qed.

Lemma intercept2_acquire_error (e : Error) :
  over Copy2.ceiling s = true ->
  result (Copy2.acquire probeNet req s) = inl e ->
  Copy2.requestInterceptor rt config probeNet cn req s
  = {| trace := trace (Copy2.acquire probeNet req s) ++ [digestAuthError e];
       cache := cache (Copy2.acquire probeNet req s);
       result := inl e |}.
Proof.
  intros Ho He. rewrite intercept2_unfold, intercept_shape, Ho, He. reflexivity.
Qed.

(** A call whose acquisition throws [e], when [e] does not carry a 401
    response: [e] reaches the caller, the cache stays as the acquisition left
    it, and the trace is that of the acquisition and the error log. *)
Lemma perform1_acquire_error (e : Error) :
  over Copy1.ceiling s = true ->
  result (Copy1.acquire probeNet req s) = inl e ->
  is401 e = false ->
  Copy1.perform rt config probeNet net cn req s
  = {| trace := (trace (Copy1.acquire probeNet req s) ++ [digestAuthError e]) ++ [];
       cache := cache (Copy1.acquire probeNet req s);
       result := inl e |}.
Proof.
  intros Ho He H401. unfold Copy1.perform.
  rewrite (perform_intercept_error _ net s e);
    rewrite (intercept1_acquire_error e Ho He); [| reflexivity].
  cbn [trace cache result]. rewrite responseRejected_run, H401. reflexivity.
Qed.

Lemma perform2_acquire_error (e : Error) :
  over Copy2.ceiling s = true ->
  result (Copy2.acquire probeNet req s) = inl e ->
  is401 e = false ->
  Copy2.perform rt config probeNet net cn req s
  = {| trace := (trace (Copy2.acquire probeNet req s) ++ [digestAuthError e]) ++ [];
       cache := cache (Copy2.acquire probeNet req s);
       result := inl e |}.
Proof.
  intros Ho He H401. unfold Copy2.perform.
  rewrite (perform_intercept_error _ net s e);
    rewrite (intercept2_acquire_error e Ho He); [| reflexivity].
  cbn [trace cache result]. rewrite responseRejected_run, H401. reflexivity.
Qed.

End FailedAcquisition.

(** C7, as amended.  With an empty cache a call sends exactly one probe,
    which carries no headers.  When the probe is answered with a status
    other than 401, the call fails with the error axios makes of that
    response, nothing is dispatched and no [Authorization] value goes on the
    wire.  When it is answered 401 without a [WWW-Authenticate] value, the
    call fails with the missing-header error.  When the value is there and
    does not contain [digest ], in any mix of capitals, the call fails with
    the invalid-type error. *)
Theorem C7_probe_failures
    (rt : Runtime) (config : DigestAuthConfig) (probeNet net : Network)
    (cn : string) (req : AxiosRequestConfig) (s : Cache) :
  cachedChallenge s = None ->
  (Spec.probes (trace (Copy1.perform rt config probeNet net cn req s)) = 1%nat
   /\ Spec.probes (trace (Copy2.perform rt config probeNet net cn req s)) = 1%nat
   /\ headers (probeConfig req) = None)
  /\ (forall st h,
        probeNet (probeConfig req) = HttpResponse st h -> st <> 401 ->
        let e := AxiosError (Some {| status := st; www_authenticate := h |}) in
        (result (Copy1.perform rt config probeNet net cn req s) = inl e
         /\ Spec.dispatches (trace (Copy1.perform rt config probeNet net cn req s)) = 0%nat
         /\ Spec.authorizationsSent (trace (Copy1.perform rt config probeNet net cn req s))
            = [])
        /\ (result (Copy2.perform rt config probeNet net cn req s) = inl e
            /\ Spec.dispatches (trace (Copy2.perform rt config probeNet net cn req s))
               = 0%nat
            /\ Spec.authorizationsSent
                 (trace (Copy2.perform rt config probeNet net cn req s)) = []))
  /\ (forall h,
        probeNet (probeConfig req) = HttpResponse 401 h -> h = None \/ h = Some "" ->
        result (Copy1.perform rt config probeNet net cn req s) = inl MissingWWWAuthenticate
        /\ result (Copy2.perform rt config probeNet net cn req s)
           = inl MissingWWWAuthenticate)
  /\ (forall h,
        probeNet (probeConfig req) = HttpResponse 401 (Some h) -> h <> "" ->
        Js.includes (Js.toLowerCase h) "digest " = false ->
        result (Copy1.perform rt config probeNet net cn req s)
        = inl (InvalidAuthenticationType h)
        /\ result (Copy2.perform rt config probeNet net cn req s)
           = inl (InvalidAuthenticationType h)).
Proof.
  intros Hnone.
  pose proof (over_empty Copy1.ceiling s Hnone) as Ho1.
  pose proof (over_empty Copy2.ceiling s Hnone) as Ho2.
  split; [| split; [| split]].
  - unfold Copy1.perform, Copy2.perform. rewrite !perform_probes.
    destruct (intercept1_summary rt config probeNet cn req s) as (_ & -> & _).
    destruct (intercept2_summary rt config probeNet cn req s) as (_ & -> & _).
    rewrite Ho1, Ho2. unfold Copy1.acquire, Copy2.acquire.
    repeat split; apply acquire_probes.
  - intros st h Hnet Hst e.
    assert (H401 : is401 e = false).
    { unfold is401, e. simpl. now apply Z.eqb_neq. }
    rewrite (perform1_acquire_error rt config probeNet net cn req s e Ho1);
      [| unfold Copy1.acquire; now rewrite (acquire_refused _ _ _ _ st h Hnet Hst) | exact H401].
    rewrite (perform2_acquire_error rt config probeNet net cn req s e Ho2);
      [| unfold Copy2.acquire; now rewrite (acquire_refused _ _ _ _ st h Hnet Hst) | exact H401].
    unfold Copy1.acquire, Copy2.acquire.
    rewrite !(acquire_refused _ _ _ _ st h Hnet Hst).
    repeat split; reflexivity.
  - intros h Hnet Hh.
    assert (Ht : Js.truthy h = false) by (destruct Hh as [-> | ->]; reflexivity).
    rewrite (perform1_acquire_error rt config probeNet net cn req s
               MissingWWWAuthenticate Ho1);
      [| unfold Copy1.acquire; now rewrite (acquire_missing _ _ _ _ h Hnet Ht)
       | reflexivity].
    rewrite (perform2_acquire_error rt config probeNet net cn req s
               MissingWWWAuthenticate Ho2);
      [| unfold Copy2.acquire; now rewrite (acquire_missing _ _ _ _ h Hnet Ht)
       | reflexivity].
    split; reflexivity.
  - intros h Hnet Hne Hinc.
    apply truthyStr_true in Hne.
    rewrite (perform1_acquire_error rt config probeNet net cn req s
               (InvalidAuthenticationType h) Ho1);
      [| unfold Copy1.acquire;
         now rewrite (acquire_other_scheme _ _ _ _ h Hnet Hne Hinc)
       | reflexivity].
    rewrite (perform2_acquire_error rt config probeNet net cn req s
               (InvalidAuthenticationType h) Ho2);
      [| unfold Copy2.acquire;
         now rewrite (acquire_other_scheme _ _ _ _ h Hnet Hne Hinc)
       | reflexivity].
    split; reflexivity.
Qed.

(** A device that answers the probe with 200, through the theorem. *)
Lemma C7_probe_failures_witness :
  cachedChallenge createDigestAuth = None
  /\ result (Copy2.perform Sample.runtime Sample.admin (Sample.always 200 None)
               (Sample.always 200 None) "0a4f113b" Sample.doorRequest createDigestAuth)
     = inl (AxiosError (Some {| status := 200; www_authenticate := None |}))
  /\ Spec.authorizationsSent
       (trace (Copy2.perform Sample.runtime Sample.admin (Sample.always 200 None)
                 (Sample.always 200 None) "0a4f113b" Sample.doorRequest
                 createDigestAuth)) = [].
Proof.
  split; [reflexivity |].
  destruct (proj1 (proj2 (C7_probe_failures Sample.runtime Sample.admin
                            (Sample.always 200 None) (Sample.always 200 None)
                            "0a4f113b" Sample.doorRequest createDigestAuth eq_refl))
              200 None eq_refl ltac:(lia)) as [_ (Hres & _ & Hsent)].
  split; [exact Hres | exact Hsent].
Defined.

(** C7 as stated fails on a header of another scheme that mentions
    [digest ] further on: the test is for the text anywhere in the value, so
    this Basic challenge is parsed and cached by both copies and the call
    goes on to send an [Authorization] value. *)
Lemma C7_counterexample :
  Spec.identifiesDigest Sample.basicHeader = false
  /\ Js.includes (Js.toLowerCase Sample.basicHeader) "digest " = true
  /\ cache (Copy1.perform Sample.runtime Sample.admin (Sample.device Sample.basicHeader)
              (Sample.device Sample.basicHeader) "0a4f113b" Sample.doorRequest
              createDigestAuth)
     = {| nc := 1; cachedChallenge := Some Sample.basicChallenge |}
  /\ result (Copy1.perform Sample.runtime Sample.admin (Sample.device Sample.basicHeader)
               (Sample.device Sample.basicHeader) "0a4f113b" Sample.doorRequest
               createDigestAuth)
     = inr {| status := 200; www_authenticate := None |}
  /\ cache (Copy2.perform Sample.runtime Sample.admin (Sample.device Sample.basicHeader)
              (Sample.device Sample.basicHeader) "0a4f113b" Sample.doorRequest
              createDigestAuth)
     = {| nc := 1; cachedChallenge := Some Sample.basicChallenge |}
  /\ result (Copy2.perform Sample.runtime Sample.admin (Sample.device Sample.basicHeader)
               (Sample.device Sample.basicHeader) "0a4f113b" Sample.doorRequest
               createDigestAuth)
     = inr {| status := 200; www_authenticate := None |}
  /\ List.length
       (Spec.authorizationsSent
          (trace (Copy2.perform Sample.runtime Sample.admin
                    (Sample.device Sample.basicHeader)
                    (Sample.device Sample.basicHeader) "0a4f113b" Sample.doorRequest
                    createDigestAuth))) = 1%nat.
Proof. vm_compute. repeat split; reflexivity. Qed.

(** ** A 401 for an authenticated request *)

Section Invalidation.

Lemma acquire_prefix challengeText net req s :
  exists rest,
    trace (acquireWith challengeText net req s)
    = ConsoleLog [LText "Requesting new digest challenge..."]
      :: Probe (probeConfig req) :: rest.
Proof. destruct (acquire_cases challengeText net req s); eexists; reflexivity. Qed.

Lemma intercept_prefix (pre : M unit) (auth : M AxiosRequestConfig) (s : Cache) :
  exists rest, trace (tryCatch (pre >> auth) rethrow s) = (trace (pre s) ++ rest)%list.
Proof.
  rewrite intercept_shape.
  destruct (result (pre s)) as [e | []]; simpl; [eexists; reflexivity |].
  destruct (result (auth (cache (pre s)))) as [e | cfg]; simpl.
  - rewrite <- app_assoc. eexists; reflexivity.
  - eexists; reflexivity.
Qed.

Lemma perform_prefix (intercept : M AxiosRequestConfig) (net : Network) (s : Cache) :
  exists rest,
    trace (tryCatch (let* cfg := intercept in dispatchRequest net cfg)
             responseRejected s)
    = (trace (intercept s) ++ rest)%list.
Proof.
  destruct (result (intercept s)) as [e | cfg] eqn:Hi.
  - rewrite (perform_intercept_error intercept net s e Hi). eexists; reflexivity.
  - destruct (result (dispatchRequest net cfg (cache (intercept s)))) as [e | r] eqn:Hd.
    + rewrite (perform_rejected intercept net s cfg e Hi Hd). simpl.
      rewrite <- app_assoc. eexists; reflexivity.
    + rewrite (perform_resolved intercept net s cfg r Hi Hd). eexists; reflexivity.
Qed.

(** What follows a rejection with status 401 of the request the interceptor
    returned, given what the interceptor left behind. *)
Lemma perform_401 (intercept : M AxiosRequestConfig) (net : Network) (s : Cache)
    (cfg : AxiosRequestConfig) (h : option string) (c : DigestChallenge) :
  result (intercept s) = inr cfg ->
  cachedChallenge (cache (intercept s)) = Some c ->
  Spec.dispatches (trace (intercept s)) = 0%nat ->
  net cfg = HttpResponse 401 h ->
  default defaultValidateStatus (validateStatus cfg) 401 = false ->
  let o := tryCatch (let* cfg := intercept in dispatchRequest net cfg)
             responseRejected s in
  result o = inl (AxiosError (Some {| status := 401; www_authenticate := h |}))
  /\ cache o = {| nc := 0; cachedChallenge := None |}
  /\ Spec.dispatches (trace o) = 1%nat.
Proof.
  intros Hcfg Hc Hd Hnet Hval o. subst o.
  set (e := AxiosError (Some {| status := 401; www_authenticate := h |})).
  assert (He : result (dispatchRequest net cfg (cache (intercept s))) = inl e).
  { rewrite dispatchRequest_run. simpl. now rewrite Hnet, Hval. }
  rewrite (perform_rejected intercept net s cfg e Hcfg He).
  rewrite responseRejected_run, Hc. simpl.
  rewrite !dispatches_app, Hd. repeat split; reflexivity.
Qed.

Variable rt : Runtime.

Lemma intercept1_probe_first config net cn req s :
  over Copy1.ceiling s = true ->
  exists rest,
    trace (Copy1.requestInterceptor rt config net cn req s)
    = ConsoleLog [LText "Requesting new digest challenge..."]
      :: Probe (probeConfig req) :: rest.
Proof.
  intros Ho. rewrite intercept1_unfold.
  destruct (intercept_prefix
              (if over Copy1.ceiling s then Copy1.acquire net req
               else set_nc (nc s + 1))
              (Copy1.authorize rt config cn req) s) as [r2 ->].
  rewrite Ho. unfold Copy1.acquire.
  destruct (acquire_prefix Copy1.digestPart net req s) as [r3 ->].
  eexists; reflexivity.
Qed.

Lemma intercept2_probe_first config net cn req s :
  over Copy2.ceiling s = true ->
  exists rest,
    trace (Copy2.requestInterceptor rt config net cn req s)
    = ConsoleLog [LText "Requesting new digest challenge..."]
      :: Probe (probeConfig req) :: rest.
Proof.
  intros Ho. rewrite intercept2_unfold.
  destruct (intercept_prefix
              (if over Copy2.ceiling s then Copy2.acquire net req
               else set_nc (nc s + 1))
              (Copy2.authorize rt config cn req) s) as [r2 ->].
  rewrite Ho. unfold Copy2.acquire.
  destruct (acquire_prefix (fun h => h) net req s) as [r3 ->].
  eexists; reflexivity.
Qed.

Lemma perform1_after_invalidation config probeNet net cn req :
  let o := Copy1.perform rt config probeNet net cn req
             {| nc := 0; cachedChallenge := None |} in
  Spec.probes (trace o) = 1%nat
  /\ exists rest,
       trace o = ConsoleLog [LText "Requesting new digest challenge..."]
                 :: Probe (probeConfig req) :: rest.
Proof.
  intros o. subst o. unfold Copy1.perform. split.
  - rewrite perform_probes.
    destruct (intercept1_summary rt config probeNet cn req
                {| nc := 0; cachedChallenge := None |}) as (_ & -> & _).
    apply acquire_probes.
  - destruct (perform_prefix (Copy1.requestInterceptor rt config probeNet cn req) net
                {| nc := 0; cachedChallenge := None |}) as [r1 ->].
    destruct (intercept1_probe_first config probeNet cn req
                {| nc := 0; cachedChallenge := None |} eq_refl) as [r2 ->].
    eexists; reflexivity.
Qed.

Lemma perform2_after_invalidation config probeNet net cn req :
  let o := Copy2.perform rt config probeNet net cn req
             {| nc := 0; cachedChallenge := None |} in
  Spec.probes (trace o) = 1%nat
  /\ exists rest,
       trace o = ConsoleLog [LText "Requesting new digest challenge..."]
                 :: Probe (probeConfig req) :: rest.
Proof.
  intros o. subst o. unfold Copy2.perform. split.
  - rewrite perform_probes.
    destruct (intercept2_summary rt config probeNet cn req
                {| nc := 0; cachedChallenge := None |}) as (_ & -> & _).
    apply acquire_probes.
  - destruct (perform_prefix (Copy2.requestInterceptor rt config probeNet cn req) net
                {| nc := 0; cachedChallenge := None |}) as [r1 ->].
    destruct (intercept2_probe_first config probeNet cn req
                {| nc := 0; cachedChallenge := None |} eq_refl) as [r2 ->].
    eexists; reflexivity.
Qed.

Lemma intercept1_dispatches config probeNet cn req s :
  Spec.dispatches (trace (Copy1.requestInterceptor rt config probeNet cn req s)) = 0%nat.
Proof.
  destruct (intercept1_summary rt config probeNet cn req s) as (_ & _ & ->).
  destruct (over Copy1.ceiling s); [apply acquire_probes | reflexivity].
Qed.

Lemma intercept2_dispatches config probeNet cn req s :
  Spec.dispatches (trace (Copy2.requestInterceptor rt config probeNet cn req s)) = 0%nat.
Proof.
  destruct (intercept2_summary rt config probeNet cn req s) as (_ & _ & ->).
  destruct (over Copy2.ceiling s); [apply acquire_probes | reflexivity].
Qed.

End Invalidation.

(** C4, as amended.  When the request the interceptor returned (so the cache
    holds a challenge) is answered 401 and axios rejects it, which it does
    unless the caller's own status check accepts 401, the call fails with that
    error, the cache is empty with count 0, and the request went on the wire
    once: nothing is sent again.  The next call, whatever it asks for, sends
    exactly one probe, and does so before anything else goes on the wire. *)
Theorem C4_invalidate_on_401
    (rt : Runtime) (config : DigestAuthConfig) (probeNet net : Network)
    (cn : string) (req : AxiosRequestConfig) (s : Cache) :
  (forall cfg h,
     result (Copy1.requestInterceptor rt config probeNet cn req s) = inr cfg ->
     net cfg = HttpResponse 401 h ->
     default defaultValidateStatus (validateStatus cfg) 401 = false ->
     let o := Copy1.perform rt config probeNet net cn req s in
     result o = inl (AxiosError (Some {| status := 401; www_authenticate := h |}))
     /\ cache o = {| nc := 0; cachedChallenge := None |}
     /\ Spec.dispatches (trace o) = 1%nat
     /\ forall config' probeNet' net' cn' req',
          let o' := Copy1.perform rt config' probeNet' net' cn' req' (cache o) in
          Spec.probes (trace o') = 1%nat
          /\ exists rest,
               trace o' = ConsoleLog [LText "Requesting new digest challenge..."]
                          :: Probe (probeConfig req') :: rest)
  /\ (forall cfg h,
        result (Copy2.requestInterceptor rt config probeNet cn req s) = inr cfg ->
        net cfg = HttpResponse 401 h ->
        default defaultValidateStatus (validateStatus cfg) 401 = false ->
        let o := Copy2.perform rt config probeNet net cn req s in
        result o = inl (AxiosError (Some {| status := 401; www_authenticate := h |}))
        /\ cache o = {| nc := 0; cachedChallenge := None |}
        /\ Spec.dispatches (trace o) = 1%nat
        /\ forall config' probeNet' net' cn' req',
             let o' := Copy2.perform rt config' probeNet' net' cn' req' (cache o) in
             Spec.probes (trace o') = 1%nat
             /\ exists rest,
                  trace o' = ConsoleLog [LText "Requesting new digest challenge..."]
                             :: Probe (probeConfig req') :: rest).
Proof.
  split; intros cfg h Hcfg Hnet Hval o.
  - destruct (intercept1_header rt config probeNet cn req s cfg Hcfg)
      as (c & _ & Hc & _).
    destruct (perform_401 (Copy1.requestInterceptor rt config probeNet cn req) net s
                cfg h c Hcfg Hc (intercept1_dispatches rt config probeNet cn req s)
                Hnet Hval) as (Hres & Hcache & Hd).
    subst o. unfold Copy1.perform at 1 2 3.
    repeat split; try assumption.
    + unfold Copy1.perform at 2. rewrite Hcache. apply perform1_after_invalidation.
    + unfold Copy1.perform at 2. rewrite Hcache. apply perform1_after_invalidation.
  - destruct (intercept2_header rt config probeNet cn req s cfg Hcfg)
      as (c & _ & Hc & _).
    destruct (perform_401 (Copy2.requestInterceptor rt config probeNet cn req) net s
                cfg h c Hcfg Hc (intercept2_dispatches rt config probeNet cn req s)
                Hnet Hval) as (Hres & Hcache & Hd).
    subst o. unfold Copy2.perform at 1 2 3.
    repeat split; try assumption.
    + unfold Copy2.perform at 2. rewrite Hcache. apply perform2_after_invalidation.
    + unfold Copy2.perform at 2. rewrite Hcache. apply perform2_after_invalidation.
Qed.

(** A device that answers 401 to everything, credentials or not, through
    the theorem: the challenge is acquired, the request is sent once and
    rejected, and the cache is empty again. *)
Lemma C4_invalidate_on_401_witness :
  result (Copy2.perform Sample.runtime Sample.admin
            (Sample.always 401 (Some Sample.fullHeader))
            (Sample.always 401 (Some Sample.fullHeader))
            "0a4f113b" Sample.doorRequest createDigestAuth)
  = inl (AxiosError (Some {| status := 401;
                             www_authenticate := Some Sample.fullHeader |}))
  /\ cache (Copy2.perform Sample.runtime Sample.admin
              (Sample.always 401 (Some Sample.fullHeader))
              (Sample.always 401 (Some Sample.fullHeader))
              "0a4f113b" Sample.doorRequest createDigestAuth)
     = {| nc := 0; cachedChallenge := None |}
  /\ Spec.dispatches
       (trace (Copy2.perform Sample.runtime Sample.admin
                 (Sample.always 401 (Some Sample.fullHeader))
                 (Sample.always 401 (Some Sample.fullHeader))
                 "0a4f113b" Sample.doorRequest createDigestAuth)) = 1%nat.
Proof.
  destruct (result (Copy2.requestInterceptor Sample.runtime Sample.admin
                      (Sample.always 401 (Some Sample.fullHeader)) "0a4f113b"
                      Sample.doorRequest createDigestAuth)) as [e | cfg] eqn:Hres.
  - vm_compute in Hres. discriminate.
  - destruct (intercept2_header _ _ _ _ _ _ _ Hres) as (c & response & _ & _ & Hauth).
    assert (Hval : default defaultValidateStatus (validateStatus cfg) 401 = false).
    { revert Hres. rewrite intercept2_unfold.
      intros Hres. apply intercept_success in Hres as (_ & Hres & _).
      revert Hres. vm_compute. intros [= <-]. reflexivity. }
    destruct (proj2 (C4_invalidate_on_401 Sample.runtime Sample.admin
                       (Sample.always 401 (Some Sample.fullHeader))
                       (Sample.always 401 (Some Sample.fullHeader))
                       "0a4f113b" Sample.doorRequest createDigestAuth)
                cfg (Some Sample.fullHeader) Hres eq_refl Hval)
      as (H1 & H2 & H3 & _).
    split; [exact H1 | split; [exact H2 | exact H3]].
Defined.

(** C4 as stated fails for a caller whose status check accepts 401: the
    response is received and handed to the caller as a success, the error
    handler of the response interceptor never runs, the challenge stays in
    the cache with its count, and the next call sends no probe. *)
Lemma C4_counterexample :
  result (Copy1.perform Sample.runtime Sample.admin
            (Sample.always 401 (Some Sample.fullHeader))
            (Sample.always 401 (Some Sample.fullHeader))
            "0a4f113b" Sample.lenientRequest
            {| nc := 1; cachedChallenge := Some Sample.fullChallenge |})
  = inr {| status := 401; www_authenticate := Some Sample.fullHeader |}
  /\ cache (Copy1.perform Sample.runtime Sample.admin
              (Sample.always 401 (Some Sample.fullHeader))
              (Sample.always 401 (Some Sample.fullHeader))
              "0a4f113b" Sample.lenientRequest
              {| nc := 1; cachedChallenge := Some Sample.fullChallenge |})
     = {| nc := 2; cachedChallenge := Some Sample.fullChallenge |}
  /\ Spec.probes
       (trace (Copy1.perform Sample.runtime Sample.admin
                 (Sample.always 401 (Some Sample.fullHeader))
                 (Sample.always 401 (Some Sample.fullHeader))
                 "7c2e9d01" Sample.lenientRequest
                 {| nc := 2; cachedChallenge := Some Sample.fullChallenge |})) = 0%nat
  /\ result (Copy2.perform Sample.runtime Sample.admin
               (Sample.always 401 (Some Sample.fullHeader))
               (Sample.always 401 (Some Sample.fullHeader))
               "0a4f113b" Sample.lenientRequest
               {| nc := 1; cachedChallenge := Some Sample.fullChallenge |})
     = inr {| status := 401; www_authenticate := Some Sample.fullHeader |}
  /\ cache (Copy2.perform Sample.runtime Sample.admin
              (Sample.always 401 (Some Sample.fullHeader))
              (Sample.always 401 (Some Sample.fullHeader))
              "0a4f113b" Sample.lenientRequest
              {| nc := 1; cachedChallenge := Some Sample.fullChallenge |})
     = {| nc := 2; cachedChallenge := Some Sample.fullChallenge |}
  /\ Spec.probes
       (trace (Copy2.perform Sample.runtime Sample.admin
                 (Sample.always 401 (Some Sample.fullHeader))
                 (Sample.always 401 (Some Sample.fullHeader))
                 "7c2e9d01" Sample.lenientRequest
                 {| nc := 2; cachedChallenge := Some Sample.fullChallenge |})) = 0%nat.
Proof. vm_compute. repeat split; reflexivity. Qed.

(** ** What reaches the console *)

Section Console.

Variable rt : Runtime.
Variable net : Network.
Variable cn : string.
Variable req : AxiosRequestConfig.
Variable s : Cache.
Variables u p1 p2 : string.

Let with1 : DigestAuthConfig := {| username := u; password := p1 |}.
Let with2 : DigestAuthConfig := {| username := u; password := p2 |}.

(** First copy: the password reaches the events through HA1 only. *)
Lemma intercept1_password :
  let s' := cache (Copy1.requestInterceptor rt with1 net cn req s) in
  (forall hash c,
     createHash rt "md5" = Some hash -> cachedChallenge s' = Some c ->
     hash (u ++ ":" ++ realm c ++ ":" ++ p1) = hash (u ++ ":" ++ realm c ++ ":" ++ p2)) ->
  trace (Copy1.requestInterceptor rt with1 net cn req s)
  = trace (Copy1.requestInterceptor rt with2 net cn req s).
Proof.
  intros s'. subst s'.
  destruct (intercept1_summary rt with1 net cn req s) as (-> & _ & _).
  rewrite !intercept1_unfold, !intercept_shape.
  set (pre := if over Copy1.ceiling s then Copy1.acquire net req else set_nc (nc s + 1)).
  intros Hha1.
  destruct (result (pre s)) as [e | []]; [reflexivity |].
  destruct (cachedChallenge (cache (pre s))) as [c |] eqn:Hc.
  2:{ now rewrite !authorize1_none. }
  destruct (createHash rt "md5") as [hash |] eqn:Hh.
  2:{ now rewrite !(authorize1_unknown _ _ _ _ _ c Hc Hh). }
  specialize (Hha1 hash c eq_refl eq_refl).
  rewrite !(authorize1_ok _ _ _ _ _ c hash Hc Hh). simpl.
  unfold calculationValues, authValue1, digestWith. simpl.
  now rewrite Hha1.
Qed.

(** Second copy: the password reaches the events through the response
    hash only. *)
Lemma intercept2_password :
  let s' := cache (Copy2.requestInterceptor rt with1 net cn req s) in
  (forall hash c,
     createHash rt (Js.toLowerCase (Spec.selectedAlgorithm c)) = Some hash ->
     cachedChallenge s' = Some c ->
     digestWith u p1 c (nc s') cn (methodOf req) (uri2 rt req) hash
     = digestWith u p2 c (nc s') cn (methodOf req) (uri2 rt req) hash) ->
  trace (Copy2.requestInterceptor rt with1 net cn req s)
  = trace (Copy2.requestInterceptor rt with2 net cn req s).
Proof.
  intros s'. subst s'.
  destruct (intercept2_summary rt with1 net cn req s) as (-> & _ & _).
  rewrite !intercept2_unfold, !intercept_shape.
  set (pre := if over Copy2.ceiling s then Copy2.acquire net req else set_nc (nc s + 1)).
  intros Hdigest.
  destruct (result (pre s)) as [e | []]; [reflexivity |].
  destruct (cachedChallenge (cache (pre s))) as [c |] eqn:Hc.
  2:{ now rewrite !authorize2_none. }
  destruct (createHash rt (Js.toLowerCase (Js.orElse (algorithm c) "MD5")))
    as [hash |] eqn:Hh.
  2:{ now rewrite !(authorize2_unknown _ _ _ _ _ c Hc Hh). }
  rewrite orElse_selected in Hh.
  specialize (Hdigest hash c Hh eq_refl).
  rewrite <- orElse_selected in Hh.
  rewrite !(authorize2_ok _ _ _ _ _ c hash Hc Hh). simpl.
  unfold authValue2. simpl. now rewrite Hdigest.
Qed.

End Console.

(** C9, as amended.  The password itself is never handed to the console:
    two runs of the request interceptor that differ in the password alone
    emit the same events whenever the hashes the code logs agree, which are
    HA1 in the first copy and the response hash in the second.  (The value
    of the [Authorization] header, with the user name and the response hash
    in it, is logged by both copies, and the first copy logs the user name,
    HA1 and HA2 besides.) *)
Theorem C9_password_not_logged
    (rt : Runtime) (net : Network) (cn : string) (req : AxiosRequestConfig)
    (s : Cache) (u p1 p2 : string) :
  let run1 p := Copy1.requestInterceptor rt {| username := u; password := p |}
                  net cn req s in
  let run2 p := Copy2.requestInterceptor rt {| username := u; password := p |}
                  net cn req s in
  ((forall hash c,
      createHash rt "md5" = Some hash -> cachedChallenge (cache (run1 p1)) = Some c ->
      Spec.HA1 hash u (realm c) p1 = Spec.HA1 hash u (realm c) p2) ->
   trace (run1 p1) = trace (run1 p2))
  /\ ((forall hash c,
         createHash rt (Js.toLowerCase (Spec.selectedAlgorithm c)) = Some hash ->
         cachedChallenge (cache (run2 p1)) = Some c ->
         digestWith u p1 c (nc (cache (run2 p1))) cn (methodOf req) (uri2 rt req) hash
         = digestWith u p2 c (nc (cache (run2 p1))) cn (methodOf req) (uri2 rt req) hash) ->
      trace (run2 p1) = trace (run2 p2)).
Proof.
  intros run1 run2. split.
  - apply intercept1_password.
  - apply intercept2_password.
Qed.

(** Two passwords under a runtime whose digest tells nothing apart, through
    the theorem: the events are the same. *)
Lemma C9_password_not_logged_witness :
  trace (Copy2.requestInterceptor Sample.flatRuntime
           {| username := "admin"; password := "secret" |}
           (Sample.device Sample.fullHeader) "0a4f113b" Sample.doorRequest
           createDigestAuth)
  = trace (Copy2.requestInterceptor Sample.flatRuntime
             {| username := "admin"; password := "other" |}
             (Sample.device Sample.fullHeader) "0a4f113b" Sample.doorRequest
             createDigestAuth).
Proof.
  apply (proj2 (C9_password_not_logged Sample.flatRuntime
                  (Sample.device Sample.fullHeader) "0a4f113b" Sample.doorRequest
                  createDigestAuth "admin" "secret" "other")).
  intros hash c Hh Hc. injection Hh as <-. reflexivity.
Defined.

(** C9 as stated fails: on a first request the first copy hands the user
    name, HA1, HA2 and, inside the header value, the response hash to
    [console.log]; the second copy hands it the header value, with the user
    name and the response hash inside. *)
Lemma C9_counterexample :
  (Spec.emitted (MD5.hex "admin:example:secret")
     (trace (Copy1.requestInterceptor Sample.runtime Sample.admin
               (Sample.device Sample.fullHeader) "0a4f113b" Sample.doorRequest
               createDigestAuth)) = true
   /\ Spec.emitted (MD5.hex ("PUT:" ++ Sample.doorURI))
        (trace (Copy1.requestInterceptor Sample.runtime Sample.admin
                  (Sample.device Sample.fullHeader) "0a4f113b" Sample.doorRequest
                  createDigestAuth)) = true
   /\ Spec.emitted "4c014610cc2be72386d21a13bf606acf"
        (trace (Copy1.requestInterceptor Sample.runtime Sample.admin
                  (Sample.device Sample.fullHeader) "0a4f113b" Sample.doorRequest
                  createDigestAuth)) = true
   /\ Spec.emitted "admin"
        (trace (Copy1.requestInterceptor Sample.runtime Sample.admin
                  (Sample.device Sample.fullHeader) "0a4f113b" Sample.doorRequest
                  createDigestAuth)) = true)
  /\ (result (Copy2.calculateDigestResponse Sample.runtime "admin" "secret"
                Sample.fullChallenge 1 "0a4f113b" "PUT" Sample.doorURI
                {| nc := 1; cachedChallenge := Some Sample.fullChallenge |})
      = inr "4c014610cc2be72386d21a13bf606acf"
      /\ Spec.emitted "4c014610cc2be72386d21a13bf606acf"
           (trace (Copy2.requestInterceptor Sample.runtime Sample.admin
                     (Sample.device Sample.fullHeader) "0a4f113b" Sample.doorRequest
                     createDigestAuth)) = true
      /\ Spec.emitted "admin"
           (trace (Copy2.requestInterceptor Sample.runtime Sample.admin
                     (Sample.device Sample.fullHeader) "0a4f113b" Sample.doorRequest
                     createDigestAuth)) = true
      /\ Spec.emitted (MD5.hex "admin:example:secret")
           (trace (Copy2.requestInterceptor Sample.runtime Sample.admin
                     (Sample.device Sample.fullHeader) "0a4f113b" Sample.doorRequest
                     createDigestAuth)) = false).
Proof. vm_compute. repeat split; reflexivity. Qed.

(** * Further properties: the parser, the cache over many calls, the callers *)

(** ** The parser on directive lists *)

Section Directives.

Lemma append_cons (c : ascii) (a b : string) : String c a ++ b = String c (a ++ b).
Proof. reflexivity. Qed.

Lemma span_stop (p : ascii -> bool) (a : string) (c : ascii) (r : string) :
  Wire.allChars p a = true -> p c = false ->
  Regex.span p (a ++ String c r) = (a, String c r).
Proof.
  intros Ha Hc. induction a as [| x a IH].
  - change (Regex.span p (String c r) = ("", String c r)). simpl. now rewrite Hc.
  - simpl in Ha. apply andb_true_iff in Ha as [Hx Ha].
    rewrite append_cons. simpl. rewrite Hx, (IH Ha). reflexivity.
Qed.

Lemma span_end (p : ascii -> bool) (a : string) :
  Wire.allChars p a = true -> Regex.span p a = (a, "").
Proof.
  intros Ha. induction a as [| x a IH]; [reflexivity |].
  simpl in Ha. apply andb_true_iff in Ha as [Hx Ha].
  simpl. rewrite Hx, (IH Ha). reflexivity.
Qed.

Lemma quoted_text (k v r : string) :
  (k ++ "=" ++ Js.quoted v) ++ r = k ++ String "=" (String "034" (v ++ String "034" r)).
Proof. unfold Js.quoted, Js.DQ. rewrite !append_assoc. reflexivity. Qed.

Lemma bare_text (k v r : string) : (k ++ "=" ++ v) ++ r = k ++ String "=" (v ++ r).
Proof. rewrite !append_assoc. reflexivity. Qed.

Lemma span_bare (v r : string) :
  Wire.allChars Regex.notComma v = true ->
  r = "" \/ (exists r', r = String "," r') ->
  Regex.span Regex.notComma (v ++ r) = (v, r).
Proof.
  intros Hv [-> | [r' ->]].
  - rewrite append_empty. now apply span_end.
  - now apply span_stop.
Qed.

(** The regular expression at the start of a directive, followed by the end
    of the text or by a comma. *)
Lemma matchHere_show (d : Spec.Directive) (r : string) :
  Wire.wellFormed d = true ->
  r = "" \/ (exists r', r = String "," r') ->
  Regex.matchHere (Spec.show d ++ r)
  = Some {| Regex.key := Spec.dname d; Regex.value := Spec.dvalue d; Regex.rest := r |}.
Proof.
  destruct d as [k v q]. unfold Wire.wellFormed, Spec.show. cbn [Spec.dname Spec.dvalue Spec.dquoted].
  intros H Hr. apply andb_true_iff in H as [H Hv]. apply andb_true_iff in H as [Hk Hw].
  destruct q.
  - rewrite quoted_text. unfold Regex.matchHere.
    rewrite (span_stop Regex.isWord k "=" _ Hw eq_refl).
    destruct k as [| k0 k]; [discriminate |].
    rewrite (span_stop Regex.notQuote v "034" r Hv eq_refl). reflexivity.
  - apply andb_true_iff in Hv as [Hv Hq]. apply negb_true_iff in Hq.
    rewrite bare_text. unfold Regex.matchHere.
    rewrite (span_stop Regex.isWord k "=" _ Hw eq_refl).
    destruct k as [| k0 k]; [discriminate |].
    assert (Hu : Regex.unquoted (String k0 k) (v ++ r)
                 = {| Regex.key := String k0 k; Regex.value := v; Regex.rest := r |}).
    { unfold Regex.unquoted. now rewrite (span_bare v r Hv Hr). }
    rewrite <- Hu.
    destruct v as [| c v'].
    + destruct Hr as [-> | [r' ->]]; reflexivity.
    + destruct c as [[] [] [] [] [] [] [] []];
        first [reflexivity | destruct v'; discriminate Hq].
Qed.

Lemma exec_show (d : Spec.Directive) (r : string) :
  Wire.wellFormed d = true ->
  r = "" \/ (exists r', r = String "," r') ->
  Regex.exec (Spec.show d ++ r)
  = Some {| Regex.key := Spec.dname d; Regex.value := Spec.dvalue d; Regex.rest := r |}.
Proof.
  intros H Hr. pose proof (matchHere_show d r H Hr) as Hm.
  destruct (Spec.show d ++ r); cbn [Regex.exec]; now rewrite Hm.
Qed.

Lemma exec_skip (c : ascii) (s : string) :
  Regex.isWord c = false -> Regex.exec (String c s) = Regex.exec s.
Proof.
  intros Hc. simpl. unfold Regex.matchHere. simpl. rewrite Hc. reflexivity.
Qed.

Lemma exec_skip_word (w : string) (c : ascii) (s : string) :
  Wire.allChars Regex.isWord w = true -> Regex.isWord c = false -> c <> "="%char ->
  Regex.exec (w ++ String c s) = Regex.exec s.
Proof.
  intros Hw Hc Hne. induction w as [| a w IH].
  - now apply exec_skip.
  - rewrite append_cons. cbn [Regex.exec].
    assert (Hm : Regex.matchHere (String a (w ++ String c s)) = None).
    { unfold Regex.matchHere. rewrite <- append_cons.
      rewrite (span_stop Regex.isWord (String a w) c s Hw Hc).
      destruct c as [[] [] [] [] [] [] [] []]; try reflexivity.
      contradiction Hne; reflexivity. }
    rewrite Hm. simpl in Hw. apply andb_true_iff in Hw as [_ Hw]. now apply IH.
Qed.

Lemma parseLoop_none (fuel : nat) (s : string) (c : DigestChallenge) :
  Regex.exec s = None -> parseLoop fuel s c = c.
Proof. intros H. destruct fuel; simpl; [reflexivity | now rewrite H]. Qed.

Lemma parseLoop_step (fuel : nat) (s : string) (m : Regex.Match) (c : DigestChallenge) :
  Regex.exec s = Some m -> (String.length s <= fuel)%nat ->
  parseLoop fuel s c
  = parseLoop (String.length (Regex.rest m)) (Regex.rest m)
      (assignDirective (Js.toLowerCase (Regex.key m)) (Regex.value m) c).
Proof.
  intros Hm Hf. pose proof (exec_consumes s m Hm) as Hlen.
  destruct fuel as [| f]; [lia |]. simpl. rewrite Hm.
  apply parseLoop_fuel; lia.
Qed.

Lemma parse_same_exec (s1 s2 : string) (c : DigestChallenge) :
  Regex.exec s1 = Regex.exec s2 ->
  parseLoop (String.length s1) s1 c = parseLoop (String.length s2) s2 c.
Proof.
  intros H. destruct (Regex.exec s2) as [m |] eqn:H2.
  - rewrite (parseLoop_step (String.length s1) s1 m c H (Nat.le_refl _)).
    now rewrite (parseLoop_step (String.length s2) s2 m c H2 (Nat.le_refl _)).
  - now rewrite !parseLoop_none.
Qed.

Lemma directiveList_more (d d' : Spec.Directive) (ds : list Spec.Directive) :
  Wire.directiveList (d :: d' :: ds)
  = Spec.show d ++ String "," (String " " (Wire.directiveList (d' :: ds))).
Proof. reflexivity. Qed.

Lemma parse_directiveList (ds : list Spec.Directive) :
  forall c,
    forallb Wire.wellFormed ds = true ->
    parseLoop (String.length (Wire.directiveList ds)) (Wire.directiveList ds) c
    = fold_left Wire.assign ds c.
Proof.
  induction ds as [| d ds IH]; intros c Hds; [reflexivity |].
  simpl in Hds. apply andb_true_iff in Hds as [Hd Hds].
  destruct ds as [| d2 ds].
  - change (Wire.directiveList [d]) with (Spec.show d).
    pose proof (exec_show d "" Hd (or_introl eq_refl)) as He.
    rewrite append_empty in He.
    rewrite (parseLoop_step _ _ _ c He (Nat.le_refl _)). reflexivity.
  - rewrite directiveList_more.
    rewrite (parseLoop_step _ _ _ c
               (exec_show d _ Hd (or_intror (ex_intro _ _ eq_refl))) (Nat.le_refl _)).
    cbn [Regex.rest Regex.key Regex.value].
    rewrite (parse_same_exec _ (Wire.directiveList (d2 :: ds))).
    + now rewrite IH.
    + now rewrite !exec_skip.
Qed.

End Directives.

(** ** From the header of the probe to the cache *)

Section Scheme.

Lemma toLowerCase_append (a b : string) :
  Js.toLowerCase (a ++ b) = Js.toLowerCase a ++ Js.toLowerCase b.
Proof.
  induction a as [| x a IH]; [reflexivity |].
  rewrite append_cons. cbn [Js.toLowerCase]. now rewrite IH.
Qed.

Lemma startsWith_append (p x : string) : Js.startsWith (p ++ x) p = true.
Proof.
  induction p as [| c p IH]; [now destruct x |].
  rewrite append_cons. cbn [Js.startsWith]. now rewrite Ascii.eqb_refl.
Qed.

Lemma indexOf_prefix (s p : string) :
  Js.startsWith s p = true -> Js.indexOf s p = Some O.
Proof. intros H. destruct s; cbn [Js.indexOf]; now rewrite H. Qed.

Lemma substring_append (p x : string) : Js.substring (String.length p) (p ++ x) = x.
Proof.
  induction p as [| c p IH]; [now destruct x |].
  rewrite append_cons. exact IH.
Qed.

Lemma digestPart_scheme (x : string) : Copy1.digestPart ("Digest " ++ x) = x.
Proof.
  unfold Copy1.digestPart. rewrite toLowerCase_append.
  change (Js.toLowerCase "Digest ") with "digest ".
  rewrite (indexOf_prefix _ _ (startsWith_append "digest " _)).
  exact (substring_append "Digest " x).
Qed.

Lemma parse_after_scheme (x : string) :
  parseDigestChallenge ("Digest " ++ x) = parseDigestChallenge x.
Proof.
  unfold parseDigestChallenge. apply parse_same_exec.
  change ("Digest " ++ x) with ("Digest" ++ String " " x).
  apply exec_skip_word; [reflexivity | reflexivity | discriminate].
Qed.

Lemma includes_scheme (x : string) :
  Js.includes (Js.toLowerCase ("Digest " ++ x)) "digest " = true.
Proof.
  unfold Js.includes. rewrite toLowerCase_append.
  change (Js.toLowerCase "Digest ") with "digest ".
  now rewrite (indexOf_prefix _ _ (startsWith_append "digest " _)).
Qed.

Lemma assign_directivesOf (c : DigestChallenge) :
  fold_left Wire.assign (Wire.directivesOf c) emptyChallenge = c.
Proof. destruct c as [r n [q |] [o |] [a |]]; reflexivity. Qed.

End Scheme.

(** X1.  A challenge written the way RFC 2617 writes it (the
    scheme, then [realm], [nonce] and, when present, [qop] and [opaque]
    between double quotes and [algorithm] as a token) comes back from the
    parser field for field, in the first copy after the scheme is cut off
    and in the second copy with the scheme still in front; and a probe
    answered 401 with that header leaves exactly this challenge in the
    cache, with count 1.  The values must be writable: no double quote inside
    a quoted value, no comma in the algorithm nor a double quote at its
    start. *)

Theorem challenge_round_trip
    (net : Network) (req : AxiosRequestConfig) (s : Cache) (c : DigestChallenge) :
  Wire.writable c = true -> realm c <> "" -> nonce c <> "" ->
  net (probeConfig req) = HttpResponse 401 (Some (Wire.challengeHeader c)) ->
  parseDigestChallenge (Copy1.digestPart (Wire.challengeHeader c)) = c
  /\ parseDigestChallenge (Wire.challengeHeader c) = c
  /\ Copy1.acquire net req s
     = {| trace := [requestingChallenge; Probe (probeConfig req);
                    ConsoleLog [LText "Desafio analisado:"; LChallenge c]];
          cache := {| nc := 1; cachedChallenge := Some c |}; result := inr tt |}
  /\ Copy2.acquire net req s
     = {| trace := [requestingChallenge; Probe (probeConfig req);
                    ConsoleLog [LText "Desafio analisado:"; LChallenge c]];
          cache := {| nc := 1; cachedChallenge := Some c |}; result := inr tt |}.
Proof.
  intros Hq Hr Hn Hnet.
  assert (H1 : parseDigestChallenge (Copy1.digestPart (Wire.challengeHeader c)) = c).
  { unfold Wire.challengeHeader, Spec.render. fold (Wire.directiveList (Wire.directivesOf c)).
    rewrite digestPart_scheme.
    unfold parseDigestChallenge. rewrite parse_directiveList by exact Hq.
    apply assign_directivesOf. }
  assert (H2 : parseDigestChallenge (Wire.challengeHeader c) = c).
  { unfold Wire.challengeHeader, Spec.render. fold (Wire.directiveList (Wire.directivesOf c)).
    rewrite parse_after_scheme.
    unfold parseDigestChallenge. rewrite parse_directiveList by exact Hq.
    apply assign_directivesOf. }
  split; [exact H1 | split; [exact H2 |]].
  split.
  - apply offers_installs. exists (Wire.challengeHeader c).
    split; [exact Hnet |]. split; [apply includes_scheme |].
    split; [now rewrite H1 |]. now split.
  - apply (offers_installs net req (fun h => h)). exists (Wire.challengeHeader c).
    split; [exact Hnet |]. split; [apply includes_scheme |].
    split; [now rewrite H2 |]. now split.
Qed.

(** The sample challenge, which has every field, and a device that sends it. *)
Lemma challenge_round_trip_witness :
  Wire.writable Sample.fullChallenge = true
  /\ parseDigestChallenge (Wire.challengeHeader Sample.fullChallenge) = Sample.fullChallenge
  /\ cache (Copy1.acquire (Sample.device (Wire.challengeHeader Sample.fullChallenge))
              Sample.doorRequest createDigestAuth)
     = {| nc := 1; cachedChallenge := Some Sample.fullChallenge |}.
Proof.
  split; [reflexivity |].
  destruct (challenge_round_trip
              (Sample.device (Wire.challengeHeader Sample.fullChallenge))
              Sample.doorRequest createDigestAuth Sample.fullChallenge eq_refl
              ltac:(discriminate) ltac:(discriminate) eq_refl) as (_ & H2 & H3 & _).
  split; [exact H2 | now rewrite H3].
Defined.

(** A sample device, whose header is the written form of the sample
    challenge. *)
Example fullHeader_written : Wire.challengeHeader Sample.fullChallenge = Sample.fullHeader.
Proof. reflexivity. Qed.

Lemma assign_unknown (c : DigestChallenge) (d : Spec.Directive) :
  Wire.known (Spec.dname d) = false -> Wire.assign c d = c.
Proof.
  unfold Wire.known, Wire.assign, assignDirective. simpl. intros H.
  repeat (apply orb_false_iff in H as [-> H]). reflexivity.
Qed.

(** X2.  On any list of well-formed directives, quoted or bare, separated
    by a comma and a space, the parser does what the [switch] does to each
    directive in turn, from the empty challenge.  So a directive whose name
    is none of the five is ignored, names are matched without regard to
    case, and of two directives with the same name the later one wins. *)
Theorem parse_directive_lists (ds : list Spec.Directive) :
  forallb Wire.wellFormed ds = true ->
  parseDigestChallenge (Wire.directiveList ds) = fold_left Wire.assign ds emptyChallenge
  /\ (forall ds1 d ds2,
        ds = (ds1 ++ d :: ds2)%list -> Wire.known (Spec.dname d) = false ->
        parseDigestChallenge (Wire.directiveList ds)
        = parseDigestChallenge (Wire.directiveList (ds1 ++ ds2)%list))
  /\ (forall ds1 d,
        ds = (ds1 ++ [d])%list -> Js.toLowerCase (Spec.dname d) = "realm" ->
        realm (parseDigestChallenge (Wire.directiveList ds)) = Spec.dvalue d)
  /\ (forall ds1 d,
        ds = (ds1 ++ [d])%list -> Js.toLowerCase (Spec.dname d) = "nonce" ->
        nonce (parseDigestChallenge (Wire.directiveList ds)) = Spec.dvalue d).
Proof.
  intros Hds.
  assert (Hfold : forall l, forallb Wire.wellFormed l = true ->
            parseDigestChallenge (Wire.directiveList l)
            = fold_left Wire.assign l emptyChallenge).
  { intros l Hl. unfold parseDigestChallenge. now apply parse_directiveList. }
  split; [now apply Hfold |]. split; [| split].
  - intros ds1 d ds2 -> Hk.
    rewrite (Hfold _ Hds).
    rewrite forallb_app in Hds. apply andb_true_iff in Hds as [H1 H2].
    simpl in H2. apply andb_true_iff in H2 as [_ H2].
    rewrite Hfold by (rewrite forallb_app, H1, H2; reflexivity).
    rewrite !fold_left_app. simpl. now rewrite (assign_unknown _ d Hk).
  - intros ds1 d -> Hk. rewrite Hfold by exact Hds.
    rewrite fold_left_app. simpl. unfold Wire.assign, assignDirective.
    rewrite Hk. reflexivity.
  - intros ds1 d -> Hk. rewrite Hfold by exact Hds.
    rewrite fold_left_app. simpl. unfold Wire.assign, assignDirective.
    rewrite Hk. reflexivity.
Qed.

(** A realm sent twice, the second time in capitals, and a directive the
    [switch] does not know. *)
Lemma parse_directive_lists_witness :
  parseDigestChallenge
    (Wire.directiveList
       [ Spec.quotedDirective "realm" "first"; Spec.bareDirective "stale" "false";
         Spec.quotedDirective "nonce" "abc123"; Spec.quotedDirective "REALM" "second" ])
  = {| realm := "second"; nonce := "abc123"; qop := None; opaque := None;
       algorithm := None |}.
Proof.
  exact (proj1 (parse_directive_lists
                  [ Spec.quotedDirective "realm" "first";
                    Spec.bareDirective "stale" "false";
                    Spec.quotedDirective "nonce" "abc123";
                    Spec.quotedDirective "REALM" "second" ] eq_refl)).
Defined.

(** ** The nonce count as text *)

(** X3.  Two counts that differ are printed differently: the text of the
    [nc] directive identifies the count. *)
Theorem formatNonceCount_injective (n m : Z) :
  0 <= n -> 0 <= m -> n <> m -> formatNonceCount n <> formatNonceCount m.
Proof.
  intros Hn Hm Hne Heq. apply Hne.
  destruct (formatNonceCount_padded n Hn) as (_ & _ & <-).
  destruct (formatNonceCount_padded m Hm) as (_ & _ & <-).
  now rewrite Heq.
Qed.

(** Two neighbours below 16, and the two counts around 2^32. *)
Lemma formatNonceCount_injective_witness :
  (formatNonceCount 9 =? formatNonceCount 10)%string = false
  /\ (formatNonceCount 4294967295 =? formatNonceCount 4294967296)%string = false.
Proof.
  split; apply String.eqb_neq, formatNonceCount_injective; lia.
Defined.

(** ** The gate, the header assembly and the response interceptor together *)

(** The gate: an acquisition when there is no challenge or the count is
    above the ceiling, one more on the count otherwise. *)
Section Gate.

Variables (ceiling : Z) (challengeText : string -> string).
Variables (net : Network) (req : AxiosRequestConfig) (s : Cache).

Let gate : M unit :=
  if over ceiling s then acquireWith challengeText net req else set_nc (nc s + 1).

Lemma over_false :
  over ceiling s = false ->
  (exists c, cachedChallenge s = Some c) /\ nc s <= ceiling.
Proof.
  unfold over. intros H. apply orb_false_iff in H as [Hc Hn].
  apply Z.ltb_ge in Hn. split; [| exact Hn].
  destruct (cachedChallenge s) as [c |]; [now exists c | discriminate].
Qed.

Lemma gate_counted : 0 <= ceiling -> counted ceiling s -> counted ceiling (cache (gate s)).
Proof.
  intros Hc [Hr Hn]. unfold gate, counted.
  destruct (over ceiling s) eqn:Ho.
  - destruct (acquire_cases challengeText net req s); simpl;
      (split; [lia | try assumption; discriminate]).
  - destruct (over_false Ho) as [[c Hsome] Hle]. rewrite set_nc_run. simpl.
    split; [lia |]. rewrite Hsome. discriminate.
Qed.

Lemma gate_error (e : Error) : result (gate s) = inl e -> is401 e = false.
Proof.
  unfold gate. destruct (over ceiling s).
  - destruct (acquire_cases challengeText net req s) as [| st h Hnet Hst | | | |];
      simpl; intros [= <-]; try reflexivity.
    unfold is401. simpl. now apply Z.eqb_neq.
  - rewrite set_nc_run. discriminate.
Qed.

Lemma gate_keeps_challenge :
  (exists c, cachedChallenge s = Some c) ->
  exists c, cachedChallenge (cache (gate s)) = Some c.
Proof.
  intros [c Hc]. unfold gate. destruct (over ceiling s).
  - destruct (acquire_cases challengeText net req s); simpl; eauto.
  - rewrite set_nc_run. simpl. eauto.
Qed.

End Gate.

(** A whole call over any request interceptor. *)
Section Call.

Variable intercept : M AxiosRequestConfig.
Variable net : Network.
Variable s : Cache.

Let call : Outcome AxiosResponse :=
  tryCatch (let* cfg := intercept in dispatchRequest net cfg) responseRejected s.

(** The cache after a call is the one the request interceptor left, unless
    the error that reaches the response interceptor carries a 401 and there
    is a challenge to clear. *)
Lemma perform_cache :
  cache call = cache (intercept s)
  \/ (cache call = {| nc := 0; cachedChallenge := None |}
      /\ ((exists e, result (intercept s) = inl e /\ is401 e = true)
          \/ (exists cfg h,
                result (intercept s) = inr cfg
                /\ net cfg = HttpResponse 401 h
                /\ default defaultValidateStatus (validateStatus cfg) 401 = false
                /\ result call
                   = inl (AxiosError (Some {| status := 401; www_authenticate := h |}))))).
Proof.
  unfold call.
  destruct (result (intercept s)) as [e | cfg] eqn:Hi.
  - rewrite (perform_intercept_error intercept net s e Hi), responseRejected_run.
    destruct (is401 e) eqn:H401; simpl; [| now left].
    destruct (bool_decide (is_Some (cachedChallenge (cache (intercept s))))); simpl;
      [| now left].
    right. split; [reflexivity |]. left. now exists e.
  - destruct (result (dispatchRequest net cfg (cache (intercept s)))) as [e | r] eqn:Hd.
    + rewrite (perform_rejected intercept net s cfg e Hi Hd), responseRejected_run.
      rewrite dispatchRequest_run in Hd. simpl in Hd.
      destruct (bool_decide (is_Some (cachedChallenge (cache (intercept s)))));
        [rewrite andb_true_r | rewrite andb_false_r; now left].
      destruct (net cfg) as [| st h] eqn:Hnet.
      * injection Hd as <-. now left.
      * destruct (default defaultValidateStatus (validateStatus cfg) st) eqn:Hv;
          [discriminate |].
        injection Hd as <-. unfold is401. simpl.
        destruct (Z.eqb_spec st 401) as [-> | Hst]; [| now left].
        right. split; [reflexivity |]. right. exists cfg, h. now repeat split.
    + rewrite (perform_resolved intercept net s cfg r Hi Hd). now left.
Qed.

End Call.

(** An error of the request interceptor comes from the gate or from the
    header assembly, and a request it returns comes from the assembly. *)
Lemma intercept_error (pre : M unit) (auth : M AxiosRequestConfig) (s : Cache) (e : Error) :
  result (tryCatch (pre >> auth) rethrow s) = inl e ->
  result (pre s) = inl e \/ result (auth (cache (pre s))) = inl e.
Proof.
  rewrite intercept_shape.
  destruct (result (pre s)) as [e1 | []]; simpl; [intros [= <-]; now left |].
  destruct (result (auth (cache (pre s)))) as [e2 | cfg]; simpl; [| discriminate].
  intros [= <-]. now right.
Qed.

(** What the header assembly can end in. *)
Section Assembly.

Variable rt : Runtime.
Variable config : DigestAuthConfig.
Variable cn : string.
Variable req : AxiosRequestConfig.
Variable s : Cache.

Lemma authorize1_result :
  match result (Copy1.authorize rt config cn req s) with
  | inl e => is401 e = false
  | inr cfg => exists v, cfg = setAuthorization req v
  end.
Proof.
  destruct (cachedChallenge s) as [c |] eqn:Hc.
  - destruct (createHash rt "md5") as [hash |] eqn:Hh.
    + rewrite (authorize1_ok rt config cn req s c hash Hc Hh). simpl. eauto.
    + now rewrite (authorize1_unknown rt config cn req s c Hc Hh).
  - now rewrite authorize1_none.
Qed.

Lemma authorize2_result :
  match result (Copy2.authorize rt config cn req s) with
  | inl e => is401 e = false
  | inr cfg => exists v, cfg = setAuthorization req v
  end.
Proof.
  destruct (cachedChallenge s) as [c |] eqn:Hc.
  - destruct (createHash rt (Js.toLowerCase (Js.orElse (algorithm c) "MD5")))
      as [hash |] eqn:Hh.
    + rewrite (authorize2_ok rt config cn req s c hash Hc Hh). simpl. eauto.
    + now rewrite (authorize2_unknown rt config cn req s c Hc Hh).
  - now rewrite authorize2_none.
Qed.

End Assembly.

Section Interceptor.

Variable rt : Runtime.
Variable config : DigestAuthConfig.
Variable net : Network.
Variable cn : string.
Variable req : AxiosRequestConfig.
Variable s : Cache.

Lemma intercept1_result :
  match result (Copy1.requestInterceptor rt config net cn req s) with
  | inl e => is401 e = false
  | inr cfg => exists v, cfg = setAuthorization req v
  end.
Proof.
  destruct (result (Copy1.requestInterceptor rt config net cn req s)) as [e | cfg] eqn:H;
    rewrite intercept1_unfold in H.
  - apply intercept_error in H as [H | H].
    + exact (gate_error _ _ _ _ _ e H).
    + pose proof (authorize1_result rt config cn req
                    (cache ((if over Copy1.ceiling s then Copy1.acquire net req
                             else set_nc (nc s + 1)) s))) as Ha.
      now rewrite H in Ha.
  - apply intercept_success in H as (_ & H & _).
    pose proof (authorize1_result rt config cn req
                  (cache ((if over Copy1.ceiling s then Copy1.acquire net req
                           else set_nc (nc s + 1)) s))) as Ha.
    now rewrite H in Ha.
Qed.

Lemma intercept2_result :
  match result (Copy2.requestInterceptor rt config net cn req s) with
  | inl e => is401 e = false
  | inr cfg => exists v, cfg = setAuthorization req v
  end.
Proof.
  destruct (result (Copy2.requestInterceptor rt config net cn req s)) as [e | cfg] eqn:H;
    rewrite intercept2_unfold in H.
  - apply intercept_error in H as [H | H].
    + exact (gate_error _ _ _ _ _ e H).
    + pose proof (authorize2_result rt config cn req
                    (cache ((if over Copy2.ceiling s then Copy2.acquire net req
                             else set_nc (nc s + 1)) s))) as Ha.
      now rewrite H in Ha.
  - apply intercept_success in H as (_ & H & _).
    pose proof (authorize2_result rt config cn req
                  (cache ((if over Copy2.ceiling s then Copy2.acquire net req
                           else set_nc (nc s + 1)) s))) as Ha.
    now rewrite H in Ha.
Qed.

End Interceptor.

(** The cache after a whole call: what the gate left, or the empty cache
    after a 401 for the request the interceptor returned. *)
Section CallCache.

Variable rt : Runtime.
Variable config : DigestAuthConfig.
Variables probeNet net : Network.
Variable cn : string.
Variable req : AxiosRequestConfig.
Variable s : Cache.

Lemma perform1_cache :
  let o := Copy1.perform rt config probeNet net cn req s in
  cache o = cache ((if over Copy1.ceiling s then Copy1.acquire probeNet req
                    else set_nc (nc s + 1)) s)
  \/ (cache o = {| nc := 0; cachedChallenge := None |}
      /\ exists v h,
           result (Copy1.requestInterceptor rt config probeNet cn req s)
           = inr (setAuthorization req v)
           /\ net (setAuthorization req v) = HttpResponse 401 h
           /\ default defaultValidateStatus (validateStatus req) 401 = false
           /\ result o = inl (AxiosError (Some {| status := 401; www_authenticate := h |}))).
Proof.
  intros o. subst o. unfold Copy1.perform.
  pose proof (intercept1_result rt config probeNet cn req s) as Hr.
  destruct (perform_cache (Copy1.requestInterceptor rt config probeNet cn req) net s)
    as [H | [H [(e & He & H401) | (cfg & h & Hcfg & Hnet & Hv & Hres)]]].
  - left. rewrite H.
    now destruct (intercept1_summary rt config probeNet cn req s) as (-> & _).
  - rewrite He in Hr. congruence.
  - rewrite Hcfg in Hr. destruct Hr as [v ->].
    right. split; [exact H |]. exists v, h. now repeat split.
Qed.

Lemma perform2_cache :
  let o := Copy2.perform rt config probeNet net cn req s in
  cache o = cache ((if over Copy2.ceiling s then Copy2.acquire probeNet req
                    else set_nc (nc s + 1)) s)
  \/ (cache o = {| nc := 0; cachedChallenge := None |}
      /\ exists v h,
           result (Copy2.requestInterceptor rt config probeNet cn req s)
           = inr (setAuthorization req v)
           /\ net (setAuthorization req v) = HttpResponse 401 h
           /\ default defaultValidateStatus (validateStatus req) 401 = false
           /\ result o = inl (AxiosError (Some {| status := 401; www_authenticate := h |}))).
Proof.
  intros o. subst o. unfold Copy2.perform.
  pose proof (intercept2_result rt config probeNet cn req s) as Hr.
  destruct (perform_cache (Copy2.requestInterceptor rt config probeNet cn req) net s)
    as [H | [H [(e & He & H401) | (cfg & h & Hcfg & Hnet & Hv & Hres)]]].
  - left. rewrite H.
    now destruct (intercept2_summary rt config probeNet cn req s) as (-> & _).
  - rewrite He in Hr. congruence.
  - rewrite Hcfg in Hr. destruct Hr as [v ->].
    right. split; [exact H |]. exists v, h. now repeat split.
Qed.

Lemma perform1_probes :
  Spec.probes (trace (Copy1.perform rt config probeNet net cn req s))
  = if over Copy1.ceiling s then 1%nat else 0%nat.
Proof.
  unfold Copy1.perform. rewrite perform_probes.
  destruct (intercept1_summary rt config probeNet cn req s) as (_ & -> & _).
  destruct (over Copy1.ceiling s); [apply acquire_probes | reflexivity].
Qed.

Lemma perform2_probes :
  Spec.probes (trace (Copy2.perform rt config probeNet net cn req s))
  = if over Copy2.ceiling s then 1%nat else 0%nat.
Proof.
  unfold Copy2.perform. rewrite perform_probes.
  destruct (intercept2_summary rt config probeNet cn req s) as (_ & -> & _).
  destruct (over Copy2.ceiling s); [apply acquire_probes | reflexivity].
Qed.

End CallCache.

(** ** Calls one after the other *)

Section Sequences.

Context {A : Type}.
Variable m : Call -> M A.

Lemma runCalls_counted (ceiling : Z) (calls : list Call) :
  (forall k s, counted ceiling s -> counted ceiling (cache (m k s))) ->
  forall s, counted ceiling s -> counted ceiling (snd (runCalls m calls s)).
Proof.
  intros Hstep. induction calls as [| k rest IH]; intros s Hs; [exact Hs |].
  simpl. specialize (IH (cache (m k s)) (Hstep k s Hs)).
  destruct (runCalls m rest (cache (m k s))) as [t s']. exact IH.
Qed.

Lemma runCalls_probes (calls : list Call) :
  (forall k s, (Spec.probes (trace (m k s)) <= 1)%nat) ->
  forall s, (Spec.probes (fst (runCalls m calls s)) <= length calls)%nat.
Proof.
  intros Hstep. induction calls as [| k rest IH]; intros s; [apply Nat.le_0_l |].
  simpl. specialize (IH (cache (m k s))). specialize (Hstep k s).
  destruct (runCalls m rest (cache (m k s))) as [t s']. simpl in *.
  rewrite probes_app. lia.
Qed.

End Sequences.

Lemma counted_fresh (ceiling : Z) : 0 <= ceiling -> counted ceiling createDigestAuth.
Proof. intros H. unfold counted. simpl. split; [lia | reflexivity]. Qed.

Lemma counted_cleared (ceiling : Z) :
  0 <= ceiling -> counted ceiling {| nc := 0; cachedChallenge := None |}.
Proof. exact (counted_fresh ceiling). Qed.

Lemma calls1_counted (rt : Runtime) (config : DigestAuthConfig) (calls : list Call) :
  counted Copy1.ceiling
    (snd (runCalls (runCall (Copy1.perform rt config)) calls createDigestAuth)).
Proof.
  apply runCalls_counted; [| now apply counted_fresh].
  intros k s Hs. unfold runCall.
  destruct (perform1_cache rt config (callProbe k) (callWire k) (callNonce k)
              (callRequest k) s) as [-> | [-> _]].
  - now apply gate_counted.
  - now apply counted_cleared.
Qed.

Lemma calls2_counted (rt : Runtime) (config : DigestAuthConfig) (calls : list Call) :
  counted Copy2.ceiling
    (snd (runCalls (runCall (Copy2.perform rt config)) calls createDigestAuth)).
Proof.
  apply runCalls_counted; [| now apply counted_fresh].
  intros k s Hs. unfold runCall.
  destruct (perform2_cache rt config (callProbe k) (callWire k) (callNonce k)
              (callRequest k) s) as [-> | [-> _]].
  - now apply gate_counted.
  - now apply counted_cleared.
Qed.

(** X4.  Whatever calls are made on one instance, one after the other,
    and whatever the device answers, the count stays between 0 and one above
    the ceiling (100 in the first copy, 10000 in the second) and is 0
    whenever there is no challenge; and the call that comes next, whichever
    it is, sends at most one probe, so that the calls made so far sent no
    more probes than there were calls. *)
Theorem counts_stay_in_range
    (rt : Runtime) (config : DigestAuthConfig) (calls : list Call) (next : Call) :
  let end1 := runCalls (runCall (Copy1.perform rt config)) calls createDigestAuth in
  let end2 := runCalls (runCall (Copy2.perform rt config)) calls createDigestAuth in
  (0 <= nc (snd end1) <= 100
   /\ (cachedChallenge (snd end1) = None -> nc (snd end1) = 0)
   /\ (Spec.probes (trace (runCall (Copy1.perform rt config) next (snd end1))) <= 1)%nat
   /\ (Spec.probes (fst end1) <= length calls)%nat)
  /\ (0 <= nc (snd end2) <= 10000
      /\ (cachedChallenge (snd end2) = None -> nc (snd end2) = 0)
      /\ (Spec.probes (trace (runCall (Copy2.perform rt config) next (snd end2))) <= 1)%nat
      /\ (Spec.probes (fst end2) <= length calls)%nat).
Proof.
  intros end1 end2. split.
  - destruct (calls1_counted rt config calls) as [Hr Hn]. fold end1 in Hr, Hn.
    unfold Copy1.ceiling in Hr.
    assert (Hone : forall k s,
              (Spec.probes (trace (runCall (Copy1.perform rt config) k s)) <= 1)%nat).
    { intros k s. unfold runCall. rewrite perform1_probes.
      destruct (over Copy1.ceiling s); lia. }
    split; [lia |]. split; [exact Hn |]. split; [apply Hone |].
    now apply runCalls_probes.
  - destruct (calls2_counted rt config calls) as [Hr Hn]. fold end2 in Hr, Hn.
    unfold Copy2.ceiling in Hr.
    assert (Hone : forall k s,
              (Spec.probes (trace (runCall (Copy2.perform rt config) k s)) <= 1)%nat).
    { intros k s. unfold runCall. rewrite perform2_probes.
      destruct (over Copy2.ceiling s); lia. }
    split; [lia |]. split; [exact Hn |]. split; [apply Hone |].
    now apply runCalls_probes.
Qed.

(** One call that finds a challenge and a count within the ceiling. *)
Section Reuse.

Variable rt : Runtime.
Variable config : DigestAuthConfig.
Variables probeNet net : Network.
Variable cn : string.
Variable req : AxiosRequestConfig.
Variable s : Cache.
Variable c : DigestChallenge.

Hypothesis Hc : cachedChallenge s = Some c.
Hypothesis Hnet : acceptsCredentials net.

Lemma perform1_reuse :
  nc s <= Copy1.ceiling ->
  cache (Copy1.perform rt config probeNet net cn req s)
  = {| nc := nc s + 1; cachedChallenge := Some c |}
  /\ Spec.probes (trace (Copy1.perform rt config probeNet net cn req s)) = 0%nat.
Proof.
  intros Hle. pose proof (over_active Copy1.ceiling s c Hc Hle) as Ho.
  rewrite perform1_probes, Ho. split; [| reflexivity].
  destruct (perform1_cache rt config probeNet net cn req s)
    as [-> | [_ (v & h & _ & H401 & _)]].
  - rewrite Ho, set_nc_run. simpl. now rewrite Hc.
  - exfalso. apply (Hnet (setAuthorization req v) h); [| exact H401].
    rewrite authorizationOf_set. now exists v.
Qed.

Lemma perform2_reuse :
  nc s <= Copy2.ceiling ->
  cache (Copy2.perform rt config probeNet net cn req s)
  = {| nc := nc s + 1; cachedChallenge := Some c |}
  /\ Spec.probes (trace (Copy2.perform rt config probeNet net cn req s)) = 0%nat.
Proof.
  intros Hle. pose proof (over_active Copy2.ceiling s c Hc Hle) as Ho.
  rewrite perform2_probes, Ho. split; [| reflexivity].
  destruct (perform2_cache rt config probeNet net cn req s)
    as [-> | [_ (v & h & _ & H401 & _)]].
  - rewrite Ho, set_nc_run. simpl. now rewrite Hc.
  - exfalso. apply (Hnet (setAuthorization req v) h); [| exact H401].
    rewrite authorizationOf_set. now exists v.
Qed.

End Reuse.

Lemma runCalls_reuse {A} (m : Call -> M A) (ceiling : Z) (calls : list Call) :
  (forall k s c,
     acceptsCredentials (callWire k) -> cachedChallenge s = Some c -> nc s <= ceiling ->
     cache (m k s) = {| nc := nc s + 1; cachedChallenge := Some c |}
     /\ Spec.probes (trace (m k s)) = 0%nat) ->
  Forall (fun k => acceptsCredentials (callWire k)) calls ->
  forall s c,
    cachedChallenge s = Some c ->
    nc s + Z.of_nat (length calls) <= ceiling + 1 ->
    snd (runCalls m calls s)
    = {| nc := nc s + Z.of_nat (length calls); cachedChallenge := Some c |}
    /\ Spec.probes (fst (runCalls m calls s)) = 0%nat.
Proof.
  intros Hstep Hall. induction Hall as [| k rest Hk Hrest IH]; intros s c Hc Hle.
  - simpl. split; [| reflexivity]. destruct s as [n o]. simpl in *. subst o.
    f_equal. lia.
  - cbn [length] in Hle. rewrite Nat2Z.inj_succ in Hle.
    destruct (Hstep k s c Hk Hc ltac:(lia)) as [Hcache Hp].
    cbn [runCalls]. cbv zeta.
    specialize (IH (cache (m k s)) c). rewrite Hcache in IH. simpl in IH.
    specialize (IH eq_refl ltac:(lia)). rewrite <- Hcache in IH.
    destruct (runCalls m rest (cache (m k s))) as [t s']. simpl in *.
    destruct IH as [-> Ht]. split.
    + f_equal. lia.
    + rewrite probes_app, Hp, Ht. reflexivity.
Qed.

(** X5.  As long as the device does not answer 401 to a request with
    credentials, a cached challenge serves every call up to the ceiling: after
    [k] calls the challenge is the same, the count has grown by [k], and no
    probe was sent.  This holds whether or not the calls succeed. *)
Theorem cached_challenge_serves
    (rt : Runtime) (config : DigestAuthConfig) (calls : list Call)
    (s : Cache) (c : DigestChallenge) :
  cachedChallenge s = Some c ->
  Forall (fun k => acceptsCredentials (callWire k)) calls ->
  (nc s + Z.of_nat (length calls) <= 100 ->
   snd (runCalls (runCall (Copy1.perform rt config)) calls s)
   = {| nc := nc s + Z.of_nat (length calls); cachedChallenge := Some c |}
   /\ Spec.probes (fst (runCalls (runCall (Copy1.perform rt config)) calls s)) = 0%nat)
  /\ (nc s + Z.of_nat (length calls) <= 10000 ->
      snd (runCalls (runCall (Copy2.perform rt config)) calls s)
      = {| nc := nc s + Z.of_nat (length calls); cachedChallenge := Some c |}
      /\ Spec.probes (fst (runCalls (runCall (Copy2.perform rt config)) calls s)) = 0%nat).
Proof.
  intros Hc Hall. split; intros Hle.
  - apply (runCalls_reuse _ Copy1.ceiling); try assumption.
    intros k s0 c0 Hk Hc0 Hle0. unfold runCall. now apply perform1_reuse.
  - apply (runCalls_reuse _ Copy2.ceiling); try assumption.
    intros k s0 c0 Hk Hc0 Hle0. unfold runCall. now apply perform2_reuse.
Qed.

(** The sample device accepts every request that has credentials. *)
Lemma device_acceptsCredentials (h : string) : acceptsCredentials (Sample.device h).
Proof.
  intros cfg h' [v Hv]. unfold Sample.device. now rewrite Hv.
Qed.

(** The last two requests before the ceiling of the first copy. *)
Lemma cached_challenge_serves_witness :
  snd (runCalls (runCall (Copy1.perform Sample.runtime Sample.admin))
         [ {| callProbe := Sample.device Sample.fullHeader;
              callWire := Sample.device Sample.fullHeader;
              callNonce := "0a4f113b"; callRequest := Sample.doorRequest |};
           {| callProbe := Sample.device Sample.fullHeader;
              callWire := Sample.device Sample.fullHeader;
              callNonce := "7c2e9d01"; callRequest := Sample.relativeRequest |} ]
         {| nc := 98; cachedChallenge := Some Sample.fullChallenge |})
  = {| nc := 100; cachedChallenge := Some Sample.fullChallenge |}.
Proof.
  refine (proj1 (proj1 (cached_challenge_serves Sample.runtime Sample.admin _
                          {| nc := 98; cachedChallenge := Some Sample.fullChallenge |}
                          Sample.fullChallenge eq_refl _) _)).
  - repeat constructor; apply device_acceptsCredentials.
  - simpl. lia.
Defined.

(** X6.  A call that finds a challenge and leaves none was answered 401
    on the request that carried the credentials: nothing else empties the
    cache, neither a probe that fails nor an error of the header assembly nor
    any other status. *)
Theorem cleared_only_by_401
    (rt : Runtime) (config : DigestAuthConfig) (probeNet net : Network)
    (cn : string) (req : AxiosRequestConfig) (s : Cache) :
  is_Some (cachedChallenge s) ->
  (cachedChallenge (cache (Copy1.perform rt config probeNet net cn req s)) = None ->
   exists v h,
     result (Copy1.requestInterceptor rt config probeNet cn req s)
     = inr (setAuthorization req v)
     /\ net (setAuthorization req v) = HttpResponse 401 h
     /\ result (Copy1.perform rt config probeNet net cn req s)
        = inl (AxiosError (Some {| status := 401; www_authenticate := h |})))
  /\ (cachedChallenge (cache (Copy2.perform rt config probeNet net cn req s)) = None ->
      exists v h,
        result (Copy2.requestInterceptor rt config probeNet cn req s)
        = inr (setAuthorization req v)
        /\ net (setAuthorization req v) = HttpResponse 401 h
        /\ result (Copy2.perform rt config probeNet net cn req s)
           = inl (AxiosError (Some {| status := 401; www_authenticate := h |}))).
Proof.
  intros Hsome. split; intros Hnone.
  - destruct (perform1_cache rt config probeNet net cn req s)
      as [H | [_ (v & h & Hi & Hnet & _ & Hres)]].
    + rewrite H in Hnone.
      destruct (gate_keeps_challenge Copy1.ceiling Copy1.digestPart probeNet req s Hsome)
        as [c Hc].
      unfold Copy1.acquire in Hnone. congruence.
    + exists v, h. now repeat split.
  - destruct (perform2_cache rt config probeNet net cn req s)
      as [H | [_ (v & h & Hi & Hnet & _ & Hres)]].
    + rewrite H in Hnone.
      destruct (gate_keeps_challenge Copy2.ceiling (fun h => h) probeNet req s Hsome)
        as [c Hc].
      unfold Copy2.acquire in Hnone. congruence.
    + exists v, h. now repeat split.
Qed.

(** A device that answers 401 to everything. *)
Lemma cleared_only_by_401_witness :
  exists v h,
    result (Copy1.requestInterceptor Sample.runtime Sample.admin
              (Sample.always 401 None) "0a4f113b" Sample.doorRequest
              {| nc := 1; cachedChallenge := Some Sample.fullChallenge |})
    = inr (setAuthorization Sample.doorRequest v)
    /\ Sample.always 401 None (setAuthorization Sample.doorRequest v) = HttpResponse 401 h
    /\ result (Copy1.perform Sample.runtime Sample.admin
                 (Sample.always 401 None) (Sample.always 401 None) "0a4f113b"
                 Sample.doorRequest
                 {| nc := 1; cachedChallenge := Some Sample.fullChallenge |})
       = inl (AxiosError (Some {| status := 401; www_authenticate := h |})).
Proof.
  apply (proj1 (cleared_only_by_401 Sample.runtime Sample.admin
                  (Sample.always 401 None) (Sample.always 401 None) "0a4f113b"
                  Sample.doorRequest
                  {| nc := 1; cachedChallenge := Some Sample.fullChallenge |}
                  (ex_intro _ Sample.fullChallenge eq_refl))).
  vm_compute. reflexivity.
Defined.

(** ** A probe that brings no challenge *)

Section NoChallenge.

Variable challengeText : string -> string.
Variable probeNet : Network.
Variable req : AxiosRequestConfig.
Variable s : Cache.

Hypothesis Hprobe :
  forall h, probeNet (probeConfig req) = HttpResponse 401 (Some h) ->
            Js.includes (Js.toLowerCase h) "digest " = false.

Lemma acquire_no_challenge :
  exists e,
    acquireWith challengeText probeNet req s
    = {| trace := [requestingChallenge; Probe (probeConfig req)]; cache := s;
         result := inl e |}
    /\ is401 e = false.
Proof.
  destruct (acquire_cases challengeText probeNet req s)
    as [| st h Hnet Hst | | | h Hnet Hi | h Hnet Hi];
    try (rewrite (Hprobe h Hnet) in Hi; discriminate);
    eexists; (split; [reflexivity |]); try reflexivity.
  unfold is401. simpl. now apply Z.eqb_neq.
Qed.

End NoChallenge.

(** X7.  When the probe does not come back as a 401 with a header that
    mentions [digest ] (the transport fails, the status is another one, the
    header is missing or of another scheme), the call fails after the probe,
    nothing else goes on the wire, and the cache is exactly what it was: an
    old challenge whose count ran over the ceiling stays, with its count. *)
Theorem failed_probe_keeps_cache
    (rt : Runtime) (config : DigestAuthConfig) (probeNet net : Network)
    (cn : string) (req : AxiosRequestConfig) (s : Cache) :
  (forall h, probeNet (probeConfig req) = HttpResponse 401 (Some h) ->
             Js.includes (Js.toLowerCase h) "digest " = false) ->
  (over Copy1.ceiling s = true ->
   exists e,
     Copy1.perform rt config probeNet net cn req s
     = {| trace := [requestingChallenge; Probe (probeConfig req); digestAuthError e];
          cache := s; result := inl e |})
  /\ (over Copy2.ceiling s = true ->
      exists e,
        Copy2.perform rt config probeNet net cn req s
        = {| trace := [requestingChallenge; Probe (probeConfig req); digestAuthError e];
             cache := s; result := inl e |}).
Proof.
  intros Hprobe. split; intros Ho.
  - destruct (acquire_no_challenge Copy1.digestPart probeNet req s Hprobe)
      as (e & He & H401).
    exists e.
    rewrite (perform1_acquire_error rt config probeNet net cn req s e Ho);
      unfold Copy1.acquire; rewrite ?He; try reflexivity; assumption.
  - destruct (acquire_no_challenge (fun h => h) probeNet req s Hprobe)
      as (e & He & H401).
    exists e.
    rewrite (perform2_acquire_error rt config probeNet net cn req s e Ho);
      unfold Copy2.acquire; rewrite ?He; try reflexivity; assumption.
Qed.

(** A count that ran over the ceiling and a device that is out of service:
    the old challenge stays. *)
Lemma failed_probe_keeps_cache_witness :
  exists e,
    Copy1.perform Sample.runtime Sample.admin (Sample.always 503 None)
      (Sample.always 200 None) "0a4f113b" Sample.doorRequest
      {| nc := 100; cachedChallenge := Some Sample.fullChallenge |}
    = {| trace := [requestingChallenge; Probe (probeConfig Sample.doorRequest);
                   digestAuthError e];
         cache := {| nc := 100; cachedChallenge := Some Sample.fullChallenge |};
         result := inl e |}.
Proof.
  apply (proj1 (failed_probe_keeps_cache Sample.runtime Sample.admin
                  (Sample.always 503 None) (Sample.always 200 None) "0a4f113b"
                  Sample.doorRequest
                  {| nc := 100; cachedChallenge := Some Sample.fullChallenge |}
                  ltac:(discriminate))).
  reflexivity.
Defined.

(** ** A challenge that fails the check *)

Section Rejected.

Variable rt : Runtime.
Variable config : DigestAuthConfig.
Variables probeNet net : Network.
Variable cn : string.
Variable req : AxiosRequestConfig.
Variable h : string.

Hypothesis Hnet : probeNet (probeConfig req) = HttpResponse 401 (Some h).
Hypothesis Hdigest : Js.includes (Js.toLowerCase h) "digest " = true.

Lemma acquire_rejected (challengeText : string -> string) (s : Cache) :
  let c := parseDigestChallenge (challengeText h) in
  realm c = "" \/ nonce c = "" ->
  acquireWith challengeText probeNet req s
  = {| trace := [requestingChallenge; Probe (probeConfig req);
                 ConsoleLog [LText "Desafio analisado:"; LChallenge c]];
       cache := {| nc := nc s; cachedChallenge := Some c |};
       result := inl (InvalidDigestChallenge c) |}.
Proof.
  intros c Hempty. apply acquire_invalid; try assumption.
  apply andb_false_iff.
  destruct Hempty as [He | He]; [left | right]; now apply truthyStr_false.
Qed.

Lemma perform1_rejected_challenge :
  let c := parseDigestChallenge (Copy1.digestPart h) in
  realm c = "" \/ nonce c = "" ->
  let o := Copy1.perform rt config probeNet net cn req createDigestAuth in
  result o = inl (InvalidDigestChallenge c)
  /\ cache o = {| nc := 0; cachedChallenge := Some c |}.
Proof.
  intros c Hempty o. subst o.
  rewrite (perform1_acquire_error rt config probeNet net cn req createDigestAuth
             (InvalidDigestChallenge c) eq_refl);
    unfold Copy1.acquire; rewrite ?(acquire_rejected Copy1.digestPart _ Hempty);
    now repeat split.
Qed.

Lemma perform2_rejected_challenge :
  let c := parseDigestChallenge h in
  realm c = "" \/ nonce c = "" ->
  let o := Copy2.perform rt config probeNet net cn req createDigestAuth in
  result o = inl (InvalidDigestChallenge c)
  /\ cache o = {| nc := 0; cachedChallenge := Some c |}.
Proof.
  intros c Hempty o. subst o.
  rewrite (perform2_acquire_error rt config probeNet net cn req createDigestAuth
             (InvalidDigestChallenge c) eq_refl);
    unfold Copy2.acquire; rewrite ?(acquire_rejected (fun x => x) _ Hempty);
    now repeat split.
Qed.

End Rejected.

(** The request after the rejected challenge. *)
Section Next.

Variable rt : Runtime.
Variable config : DigestAuthConfig.
Variable net : Network.
Variable cn : string.
Variable req : AxiosRequestConfig.
Variable c : DigestChallenge.

(** The request that finds [c] with count 0. *)
Lemma intercept1_next :
  let o := Copy1.requestInterceptor rt config net cn req
             {| nc := 0; cachedChallenge := Some c |} in
  Spec.probes (trace o) = 0%nat
  /\ cache o = {| nc := 1; cachedChallenge := Some c |}
  /\ forall cfg, result o = inr cfg ->
       exists response,
         Spec.authorizationOf cfg
         = Some (Spec.render
                   (Spec.directives false (username config) c (Copy1.requestURI rt req)
                      response "00000001" cn)).
Proof.
  intros o.
  destruct (intercept1_summary rt config net cn req
              {| nc := 0; cachedChallenge := Some c |}) as (Hc & Hp & _).
  fold o in Hc, Hp. simpl in Hc, Hp.
  split; [exact Hp |]. split; [exact Hc |].
  intros cfg Hcfg.
  destruct (intercept1_header rt config net cn req _ cfg Hcfg)
    as (c' & response & Hc' & _ & Hauth).
  fold o in Hc', Hauth. rewrite Hc in Hc', Hauth. simpl in Hc', Hauth.
  injection Hc' as <-. now exists response.
Qed.

Lemma intercept2_next :
  let o := Copy2.requestInterceptor rt config net cn req
             {| nc := 0; cachedChallenge := Some c |} in
  Spec.probes (trace o) = 0%nat
  /\ cache o = {| nc := 1; cachedChallenge := Some c |}
  /\ forall cfg, result o = inr cfg ->
       exists response,
         Spec.authorizationOf cfg
         = Some (Spec.render
                   (Spec.directives true (username config) c (uri2 rt req)
                      response "00000001" cn)).
Proof.
  intros o.
  destruct (intercept2_summary rt config net cn req
              {| nc := 0; cachedChallenge := Some c |}) as (Hc & Hp & _).
  fold o in Hc, Hp. simpl in Hc, Hp.
  split; [exact Hp |]. split; [exact Hc |].
  intros cfg Hcfg.
  destruct (intercept2_header rt config net cn req _ cfg Hcfg)
    as (c' & response & Hc' & _ & Hauth).
  fold o in Hc', Hauth. rewrite Hc in Hc', Hauth. simpl in Hc', Hauth.
  injection Hc' as <-. now exists response.
Qed.

End Next.

(** X8.  On a new instance, a challenge that fails the check (empty realm
    or nonce) is reported to the caller and stays in the cache with count 0;
    the next request, whatever it asks for, sends no probe, counts to 1 and
    builds its header from that challenge. *)
Theorem rejected_challenge_is_used
    (rt : Runtime) (config : DigestAuthConfig) (probeNet net : Network)
    (cn : string) (req : AxiosRequestConfig) (h : string) :
  probeNet (probeConfig req) = HttpResponse 401 (Some h) ->
  Js.includes (Js.toLowerCase h) "digest " = true ->
  (let c := parseDigestChallenge (Copy1.digestPart h) in
   realm c = "" \/ nonce c = "" ->
   let o := Copy1.perform rt config probeNet net cn req createDigestAuth in
   result o = inl (InvalidDigestChallenge c)
   /\ cache o = {| nc := 0; cachedChallenge := Some c |}
   /\ forall probeNet' cn' req',
        let o' := Copy1.requestInterceptor rt config probeNet' cn' req' (cache o) in
        Spec.probes (trace o') = 0%nat
        /\ cache o' = {| nc := 1; cachedChallenge := Some c |}
        /\ forall cfg, result o' = inr cfg ->
             exists response,
               Spec.authorizationOf cfg
               = Some (Spec.render
                         (Spec.directives false (username config) c
                            (Copy1.requestURI rt req') response "00000001" cn')))
  /\ (let c := parseDigestChallenge h in
      realm c = "" \/ nonce c = "" ->
      let o := Copy2.perform rt config probeNet net cn req createDigestAuth in
      result o = inl (InvalidDigestChallenge c)
      /\ cache o = {| nc := 0; cachedChallenge := Some c |}
      /\ forall probeNet' cn' req',
           let o' := Copy2.requestInterceptor rt config probeNet' cn' req' (cache o) in
           Spec.probes (trace o') = 0%nat
           /\ cache o' = {| nc := 1; cachedChallenge := Some c |}
           /\ forall cfg, result o' = inr cfg ->
                exists response,
                  Spec.authorizationOf cfg
                  = Some (Spec.render
                            (Spec.directives true (username config) c
                               (uri2 rt req') response "00000001" cn'))).
Proof.
  intros Hnet Hdigest. split; intros c Hempty o.
  - destruct (perform1_rejected_challenge rt config probeNet net cn req h Hnet Hdigest
                Hempty) as [Hres Hcache].
    fold c o in Hres, Hcache. split; [exact Hres |]. split; [exact Hcache |].
    intros probeNet' cn' req'. rewrite Hcache. apply intercept1_next.
  - destruct (perform2_rejected_challenge rt config probeNet net cn req h Hnet Hdigest
                Hempty) as [Hres Hcache].
    fold c o in Hres, Hcache. split; [exact Hres |]. split; [exact Hcache |].
    intros probeNet' cn' req'. rewrite Hcache. apply intercept2_next.
Qed.

(** A device that sends a realm and no nonce. *)
Lemma rejected_challenge_is_used_witness :
  result (Copy2.perform Sample.runtime Sample.admin (Sample.device Sample.noNonceHeader)
            (Sample.device Sample.noNonceHeader) "0a4f113b" Sample.doorRequest
            createDigestAuth)
  = inl (InvalidDigestChallenge Sample.noNonce)
  /\ cache (Copy2.perform Sample.runtime Sample.admin (Sample.device Sample.noNonceHeader)
              (Sample.device Sample.noNonceHeader) "0a4f113b" Sample.doorRequest
              createDigestAuth)
     = {| nc := 0; cachedChallenge := Some Sample.noNonce |}.
Proof.
  destruct (proj2 (rejected_challenge_is_used Sample.runtime Sample.admin
                     (Sample.device Sample.noNonceHeader)
                     (Sample.device Sample.noNonceHeader) "0a4f113b" Sample.doorRequest
                     Sample.noNonceHeader eq_refl eq_refl)
                  (or_intror eq_refl)) as (Hres & Hcache & _).
  split; [exact Hres | exact Hcache].
Defined.

(** ** A challenge without [qop] *)

Section NoQop.

Variable rt : Runtime.
Variable config : DigestAuthConfig.
Variable req : AxiosRequestConfig.
Variable c : DigestChallenge.

Hypothesis Hq : Js.truthy (qop c) = false.

Lemma digestWith_fixed (n n' : Z) (cn cn' method uri : string) (hash : string -> string) :
  digestWith (username config) (password config) c n cn method uri hash
  = digestWith (username config) (password config) c n' cn' method uri hash.
Proof. unfold digestWith, responseBase. now rewrite Hq. Qed.

Lemma authQop_fixed (ncValue cn : string) : authQop c ncValue cn = "".
Proof. unfold authQop. now rewrite Hq. Qed.

Lemma authorize1_fixed (n n' : Z) (cn cn' : string) :
  result (Copy1.authorize rt config cn req {| nc := n; cachedChallenge := Some c |})
  = result (Copy1.authorize rt config cn' req {| nc := n'; cachedChallenge := Some c |}).
Proof.
  destruct (createHash rt "md5") as [hash |] eqn:Hh.
  - rewrite (authorize1_ok rt config cn req {| nc := n; cachedChallenge := Some c |}
               c hash eq_refl Hh),
      (authorize1_ok rt config cn' req {| nc := n'; cachedChallenge := Some c |}
         c hash eq_refl Hh). simpl.
    unfold authValue1. rewrite !authQop_fixed.
    now rewrite (digestWith_fixed n n' cn cn').
  - now rewrite (authorize1_unknown rt config cn req
                   {| nc := n; cachedChallenge := Some c |} c eq_refl Hh),
      (authorize1_unknown rt config cn' req
         {| nc := n'; cachedChallenge := Some c |} c eq_refl Hh).
Qed.

Lemma authorize2_fixed (n n' : Z) (cn cn' : string) :
  result (Copy2.authorize rt config cn req {| nc := n; cachedChallenge := Some c |})
  = result (Copy2.authorize rt config cn' req {| nc := n'; cachedChallenge := Some c |}).
Proof.
  destruct (createHash rt (Js.toLowerCase (Js.orElse (algorithm c) "MD5")))
    as [hash |] eqn:Hh.
  - rewrite (authorize2_ok rt config cn req {| nc := n; cachedChallenge := Some c |}
               c hash eq_refl Hh),
      (authorize2_ok rt config cn' req {| nc := n'; cachedChallenge := Some c |}
         c hash eq_refl Hh). simpl.
    unfold authValue2. rewrite !authQop_fixed.
    now rewrite (digestWith_fixed n n' cn cn').
  - now rewrite (authorize2_unknown rt config cn req
                   {| nc := n; cachedChallenge := Some c |} c eq_refl Hh),
      (authorize2_unknown rt config cn' req
         {| nc := n'; cachedChallenge := Some c |} c eq_refl Hh).
Qed.

End NoQop.

(** A request that finds a challenge and a count within the ceiling. *)
Lemma intercept_counted (auth : M AxiosRequestConfig) (s : Cache) :
  result (tryCatch (set_nc (nc s + 1) >> auth) rethrow s)
  = result (auth {| nc := nc s + 1; cachedChallenge := cachedChallenge s |}).
Proof.
  rewrite intercept_shape, set_nc_run. simpl.
  destruct (result (auth _)); reflexivity.
Qed.

(** X9.  With a challenge whose [qop] is absent or empty, the request the
    interceptor returns does not depend on the count nor on the client
    nonce: the same request gets the same [Authorization] value every time. *)
Theorem no_qop_same_header
    (rt : Runtime) (config : DigestAuthConfig) (net net' : Network)
    (req : AxiosRequestConfig) (c : DigestChallenge)
    (n n' : Z) (cn cn' : string) :
  Js.truthy (qop c) = false ->
  (n <= 99 -> n' <= 99 ->
   result (Copy1.requestInterceptor rt config net cn req
             {| nc := n; cachedChallenge := Some c |})
   = result (Copy1.requestInterceptor rt config net' cn' req
               {| nc := n'; cachedChallenge := Some c |}))
  /\ (n <= 9999 -> n' <= 9999 ->
      result (Copy2.requestInterceptor rt config net cn req
                {| nc := n; cachedChallenge := Some c |})
      = result (Copy2.requestInterceptor rt config net' cn' req
                  {| nc := n'; cachedChallenge := Some c |})).
Proof.
  intros Hq. split; intros Hn Hn'.
  - rewrite !intercept1_unfold.
    rewrite (over_active Copy1.ceiling {| nc := n; cachedChallenge := Some c |} c eq_refl Hn),
      (over_active Copy1.ceiling {| nc := n'; cachedChallenge := Some c |} c eq_refl Hn').
    rewrite !intercept_counted. now apply authorize1_fixed.
  - rewrite !intercept2_unfold.
    rewrite (over_active Copy2.ceiling {| nc := n; cachedChallenge := Some c |} c eq_refl Hn),
      (over_active Copy2.ceiling {| nc := n'; cachedChallenge := Some c |} c eq_refl Hn').
    rewrite !intercept_counted. now apply authorize2_fixed.
Qed.

(** The first and the forty-first use of a challenge with an empty [qop],
    with two client nonces. *)
Lemma no_qop_same_header_witness :
  result (Copy2.requestInterceptor Sample.runtime Sample.admin
            (Sample.device Sample.emptyQopHeader) "0a4f113b" Sample.doorRequest
            {| nc := 1; cachedChallenge := Some Sample.emptyQop |})
  = result (Copy2.requestInterceptor Sample.runtime Sample.admin
              (Sample.device Sample.emptyQopHeader) "7c2e9d01" Sample.doorRequest
              {| nc := 41; cachedChallenge := Some Sample.emptyQop |}).
Proof.
  apply (proj2 (no_qop_same_header Sample.runtime Sample.admin
                  (Sample.device Sample.emptyQopHeader)
                  (Sample.device Sample.emptyQopHeader) Sample.doorRequest
                  Sample.emptyQop 1 41 "0a4f113b" "7c2e9d01" eq_refl)); lia.
Defined.

(** ** What the interceptor returns *)

(** X10.  The request the interceptor returns is the caller's request with
    an [Authorization] header: method, URL, base URL, redirect limit, status
    check and timeout are the caller's, and so is every header whose name is
    not [Authorization] in some mix of capitals. *)
Theorem interceptor_sets_one_header
    (rt : Runtime) (config : DigestAuthConfig) (net : Network) (cn : string)
    (req : AxiosRequestConfig) (s : Cache) :
  let unchanged (cfg : AxiosRequestConfig) : Prop :=
    method cfg = method req /\ url cfg = url req /\ baseURL cfg = baseURL req
    /\ maxRedirects cfg = maxRedirects req /\ validateStatus cfg = validateStatus req
    /\ timeout cfg = timeout req
    /\ is_Some (Spec.authorizationOf cfg)
    /\ forall k, Js.toLowerCase k <> "authorization" ->
         default ∅ (headers cfg) !! k = default ∅ (headers req) !! k in
  (forall cfg,
     result (Copy1.requestInterceptor rt config net cn req s) = inr cfg -> unchanged cfg)
  /\ (forall cfg,
        result (Copy2.requestInterceptor rt config net cn req s) = inr cfg ->
        unchanged cfg).
Proof.
  intros unchanged.
  assert (Hset : forall v, unchanged (setAuthorization req v)).
  { intros v. unfold unchanged. repeat split.
    - rewrite authorizationOf_set. now exists v.
    - intros k Hk. unfold setAuthorization. cbn [headers].
      change (default ∅ (Some ?m)) with m.
      apply lookup_insert_ne. intros <-.
      pose proof (authorizationName_is (default ∅ (headers req))) as Hname.
      apply String.eqb_eq in Hname. now apply Hk. }
  split; intros cfg Hcfg.
  - pose proof (intercept1_result rt config net cn req s) as Hr.
    rewrite Hcfg in Hr. destruct Hr as [v ->]. apply Hset.
  - pose proof (intercept2_result rt config net cn req s) as Hr.
    rewrite Hcfg in Hr. destruct Hr as [v ->]. apply Hset.
Qed.

(** ** Errors on the console *)

Section ErrorLog.

Lemma consoleErrors_app (a b : list Event) :
  consoleErrors (a ++ b) = (consoleErrors a + consoleErrors b)%nat.
Proof. unfold consoleErrors. now rewrite List.filter_app, List.length_app. Qed.

Lemma acquire_consoleErrors challengeText net req s :
  consoleErrors (trace (acquireWith challengeText net req s)) = 0%nat.
Proof. destruct (acquire_cases challengeText net req s); reflexivity. Qed.

Lemma uriWarning_consoleErrors rt req : consoleErrors (uriWarning rt req) = 0%nat.
Proof. unfold uriWarning. destruct (newURL rt _ _); reflexivity. Qed.

Lemma authorize1_consoleErrors rt config cn req s :
  consoleErrors (trace (Copy1.authorize rt config cn req s)) = 0%nat.
Proof.
  destruct (cachedChallenge s) as [c |] eqn:Hc.
  - destruct (createHash rt "md5") as [hash |] eqn:Hh.
    + now rewrite (authorize1_ok rt config cn req s c hash Hc Hh).
    + now rewrite (authorize1_unknown rt config cn req s c Hc Hh).
  - now rewrite authorize1_none.
Qed.

Lemma authorize2_consoleErrors rt config cn req s :
  consoleErrors (trace (Copy2.authorize rt config cn req s)) = 0%nat.
Proof.
  pose proof (uriWarning_consoleErrors rt req) as Hw.
  destruct (cachedChallenge s) as [c |] eqn:Hc.
  - destruct (createHash rt (Js.toLowerCase (Js.orElse (algorithm c) "MD5")))
      as [hash |] eqn:Hh.
    + rewrite (authorize2_ok rt config cn req s c hash Hc Hh). simpl.
      now rewrite consoleErrors_app, Hw.
    + now rewrite (authorize2_unknown rt config cn req s c Hc Hh).
  - now rewrite authorize2_none.
Qed.

Lemma intercept_consoleErrors (pre : M unit) (auth : M AxiosRequestConfig) (s : Cache) :
  consoleErrors (trace (pre s)) = 0%nat ->
  (forall s1, consoleErrors (trace (auth s1)) = 0%nat) ->
  let o := tryCatch (pre >> auth) rethrow s in
  match result o with
  | inl e => exists t, trace o = (t ++ [digestAuthError e])%list /\ consoleErrors t = 0%nat
  | inr _ => consoleErrors (trace o) = 0%nat
  end.
Proof.
  intros Hpre Hauth o. subst o. rewrite intercept_shape.
  destruct (result (pre s)) as [e | []]; simpl.
  - now exists (trace (pre s)).
  - specialize (Hauth (cache (pre s))).
    destruct (result (auth (cache (pre s)))) as [e | cfg]; simpl.
    + eexists. split; [reflexivity |]. now rewrite consoleErrors_app, Hpre, Hauth.
    + now rewrite consoleErrors_app, Hpre, Hauth.
Qed.

End ErrorLog.

(** X11.  The request interceptor calls [console.error] exactly once when
    it throws, as the last thing it does and with the error it throws, and
    never when it returns. *)
Theorem interceptor_logs_each_error_once
    (rt : Runtime) (config : DigestAuthConfig) (net : Network) (cn : string)
    (req : AxiosRequestConfig) (s : Cache) :
  let reported (o : Outcome AxiosRequestConfig) : Prop :=
    match result o with
    | inl e =>
        exists t, trace o = (t ++ [digestAuthError e])%list /\ consoleErrors t = 0%nat
    | inr _ => consoleErrors (trace o) = 0%nat
    end in
  reported (Copy1.requestInterceptor rt config net cn req s)
  /\ reported (Copy2.requestInterceptor rt config net cn req s).
Proof.
  intros reported. subst reported. cbv beta. split.
  - rewrite intercept1_unfold. apply intercept_consoleErrors.
    + destruct (over Copy1.ceiling s); [apply acquire_consoleErrors | reflexivity].
    + intros s1. apply authorize1_consoleErrors.
  - rewrite intercept2_unfold. apply intercept_consoleErrors.
    + destruct (over Copy2.ceiling s); [apply acquire_consoleErrors | reflexivity].
    + intros s1. apply authorize2_consoleErrors.
Qed.

(** ** A call that resolves *)

Section Resolved.

Variable intercept : M AxiosRequestConfig.
Variable net : Network.
Variable s : Cache.

Lemma perform_returns (r : AxiosResponse) :
  result (tryCatch (let* cfg := intercept in dispatchRequest net cfg) responseRejected s)
  = inr r ->
  exists cfg,
    result (intercept s) = inr cfg
    /\ net cfg = HttpResponse (status r) (www_authenticate r)
    /\ default defaultValidateStatus (validateStatus cfg) (status r) = true
    /\ tryCatch (let* cfg := intercept in dispatchRequest net cfg) responseRejected s
       = {| trace := trace (intercept s) ++ [Dispatch cfg];
            cache := cache (intercept s); result := inr r |}.
Proof.
  destruct (result (intercept s)) as [e | cfg] eqn:Hi.
  - rewrite (perform_intercept_error intercept net s e Hi). discriminate.
  - destruct (result (dispatchRequest net cfg (cache (intercept s)))) as [e | r'] eqn:Hd.
    + rewrite (perform_rejected intercept net s cfg e Hi Hd). discriminate.
    + rewrite (perform_resolved intercept net s cfg r' Hi Hd). simpl.
      intros [= ->]. exists cfg. split; [reflexivity |].
      rewrite dispatchRequest_run in Hd. simpl in Hd.
      destruct (net cfg) as [| st h]; [discriminate |].
      destruct (default defaultValidateStatus (validateStatus cfg) st) eqn:Hv;
        [| discriminate].
      injection Hd as <-. simpl. now repeat split.
Qed.

End Resolved.

(** Nothing the request interceptor puts on the wire carries an
    [Authorization] value: its only request is the probe. *)
Section Sent.

Lemma sent_app (a b : list Event) :
  Spec.authorizationsSent (a ++ b)
  = (Spec.authorizationsSent a ++ Spec.authorizationsSent b)%list.
Proof. unfold Spec.authorizationsSent. apply omap_app. Qed.

Lemma acquire_sent challengeText net req s :
  Spec.authorizationsSent (trace (acquireWith challengeText net req s)) = [].
Proof. destruct (acquire_cases challengeText net req s); reflexivity. Qed.

Lemma uriWarning_sent rt req : Spec.authorizationsSent (uriWarning rt req) = [].
Proof. unfold uriWarning. destruct (newURL rt _ _); reflexivity. Qed.

Lemma authorize1_sent rt config cn req s :
  Spec.authorizationsSent (trace (Copy1.authorize rt config cn req s)) = [].
Proof.
  destruct (cachedChallenge s) as [c |] eqn:Hc.
  - destruct (createHash rt "md5") as [hash |] eqn:Hh.
    + now rewrite (authorize1_ok rt config cn req s c hash Hc Hh).
    + now rewrite (authorize1_unknown rt config cn req s c Hc Hh).
  - now rewrite authorize1_none.
Qed.

Lemma authorize2_sent rt config cn req s :
  Spec.authorizationsSent (trace (Copy2.authorize rt config cn req s)) = [].
Proof.
  pose proof (uriWarning_sent rt req) as Hw.
  destruct (cachedChallenge s) as [c |] eqn:Hc.
  - destruct (createHash rt (Js.toLowerCase (Js.orElse (algorithm c) "MD5")))
      as [hash |] eqn:Hh.
    + rewrite (authorize2_ok rt config cn req s c hash Hc Hh). simpl.
      now rewrite sent_app, Hw.
    + now rewrite (authorize2_unknown rt config cn req s c Hc Hh).
  - now rewrite authorize2_none.
Qed.

Lemma intercept_sent (pre : M unit) (auth : M AxiosRequestConfig) (s : Cache) :
  Spec.authorizationsSent (trace (pre s)) = [] ->
  (forall s1, Spec.authorizationsSent (trace (auth s1)) = []) ->
  Spec.authorizationsSent (trace (tryCatch (pre >> auth) rethrow s)) = [].
Proof.
  intros Hpre Hauth. rewrite intercept_shape.
  destruct (result (pre s)) as [e | []]; simpl.
  - now rewrite sent_app, Hpre.
  - specialize (Hauth (cache (pre s))).
    destruct (result (auth (cache (pre s)))) as [e | cfg]; simpl;
      rewrite ?sent_app, Hpre, Hauth; reflexivity.
Qed.

Lemma intercept1_sent rt config net cn req s :
  Spec.authorizationsSent (trace (Copy1.requestInterceptor rt config net cn req s)) = [].
Proof.
  rewrite intercept1_unfold. apply intercept_sent.
  - destruct (over Copy1.ceiling s); [apply acquire_sent | reflexivity].
  - intros s1. apply authorize1_sent.
Qed.

Lemma intercept2_sent rt config net cn req s :
  Spec.authorizationsSent (trace (Copy2.requestInterceptor rt config net cn req s)) = [].
Proof.
  rewrite intercept2_unfold. apply intercept_sent.
  - destruct (over Copy2.ceiling s); [apply acquire_sent | reflexivity].
  - intros s1. apply authorize2_sent.
Qed.

End Sent.

(** After [set], the store holds the value under every name that is
    [authorization] in some capitals, when it held the header under one name
    at most. *)
Lemma setAuthorization_only (req : AxiosRequestConfig) (v : string) :
  namedOnce req ->
  forall k x,
    isAuthorization k = true ->
    default ∅ (headers (setAuthorization req v)) !! k = Some x -> x = v.
Proof.
  intros Honce k x Hk. unfold setAuthorization. cbn [headers].
  change (default ∅ (Some ?m)) with m.
  set (h := default ∅ (headers req)) in *.
  destruct (decide (k = authorizationName h)) as [-> | Hne].
  - rewrite lookup_insert_eq. now intros [= ->].
  - rewrite lookup_insert_ne by congruence. intros Hx. exfalso. apply Hne.
    unfold authorizationName.
    destruct (findAuthorization h) as [name |] eqn:Hf.
    + destruct (findAuthorization_some h name Hf) as [Hname Hin].
      apply Honce; try assumption. now exists x.
    + rewrite (findAuthorization_none h k Hf Hk) in Hx. discriminate.
Qed.

(** A call of either copy that resolves. *)
Section Resolves.

Variable rt : Runtime.
Variable config : DigestAuthConfig.
Variables probeNet net : Network.
Variable cn : string.
Variable req : AxiosRequestConfig.
Variable s : Cache.

Lemma perform1_resolves (r : AxiosResponse) :
  result (Copy1.perform rt config probeNet net cn req s) = inr r ->
  exists v c,
    result (Copy1.requestInterceptor rt config probeNet cn req s)
    = inr (setAuthorization req v)
    /\ net (setAuthorization req v) = HttpResponse (status r) (www_authenticate r)
    /\ default defaultValidateStatus (validateStatus req) (status r) = true
    /\ trace (Copy1.perform rt config probeNet net cn req s)
       = (trace (Copy1.requestInterceptor rt config probeNet cn req s)
          ++ [Dispatch (setAuthorization req v)])%list
    /\ Spec.dispatches (trace (Copy1.perform rt config probeNet net cn req s)) = 1%nat
    /\ Spec.authorizationsSent (trace (Copy1.perform rt config probeNet net cn req s))
       = [v]
    /\ cache (Copy1.perform rt config probeNet net cn req s)
       = cache (Copy1.requestInterceptor rt config probeNet cn req s)
    /\ cachedChallenge (cache (Copy1.perform rt config probeNet net cn req s)) = Some c
    /\ (namedOnce req ->
        forall k x,
          isAuthorization k = true ->
          default ∅ (headers (setAuthorization req v)) !! k = Some x -> x = v).
Proof.
  intros Hr. unfold Copy1.perform in *.
  destruct (perform_returns _ net s r Hr) as (cfg & Hi & Hnet & Hv & Hrun).
  pose proof (intercept1_result rt config probeNet cn req s) as Hset.
  rewrite Hi in Hset. destruct Hset as [v ->].
  destruct (intercept1_header rt config probeNet cn req s _ Hi) as (c & _ & Hc & _).
  exists v, c. rewrite Hrun. cbn [trace cache result].
  repeat split; try assumption.
  - rewrite dispatches_app, intercept1_dispatches. reflexivity.
  - rewrite sent_app, intercept1_sent. simpl. now rewrite authorizationOf_set.
  - intros Honce k x. now apply setAuthorization_only.
Qed.

Lemma perform2_resolves (r : AxiosResponse) :
  result (Copy2.perform rt config probeNet net cn req s) = inr r ->
  exists v c,
    result (Copy2.requestInterceptor rt config probeNet cn req s)
    = inr (setAuthorization req v)
    /\ net (setAuthorization req v) = HttpResponse (status r) (www_authenticate r)
    /\ default defaultValidateStatus (validateStatus req) (status r) = true
    /\ trace (Copy2.perform rt config probeNet net cn req s)
       = (trace (Copy2.requestInterceptor rt config probeNet cn req s)
          ++ [Dispatch (setAuthorization req v)])%list
    /\ Spec.dispatches (trace (Copy2.perform rt config probeNet net cn req s)) = 1%nat
    /\ Spec.authorizationsSent (trace (Copy2.perform rt config probeNet net cn req s))
       = [v]
    /\ cache (Copy2.perform rt config probeNet net cn req s)
       = cache (Copy2.requestInterceptor rt config probeNet cn req s)
    /\ cachedChallenge (cache (Copy2.perform rt config probeNet net cn req s)) = Some c
    /\ (namedOnce req ->
        forall k x,
          isAuthorization k = true ->
          default ∅ (headers (setAuthorization req v)) !! k = Some x -> x = v).
Proof.
  intros Hr. unfold Copy2.perform in *.
  destruct (perform_returns _ net s r Hr) as (cfg & Hi & Hnet & Hv & Hrun).
  pose proof (intercept2_result rt config probeNet cn req s) as Hset.
  rewrite Hi in Hset. destruct Hset as [v ->].
  destruct (intercept2_header rt config probeNet cn req s _ Hi) as (c & _ & Hc & _).
  exists v, c. rewrite Hrun. cbn [trace cache result].
  repeat split; try assumption.
  - rewrite dispatches_app, intercept2_dispatches. reflexivity.
  - rewrite sent_app, intercept2_sent. simpl. now rewrite authorizationOf_set.
  - intros Honce k x. now apply setAuthorization_only.
Qed.

End Resolves.

(** X12.  A call that resolves has put exactly one request with
    credentials on the wire, the caller's request with the header the
    interceptor assembled, written over the [Authorization] header the
    caller may have set under any capitals; what it returns is the device's
    answer to that request, with a status the caller's status check accepts;
    the cache is the one the interceptor left and holds a challenge.  When
    the caller's request held the header under one name at most, the request
    on the wire holds no other value under any such name. *)
Theorem resolved_call
    (rt : Runtime) (config : DigestAuthConfig) (probeNet net : Network) (cn : string)
    (req : AxiosRequestConfig) (s : Cache) :
  (forall r,
     result (Copy1.perform rt config probeNet net cn req s) = inr r ->
     exists v c,
       result (Copy1.requestInterceptor rt config probeNet cn req s)
       = inr (setAuthorization req v)
       /\ net (setAuthorization req v) = HttpResponse (status r) (www_authenticate r)
       /\ default defaultValidateStatus (validateStatus req) (status r) = true
       /\ trace (Copy1.perform rt config probeNet net cn req s)
          = (trace (Copy1.requestInterceptor rt config probeNet cn req s)
             ++ [Dispatch (setAuthorization req v)])%list
       /\ Spec.dispatches (trace (Copy1.perform rt config probeNet net cn req s)) = 1%nat
       /\ Spec.authorizationsSent (trace (Copy1.perform rt config probeNet net cn req s))
          = [v]
       /\ cache (Copy1.perform rt config probeNet net cn req s)
          = cache (Copy1.requestInterceptor rt config probeNet cn req s)
       /\ cachedChallenge (cache (Copy1.perform rt config probeNet net cn req s)) = Some c
       /\ (namedOnce req ->
           forall k x,
             isAuthorization k = true ->
             default ∅ (headers (setAuthorization req v)) !! k = Some x -> x = v))
  /\ (forall r,
        result (Copy2.perform rt config probeNet net cn req s) = inr r ->
        exists v c,
          result (Copy2.requestInterceptor rt config probeNet cn req s)
          = inr (setAuthorization req v)
          /\ net (setAuthorization req v) = HttpResponse (status r) (www_authenticate r)
          /\ default defaultValidateStatus (validateStatus req) (status r) = true
          /\ trace (Copy2.perform rt config probeNet net cn req s)
             = (trace (Copy2.requestInterceptor rt config probeNet cn req s)
                ++ [Dispatch (setAuthorization req v)])%list
          /\ Spec.dispatches (trace (Copy2.perform rt config probeNet net cn req s))
             = 1%nat
          /\ Spec.authorizationsSent
               (trace (Copy2.perform rt config probeNet net cn req s)) = [v]
          /\ cache (Copy2.perform rt config probeNet net cn req s)
             = cache (Copy2.requestInterceptor rt config probeNet cn req s)
          /\ cachedChallenge (cache (Copy2.perform rt config probeNet net cn req s))
             = Some c
          /\ (namedOnce req ->
              forall k x,
                isAuthorization k = true ->
                default ∅ (headers (setAuthorization req v)) !! k = Some x -> x = v)).
Proof.
  split; intros r Hr.
  - now apply perform1_resolves.
  - now apply perform2_resolves.
Qed.

(** ** A header without directives *)

Section NoDirective.

Lemma span_keeps (p q : ascii -> bool) (s : string) :
  Wire.allChars q s = true -> Wire.allChars q (snd (Regex.span p s)) = true.
Proof.
  induction s as [| c r IH]; [reflexivity |].
  intros H. cbn [Regex.span]. destruct (p c); [| exact H].
  simpl in H. apply andb_true_iff in H as [_ H]. specialize (IH H).
  destruct (Regex.span p r) as [a b]. exact IH.
Qed.

Lemma matchHere_no_equals (s : string) :
  Wire.allChars Wire.notEquals s = true -> Regex.matchHere s = None.
Proof.
  intros H. apply (span_keeps Regex.isWord) in H. unfold Regex.matchHere.
  destruct (Regex.span Regex.isWord s) as [[| k0 k] [| c b]]; try reflexivity.
  simpl in H. apply andb_true_iff in H as [H _].
  destruct c as [[] [] [] [] [] [] [] []]; try reflexivity; discriminate.
Qed.

Lemma exec_no_equals (s : string) :
  Wire.allChars Wire.notEquals s = true -> Regex.exec s = None.
Proof.
  induction s as [| c r IH]; intros H.
  - reflexivity.
  - cbn [Regex.exec]. rewrite (matchHere_no_equals _ H).
    simpl in H. apply andb_true_iff in H as [_ H]. now apply IH.
Qed.

Lemma substring_keeps (q : ascii -> bool) (n : nat) (s : string) :
  Wire.allChars q s = true -> Wire.allChars q (Js.substring n s) = true.
Proof.
  revert s. induction n as [| n IH]; intros s H; [now destruct s |].
  destruct s as [| c r]; [reflexivity |].
  simpl in H. apply andb_true_iff in H as [_ H]. now apply IH.
Qed.

Lemma parse_no_equals (s : string) :
  Wire.allChars Wire.notEquals s = true -> parseDigestChallenge s = emptyChallenge.
Proof.
  intros H. unfold parseDigestChallenge. now apply parseLoop_none, exec_no_equals.
Qed.

End NoDirective.

(** X13.  A header without an equals sign holds no directive: the parser
    returns the empty challenge, and a probe answered 401 with such a header
    that mentions [digest ] fails the check in both copies, leaving the empty
    challenge in the cache. *)
Theorem header_without_directive
    (probeNet : Network) (req : AxiosRequestConfig) (s : Cache) (h : string) :
  Wire.allChars Wire.notEquals h = true ->
  parseDigestChallenge h = emptyChallenge
  /\ parseDigestChallenge (Copy1.digestPart h) = emptyChallenge
  /\ (probeNet (probeConfig req) = HttpResponse 401 (Some h) ->
      Js.includes (Js.toLowerCase h) "digest " = true ->
      result (Copy1.acquire probeNet req s) = inl (InvalidDigestChallenge emptyChallenge)
      /\ result (Copy2.acquire probeNet req s) = inl (InvalidDigestChallenge emptyChallenge)
      /\ cache (Copy1.acquire probeNet req s)
         = {| nc := nc s; cachedChallenge := Some emptyChallenge |}
      /\ cache (Copy2.acquire probeNet req s)
         = {| nc := nc s; cachedChallenge := Some emptyChallenge |}).
Proof.
  intros H.
  assert (H2 : parseDigestChallenge h = emptyChallenge) by now apply parse_no_equals.
  assert (H1 : parseDigestChallenge (Copy1.digestPart h) = emptyChallenge).
  { apply parse_no_equals. unfold Copy1.digestPart. now apply substring_keeps. }
  split; [exact H2 |]. split; [exact H1 |].
  intros Hnet Hdigest. unfold Copy1.acquire, Copy2.acquire.
  rewrite (acquire_rejected probeNet req h Hnet Hdigest Copy1.digestPart s)
    by (rewrite H1; now left).
  rewrite (acquire_rejected probeNet req h Hnet Hdigest (fun x => x) s)
    by (rewrite H2; now left).
  simpl. rewrite H1, H2. now repeat split.
Qed.

(** A header that names the scheme and a word. *)
Lemma header_without_directive_witness :
  parseDigestChallenge "Digest realm" = emptyChallenge
  /\ result (Copy2.acquire (Sample.device "Digest realm") Sample.doorRequest
               createDigestAuth)
     = inl (InvalidDigestChallenge emptyChallenge).
Proof.
  destruct (header_without_directive (Sample.device "Digest realm") Sample.doorRequest
              createDigestAuth "Digest realm" eq_refl) as (H2 & _ & H).
  split; [exact H2 |]. now destruct (H eq_refl eq_refl) as (_ & H' & _).
Defined.

(** ** The fallback of the first copy for a URL that does not parse *)

Section Origin.

Lemma span_split (p : ascii -> bool) (s : string) :
  s = fst (Regex.span p s) ++ snd (Regex.span p s)
  /\ Wire.allChars p (fst (Regex.span p s)) = true
  /\ (snd (Regex.span p s) = ""
      \/ exists c b, snd (Regex.span p s) = String c b /\ p c = false).
Proof.
  induction s as [| c r IH]; [simpl; auto |].
  cbn [Regex.span]. destruct (p c) eqn:Hc.
  - destruct (Regex.span p r) as [a b]. simpl in *.
    destruct IH as (Hs & Ha & Hb). rewrite Hc, Ha. repeat split; try assumption.
    rewrite append_cons. now rewrite <- Hs.
  - simpl. repeat split. right. now exists c, r.
Qed.

Lemma lower_prefix (p u : string) :
  Js.startsWith (Js.toLowerCase u) p = true ->
  exists a, u = a ++ Js.substring (String.length p) u /\ Js.toLowerCase a = p.
Proof.
  revert u. induction p as [| x p IH]; intros u H.
  - exists "". split; [now destruct u | reflexivity].
  - destruct u as [| c r]; [discriminate |].
    cbn [Js.toLowerCase Js.startsWith] in H.
    destruct (Ascii.eqb_spec x (Js.toLowerCaseChar c)) as [-> | _]; [| discriminate].
    destruct (IH r H) as (a & Hr & Ha).
    exists (String c a). split.
    + rewrite append_cons. cbn [String.length Js.substring]. now rewrite <- Hr.
    + cbn [Js.toLowerCase]. now rewrite Ha.
Qed.

Lemma length_toLowerCase (s : string) : String.length (Js.toLowerCase s) = String.length s.
Proof. induction s as [| c r IH]; [reflexivity |]. simpl. now rewrite IH. Qed.

Lemma stripOrigin_authority (authority r : string) :
  authority <> "" -> Wire.allChars Wire.notSlash authority = true ->
  r = "" \/ Js.startsWith r "/" = true ->
  match Regex.span (fun c => negb (Ascii.eqb c "/")) (authority ++ r) with
  | (String _ _, r') => Some r'
  | _ => None
  end = Some r.
Proof.
  intros Hne Ha Hr.
  assert (Hspan : Regex.span Wire.notSlash (authority ++ r) = (authority, r)).
  { destruct Hr as [-> | Hr].
    - rewrite append_empty. now apply span_end.
    - destruct r as [| c r']; [discriminate |]. cbn [Js.startsWith] in Hr.
      destruct (Ascii.eqb_spec "/"%char c) as [<- | _]; [| discriminate].
      now apply span_stop. }
  change (fun c => negb (Ascii.eqb c "/")) with Wire.notSlash. rewrite Hspan.
  destruct authority; [contradiction | reflexivity].
Qed.

Lemma stripOrigin_strips (scheme authority r : string) :
  Js.toLowerCase scheme = "http://" \/ Js.toLowerCase scheme = "https://" ->
  authority <> "" -> Wire.allChars Wire.notSlash authority = true ->
  r = "" \/ Js.startsWith r "/" = true ->
  stripOrigin (scheme ++ authority ++ r) = Some r.
Proof.
  intros Hs Hne Ha Hr. unfold stripOrigin. rewrite toLowerCase_append.
  destruct Hs as [Hs | Hs]; rewrite Hs.
  - change (Js.startsWith ("http://" ++ Js.toLowerCase (authority ++ r)) "https://")
      with false.
    rewrite startsWith_append.
    replace 7%nat with (String.length scheme)
      by (now rewrite <- length_toLowerCase, Hs).
    rewrite substring_append. now apply stripOrigin_authority.
  - rewrite startsWith_append.
    replace 8%nat with (String.length scheme)
      by (now rewrite <- length_toLowerCase, Hs).
    rewrite substring_append. now apply stripOrigin_authority.
Qed.

Lemma stripOrigin_rest (after r : string) :
  match Regex.span (fun c => negb (Ascii.eqb c "/")) after with
  | (String _ _, r') => Some r'
  | _ => None
  end = Some r ->
  exists authority,
    after = authority ++ r /\ authority <> ""
    /\ Wire.allChars Wire.notSlash authority = true
    /\ (r = "" \/ Js.startsWith r "/" = true).
Proof.
  change (fun c => negb (Ascii.eqb c "/")) with Wire.notSlash.
  destruct (span_split Wire.notSlash after) as (Hs & Ha & Hb).
  destruct (Regex.span Wire.notSlash after) as [[| k0 k] b]; [discriminate |].
  intros [= ->]. simpl in *. exists (String k0 k).
  split; [exact Hs |]. split; [discriminate |]. split; [exact Ha |].
  destruct Hb as [-> | (c & b & -> & Hc)]; [now left | right].
  unfold Wire.notSlash in Hc. apply negb_false_iff in Hc.
  apply Ascii.eqb_eq in Hc as ->. now destruct b.
Qed.


End Origin.

(** X14.  The regular expression of the fallback removes exactly a scheme
    [http://] or [https://], in any mix of capitals, and the non-empty run of
    characters up to the first slash: what is left is empty or starts with a
    slash. *)
Theorem fallback_strips_origin (u r : string) :
  stripOrigin u = Some r
  <-> exists scheme authority,
        u = scheme ++ authority ++ r
        /\ (Js.toLowerCase scheme = "http://" \/ Js.toLowerCase scheme = "https://")
        /\ authority <> ""
        /\ Wire.allChars Wire.notSlash authority = true
        /\ (r = "" \/ Js.startsWith r "/" = true).
Proof.
  split.
  - unfold stripOrigin.
    destruct (Js.startsWith (Js.toLowerCase u) "https://") eqn:H8.
    + intros H. apply stripOrigin_rest in H as (authority & Hafter & Hrest).
      destruct (lower_prefix _ _ H8) as (scheme & Hu & Hs).
      exists scheme, authority. split; [| split; [now right | exact Hrest]].
      rewrite <- Hafter. exact Hu.
    + destruct (Js.startsWith (Js.toLowerCase u) "http://") eqn:H7; [| discriminate].
      intros H. apply stripOrigin_rest in H as (authority & Hafter & Hrest).
      destruct (lower_prefix _ _ H7) as (scheme & Hu & Hs).
      exists scheme, authority. split; [| split; [now left | exact Hrest]].
      rewrite <- Hafter. exact Hu.
  - intros (scheme & authority & -> & Hs & Hne & Ha & Hr).
    now apply stripOrigin_strips.
Qed.

(** ** The request URI *)

Section RequestURI.




Variable rt : Runtime.
Variable config : DigestAuthConfig.
Variable net : Network.
Variable cn : string.
Variable req : AxiosRequestConfig.
Variable s : Cache.





End RequestURI.




(** The first copy asks whether the URL starts with [http] in small
    letters before it parses it (line 152), though the expression of its own
    fallback is written without regard to case.  An absolute URL whose scheme
    is written in capitals and that comes without a base URL is therefore
    never parsed: the whole URL, with scheme, host and port, is hashed and
    sent as the [uri] directive.  The second copy hands every URL to the
    parser and gets the path. *)
Example capital_scheme_is_not_parsed :
  url Sample.capitalsRequest = Some "HTTP://device:8080/door/1"
  /\ Copy1.requestURI Sample.runtime Sample.capitalsRequest = "HTTP://device:8080/door/1"
  /\ Spec.hasScheme (Copy1.requestURI Sample.runtime Sample.capitalsRequest) = true
  /\ Spec.authorizationIn
       (Copy1.requestInterceptor Sample.runtime Sample.admin
          (Sample.device Sample.fullHeader) "0a4f113b" Sample.capitalsRequest
          createDigestAuth)
     = Some (Spec.render
               [ Spec.quotedDirective "username" "admin";
                 Spec.quotedDirective "realm" "example";
                 Spec.quotedDirective "nonce" "abc123";
                 Spec.quotedDirective "uri" "HTTP://device:8080/door/1";
                 Spec.quotedDirective "response"
                   (MD5.hex
                      (MD5.hex "admin:example:secret" ++ ":abc123:00000001:0a4f113b:auth:"
                       ++ MD5.hex "PUT:HTTP://device:8080/door/1"));
                 Spec.bareDirective "qop" "auth";
                 Spec.bareDirective "nc" "00000001";
                 Spec.quotedDirective "cnonce" "0a4f113b";
                 Spec.quotedDirective "opaque" "5ccc" ])
  /\ uri2 Sample.runtime Sample.capitalsRequest = "/door/1".
Proof. vm_compute. repeat split; reflexivity. Qed.


(** ** The count a header carries *)

Section SentCount.

Variables (ceiling : Z) (challengeText : string -> string).
Variables (net : Network) (req : AxiosRequestConfig) (s : Cache).

Lemma gate_count_sent :
  0 <= ceiling -> counted ceiling s ->
  result ((if over ceiling s then acquireWith challengeText net req
           else set_nc (nc s + 1)) s) = inr tt ->
  1 <= nc (cache ((if over ceiling s then acquireWith challengeText net req
                   else set_nc (nc s + 1)) s)) <= ceiling + 1.
Proof.
  intros Hc [Hr _]. destruct (over ceiling s) eqn:Ho.
  - destruct (acquire_cases challengeText net req s); simpl; try discriminate.
    intros _. lia.
  - destruct (over_false _ _ Ho) as [_ Hle]. rewrite set_nc_run. simpl. lia.
Qed.

End SentCount.

Lemma intercept1_count rt config net cn req s cfg :
  counted Copy1.ceiling s ->
  result (Copy1.requestInterceptor rt config net cn req s) = inr cfg ->
  1 <= nc (cache (Copy1.requestInterceptor rt config net cn req s)) <= 100.
Proof.
  intros Hs Hcfg.
  destruct (intercept1_summary rt config net cn req s) as (-> & _).
  rewrite intercept1_unfold in Hcfg. apply intercept_success in Hcfg as (Hpre & _).
  exact (gate_count_sent Copy1.ceiling Copy1.digestPart net req s ltac:(discriminate)
           Hs Hpre).
Qed.

Lemma intercept2_count rt config net cn req s cfg :
  counted Copy2.ceiling s ->
  result (Copy2.requestInterceptor rt config net cn req s) = inr cfg ->
  1 <= nc (cache (Copy2.requestInterceptor rt config net cn req s)) <= 10000.
Proof.
  intros Hs Hcfg.
  destruct (intercept2_summary rt config net cn req s) as (-> & _).
  rewrite intercept2_unfold in Hcfg. apply intercept_success in Hcfg as (Hpre & _).
  exact (gate_count_sent Copy2.ceiling (fun h => h) net req s ltac:(discriminate)
           Hs Hpre).
Qed.

(** X15.  After any calls on one instance, a request the interceptor
    returns was built with a count between 1 and one above the ceiling, which
    is printed with exactly eight hexadecimal digits that denote it. *)
Theorem header_count_in_range
    (rt : Runtime) (config : DigestAuthConfig) (calls : list Call)
    (net : Network) (cn : string) (req : AxiosRequestConfig) :
  let s1 := snd (runCalls (runCall (Copy1.perform rt config)) calls createDigestAuth) in
  let s2 := snd (runCalls (runCall (Copy2.perform rt config)) calls createDigestAuth) in
  let o1 := Copy1.requestInterceptor rt config net cn req s1 in
  let o2 := Copy2.requestInterceptor rt config net cn req s2 in
  (forall cfg, result o1 = inr cfg ->
     1 <= nc (cache o1) <= 100
     /\ String.length (formatNonceCount (nc (cache o1))) = 8%nat
     /\ Spec.hexValue (formatNonceCount (nc (cache o1))) = nc (cache o1))
  /\ (forall cfg, result o2 = inr cfg ->
        1 <= nc (cache o2) <= 10000
        /\ String.length (formatNonceCount (nc (cache o2))) = 8%nat
        /\ Spec.hexValue (formatNonceCount (nc (cache o2))) = nc (cache o2)).
Proof.
  intros s1 s2 o1 o2. split; intros cfg Hcfg.
  - pose proof (intercept1_count rt config net cn req s1 cfg
                  (calls1_counted rt config calls) Hcfg) as Hn.
    fold o1 in Hn. split; [exact Hn |].
    destruct (formatNonceCount_eight (nc (cache o1))) as (Hl & _ & Hv);
      [| now split].
    change (2 ^ 32) with 4294967296. lia.
  - pose proof (intercept2_count rt config net cn req s2 cfg
                  (calls2_counted rt config calls) Hcfg) as Hn.
    fold o2 in Hn. split; [exact Hn |].
    destruct (formatNonceCount_eight (nc (cache o2))) as (Hl & _ & Hv);
      [| now split].
    change (2 ^ 32) with 4294967296. lia.
Qed.

(** ** Where the two copies meet *)

Section Agreement.

Variable rt : Runtime.
Variable config : DigestAuthConfig.
Variable cn : string.
Variable req : AxiosRequestConfig.
Variable c : DigestChallenge.

Hypothesis Halgorithm : Js.truthy (algorithm c) = false.
Hypothesis Huri : Copy1.requestURI rt req = uri2 rt req.

Lemma orElse_md5 : Js.orElse (algorithm c) "MD5" = "MD5".
Proof.
  unfold Js.orElse, Js.truthy in *. now destruct (algorithm c) as [[| a0 a] |].
Qed.

Lemma authValue_agree (n : Z) (uri response : string) :
  authValue2 config cn c n uri response = authValue1 config cn c n uri response.
Proof.
  unfold authValue2, authValue1, authAlgorithm. rewrite Halgorithm.
  now rewrite !append_empty.
Qed.

Lemma authorize_agree (n : Z) :
  result (Copy1.authorize rt config cn req {| nc := n; cachedChallenge := Some c |})
  = result (Copy2.authorize rt config cn req {| nc := n; cachedChallenge := Some c |}).
Proof.
  destruct (createHash rt "md5") as [hash |] eqn:Hh.
  - rewrite (authorize1_ok rt config cn req {| nc := n; cachedChallenge := Some c |}
               c hash eq_refl Hh).
    rewrite (authorize2_ok rt config cn req {| nc := n; cachedChallenge := Some c |}
               c hash eq_refl) by (now rewrite orElse_md5).
    simpl. now rewrite authValue_agree, Huri.
  - rewrite (authorize1_unknown rt config cn req
               {| nc := n; cachedChallenge := Some c |} c eq_refl Hh).
    rewrite (authorize2_unknown rt config cn req
               {| nc := n; cachedChallenge := Some c |} c eq_refl)
      by (now rewrite orElse_md5).
    simpl. now rewrite orElse_md5.
Qed.

End Agreement.

(** X16.  For a request that finds a challenge without algorithm and a
    count within the ceiling of the first copy, and whose URI the two copies
    extract alike, the two copies return the same request and leave the same
    cache. *)
Theorem copies_agree_on_request
    (rt : Runtime) (config : DigestAuthConfig) (net : Network) (cn : string)
    (req : AxiosRequestConfig) (s : Cache) (c : DigestChallenge) :
  cachedChallenge s = Some c -> nc s <= 99 ->
  Js.truthy (algorithm c) = false ->
  Copy1.requestURI rt req = uri2 rt req ->
  result (Copy1.requestInterceptor rt config net cn req s)
  = result (Copy2.requestInterceptor rt config net cn req s)
  /\ cache (Copy1.requestInterceptor rt config net cn req s)
     = cache (Copy2.requestInterceptor rt config net cn req s).
Proof.
  intros Hc Hn Ha Huri.
  pose proof (over_active Copy1.ceiling s c Hc Hn) as Ho1.
  pose proof (over_active Copy2.ceiling s c Hc
                ltac:(unfold Copy2.ceiling; lia)) as Ho2.
  split.
  - rewrite intercept1_unfold, intercept2_unfold, Ho1, Ho2, !intercept_counted, Hc.
    now apply authorize_agree.
  - destruct (intercept1_summary rt config net cn req s) as (-> & _).
    destruct (intercept2_summary rt config net cn req s) as (-> & _).
    now rewrite Ho1, Ho2.
Qed.

(** An absolute URL, which both copies parse, and a challenge without
    algorithm. *)
Lemma copies_agree_on_request_witness :
  result (Copy1.requestInterceptor Sample.runtime Sample.admin
            (Sample.device Sample.emptyQopHeader) "0a4f113b" Sample.doorRequest
            {| nc := 1; cachedChallenge := Some Sample.emptyQop |})
  = result (Copy2.requestInterceptor Sample.runtime Sample.admin
              (Sample.device Sample.emptyQopHeader) "0a4f113b" Sample.doorRequest
              {| nc := 1; cachedChallenge := Some Sample.emptyQop |}).
Proof.
  refine (proj1 (copies_agree_on_request Sample.runtime Sample.admin
                   (Sample.device Sample.emptyQopHeader) "0a4f113b" Sample.doorRequest
                   {| nc := 1; cachedChallenge := Some Sample.emptyQop |}
                   Sample.emptyQop eq_refl _ eq_refl eq_refl)).
  simpl. lia.
Defined.

(** ** The door service *)

Section DoorService.

Lemma controlDoor_shape (m : M AxiosResponse) (s : Cache) :
  tryCatch m (fun error => emit (Door.controllingDoorError error) >> throw error) s
  = match result (m s) with
    | inl e => {| trace := trace (m s) ++ [Door.controllingDoorError e];
                  cache := cache (m s); result := inl e |}
    | inr r => {| trace := trace (m s); cache := cache (m s); result := inr r |}
    end.
Proof.
  unfold tryCatch, bind, emit, throw. destruct (m s) as [t s1 [e | r]]; reflexivity.
Qed.

Lemma perform_dispatches (intercept : M AxiosRequestConfig) (net : Network) (s : Cache) :
  Spec.dispatches (trace (intercept s)) = 0%nat ->
  (Spec.dispatches
     (trace (tryCatch (let* cfg := intercept in dispatchRequest net cfg)
               responseRejected s)) <= 1)%nat.
Proof.
  intros H0.
  destruct (result (intercept s)) as [e | cfg] eqn:Hi.
  - rewrite (perform_intercept_error intercept net s e Hi). simpl.
    rewrite dispatches_app, H0.
    destruct (@responseRejected_quiet AxiosResponse e (cache (intercept s))) as [_ ->].
    lia.
  - destruct (result (dispatchRequest net cfg (cache (intercept s)))) as [e | r] eqn:Hd.
    + rewrite (perform_rejected intercept net s cfg e Hi Hd). simpl.
      rewrite !dispatches_app, H0.
      destruct (@responseRejected_quiet AxiosResponse e (cache (intercept s))) as [_ ->].
      change (Spec.dispatches [Dispatch cfg]) with 1%nat. lia.
    + rewrite (perform_resolved intercept net s cfg r Hi Hd). simpl.
      rewrite dispatches_app, H0. change (Spec.dispatches [Dispatch cfg]) with 1%nat.
      lia.
Qed.

Lemma acquire_fresh challengeText net req s :
  result (acquireWith challengeText net req s) = inr tt ->
  nc (cache (acquireWith challengeText net req s)) = 1.
Proof.
  destruct (acquire_cases challengeText net req s); simpl; try discriminate.
  reflexivity.
Qed.

Variable rt : Runtime.
Variable config : DigestAuthConfig.
Variable net : Network.
Variable cn : string.
Variable req : AxiosRequestConfig.

Lemma intercept1_fresh (v : string) :
  result (Copy1.requestInterceptor rt config net cn req createDigestAuth)
  = inr (setAuthorization req v) ->
  exists c response,
    v = Spec.render (Spec.directives false (username config) c
                       (Copy1.requestURI rt req) response "00000001" cn).
Proof.
  intros Hi.
  destruct (intercept1_header rt config net cn req _ _ Hi)
    as (c & response & _ & _ & Hauth).
  rewrite authorizationOf_set in Hauth. injection Hauth as ->.
  exists c, response.
  destruct (intercept1_summary rt config net cn req createDigestAuth) as (-> & _).
  rewrite intercept1_unfold in Hi. apply intercept_success in Hi as (Hpre & _).
  change (over Copy1.ceiling createDigestAuth) with true in *. cbv iota in *.
  unfold Copy1.acquire in *. now rewrite (acquire_fresh _ _ _ _ Hpre).
Qed.

Lemma intercept2_fresh (v : string) :
  result (Copy2.requestInterceptor rt config net cn req createDigestAuth)
  = inr (setAuthorization req v) ->
  exists c response,
    v = Spec.render (Spec.directives true (username config) c
                       (uri2 rt req) response "00000001" cn).
Proof.
  intros Hi.
  destruct (intercept2_header rt config net cn req _ _ Hi)
    as (c & response & _ & _ & Hauth).
  rewrite authorizationOf_set in Hauth. injection Hauth as ->.
  exists c, response.
  destruct (intercept2_summary rt config net cn req createDigestAuth) as (-> & _).
  rewrite intercept2_unfold in Hi. apply intercept_success in Hi as (Hpre & _).
  change (over Copy2.ceiling createDigestAuth) with true in *. cbv iota in *.
  unfold Copy2.acquire in *. now rewrite (acquire_fresh _ _ _ _ Hpre).
Qed.

End DoorService.

(** X17.  A door command runs on an instance of its own, so it never
    finds a challenge: it sends exactly one probe and at most one request
    with credentials; when it returns, that request carried a header built
    with count 1 and the device's answer to it is what the engine handed
    back; when it fails, the error is logged once more before it is thrown
    again. *)
Theorem door_command_starts_afresh
    (rt : Runtime) (client : Door.DoorControlClient) (probeNet net : Network)
    (cn doorId command : string) :
  let req := Door.doorRequest client doorId in
  let served (withAlgorithm : bool) (uri : string) (o : Outcome AxiosResponse) : Prop :=
    Spec.probes (trace o) = 1%nat
    /\ (Spec.dispatches (trace o) <= 1)%nat
    /\ (forall r, result o = inr r ->
          exists c response,
            Spec.authorizationsSent (trace o)
            = [Spec.render (Spec.directives withAlgorithm (Door.username client) c uri
                              response "00000001" cn)]
            /\ net (setAuthorization req
                      (Spec.render (Spec.directives withAlgorithm (Door.username client)
                                      c uri response "00000001" cn)))
               = HttpResponse (status r) (www_authenticate r))
    /\ (forall e, result o = inl e ->
          exists t, trace o = (t ++ [Door.controllingDoorError e])%list) in
  served false (Copy1.requestURI rt req)
    (Door.controlDoor (Copy1.perform rt) client probeNet net cn doorId command)
  /\ served true (uri2 rt req)
       (Door.controlDoor (Copy2.perform rt) client probeNet net cn doorId command).
Proof.
  intros req served. subst served. cbv beta. unfold Door.controlDoor. fold req.
  set (config := Build_DigestAuthConfig _ _).
  rewrite !controlDoor_shape. split.
  - set (o := Copy1.perform rt config probeNet net cn req createDigestAuth).
    assert (Hp : Spec.probes (trace o) = 1%nat) by (unfold o; now rewrite perform1_probes).
    assert (Hd : (Spec.dispatches (trace o) <= 1)%nat).
    { unfold o, Copy1.perform. apply perform_dispatches, intercept1_dispatches. }
    destruct (result o) as [e | r] eqn:Hres; cbn [trace result].
    + rewrite probes_app, dispatches_app, Hp.
      change (Spec.probes [Door.controllingDoorError e]) with 0%nat.
      change (Spec.dispatches [Door.controllingDoorError e]) with 0%nat.
      split; [lia |]. split; [lia |]. split; [discriminate |].
      intros e' [= <-]. now exists (trace o).
    + split; [exact Hp |]. split; [exact Hd |]. split; [| discriminate].
      intros r' [= <-].
      destruct (perform1_resolves rt config probeNet net cn req createDigestAuth r Hres)
        as (v & _ & Hi & Hnet & _ & _ & _ & Hsent & _).
      destruct (intercept1_fresh rt config probeNet cn req v Hi) as (c & response & ->).
      exists c, response. now split.
  - set (o := Copy2.perform rt config probeNet net cn req createDigestAuth).
    assert (Hp : Spec.probes (trace o) = 1%nat) by (unfold o; now rewrite perform2_probes).
    assert (Hd : (Spec.dispatches (trace o) <= 1)%nat).
    { unfold o, Copy2.perform. apply perform_dispatches, intercept2_dispatches. }
    destruct (result o) as [e | r] eqn:Hres; cbn [trace result].
    + rewrite probes_app, dispatches_app, Hp.
      change (Spec.probes [Door.controllingDoorError e]) with 0%nat.
      change (Spec.dispatches [Door.controllingDoorError e]) with 0%nat.
      split; [lia |]. split; [lia |]. split; [discriminate |].
      intros e' [= <-]. now exists (trace o).
    + split; [exact Hp |]. split; [exact Hd |]. split; [| discriminate].
      intros r' [= <-].
      destruct (perform2_resolves rt config probeNet net cn req createDigestAuth r Hres)
        as (v & _ & Hi & Hnet & _ & _ & _ & Hsent & _).
      destruct (intercept2_fresh rt config probeNet cn req v Hi) as (c & response & ->).
      exists c, response. now split.
Qed.
